(** * vios_alt_disk: alternate rootvg disk copy and cleanup on a VIOS

    A shallow embedding of [plugins/modules/vios_alt_disk.py] and the
    properties of its rootvg inspection, disk selection and copy / clean
    orchestration.

    Conventions of the embedding.
    - A Python [str] is a [string]; its characters are code points below
      256.  White space for [str.rstrip] and [\s] is Python 3's notion on
      that range.
    - A Python [dict] is an association list kept in insertion order
      (Python 3.7 and later), a key occurring at most once.
    - The global [results] dictionary, the commands handed to
      [module.run_command] and the messages handed to [module.log] and
      [module.debug] are threaded through a state.
    - [module.fail_json] ends the process: it is the outcome [FailJson],
      the report being the [results] of the final state.  An uncaught
      Python exception is the outcome [Raise].
    - [AnsibleModule] is Ansible's: [run_command] raises [TypeError] on
      an argument list that holds a non-string before it spawns anything,
      and the class has no method [info].
    - [int()] is CPython's on a [str]: it skips the ASCII white space
      and the two spaces above 127 around the literal, and it raises
      [ValueError] on more than 4300 digits (the default limit of 3.11
      and of the security releases of 3.7 to 3.10). *)

From Stdlib Require Import ZArith List String Ascii Bool Lia DecimalString Permutation
  Sorted.
Import ListNotations.
Local Open Scope string_scope.
Local Open Scope Z_scope.

(** ** Python strings *)

Module Py.

Definition code (a : ascii) : Z := Z.of_nat (nat_of_ascii a).

(** [str.isspace] on one character, for code points below 256. *)
Definition isspace (a : ascii) : bool :=
  let n := code a in
  ((9 <=? n) && (n <=? 13)) || ((28 <=? n) && (n <=? 32))
  || (n =? 133) || (n =? 160).

Definition isdigit (a : ascii) : bool :=
  let n := code a in (48 <=? n) && (n <=? 57).

Definition newline : ascii := ascii_of_nat 10.

(** [s.find(sub)]: the lowest index where [sub] occurs, or -1. *)
Fixpoint find_from (sub s : string) (i : Z) : Z :=
  if String.prefix sub s then i
  else match s with
       | EmptyString => -1
       | String _ s' => find_from sub s' (i + 1)
       end.

Definition find (s sub : string) : Z := find_from sub s 0.

(** [s.split(c)] for a one-character separator. *)
Fixpoint split (c : ascii) (s : string) : list string :=
  match s with
  | EmptyString => [EmptyString]
  | String a s' =>
      if Ascii.eqb a c then EmptyString :: split c s'
      else match split c s' with
           | h :: t => String a h :: t
           | [] => [String a EmptyString]
           end
  end.

Fixpoint rstrip (s : string) : string :=
  match s with
  | EmptyString => EmptyString
  | String a s' =>
      match rstrip s' with
      | EmptyString => if isspace a then EmptyString else String a EmptyString
      | r => String a r
      end
  end.

Fixpoint drop (n : nat) (s : string) : string :=
  match n, s with
  | O, _ => s
  | S n', String _ s' => drop n' s'
  | S _, EmptyString => EmptyString
  end.

(** [sep.join(l)] on a list of strings. *)
Fixpoint join (sep : string) (l : list string) : string :=
  match l with
  | [] => EmptyString
  | [x] => x
  | x :: rest => x ++ sep ++ join sep rest
  end.

(** The white space that [int()] skips around the literal: the ASCII
    white space, and the two spaces above 127, which the conversion turns
    into blanks first.  The separators 28 to 31 are not skipped. *)
Definition int_space (a : ascii) : bool :=
  let n := code a in
  ((9 <=? n) && (n <=? 13)) || (n =? 32) || (n =? 133) || (n =? 160).

Fixpoint int_rstrip (s : string) : string :=
  match s with
  | EmptyString => EmptyString
  | String a s' =>
      match int_rstrip s' with
      | EmptyString => if int_space a then EmptyString else String a EmptyString
      | r => String a r
      end
  end.

Fixpoint int_lstrip (s : string) : string :=
  match s with
  | EmptyString => EmptyString
  | String a s' => if int_space a then int_lstrip s' else s
  end.

(** Decimal digits with single underscores between digits. *)
Fixpoint int_digits (s : string) (acc : Z) (after_digit : bool) : option Z :=
  match s with
  | EmptyString => if after_digit then Some acc else None
  | String a s' =>
      if isdigit a then int_digits s' (10 * acc + (code a - 48)) true
      else if Ascii.eqb a "_" && after_digit then int_digits s' acc false
      else None
  end.

Fixpoint count_digits (s : string) : nat :=
  match s with
  | EmptyString => 0
  | String a s' => (if isdigit a then 1 else 0) + count_digits s'
  end.

(** [sys.get_int_max_str_digits()], at its default. *)
Definition max_str_digits : nat := 4300.

Definition int_literal (d : string) : option Z :=
  if (max_str_digits <? count_digits d)%nat then None else int_digits d 0 false.

(** [int(s)]: surrounding white space, an optional sign, then the
    digits, no more than [max_str_digits] of them.  [None] is
    [ValueError]. *)
Definition int (s : string) : option Z :=
  match int_rstrip (int_lstrip s) with
  | String "-" d => option_map Z.opp (int_literal d)
  | String "+" d => int_literal d
  | d => int_literal d
  end.

(** [str(n)] for an integer, as [format] renders it. *)
Definition str_of_int (n : Z) : string :=
  match n with
  | Z0 => "0"
  | Zpos p => NilEmpty.string_of_uint (Pos.to_uint p)
  | Zneg p => String "-" (NilEmpty.string_of_uint (Pos.to_uint p))
  end.

End Py.

(** ** The regular expressions of the module

    [re.match] with Python's backtracking order: alternatives are tried
    greedy first, the first success wins.  Repetition is only ever applied
    to a character class in this module, and groups are never nested, so
    the groups of a match are the captured texts in order. *)

Module Re.

Inductive cls : Type :=
| Space      (* \s *)
| NonSpace   (* \S *)
| Digit      (* \d *)
| Dot.       (* .  *)

Definition mem (c : cls) (a : ascii) : bool :=
  match c with
  | Space => Py.isspace a
  | NonSpace => negb (Py.isspace a)
  | Digit => Py.isdigit a
  | Dot => negb (Ascii.eqb a Py.newline)
  end.

Inductive re : Type :=
| Lit (s : string)
| Star (c : cls)
| Plus (c : cls)
| Bol
| Eol
| Cat (r1 r2 : re)
| Grp (r : re).

Fixpoint star {X : Type} (p : ascii -> bool) (k : nat -> string -> option X)
  (i : nat) (s : string) : option X :=
  match s with
  | String a s' =>
      if p a then
        match star p k (S i) s' with
        | Some r => Some r
        | None => k i s
        end
      else k i s
  | EmptyString => k i s
  end.

Definition cont : Type := nat -> string -> list string -> option (list string).

(** [w] is the whole subject, [i] the number of characters consumed, [s]
    what is left, [g] the groups closed so far. *)
Fixpoint run (w : string) (r : re) (k : cont) (i : nat) (s : string)
  (g : list string) : option (list string) :=
  match r with
  | Lit l =>
      if String.prefix l s
      then k (i + String.length l)%nat (Py.drop (String.length l) s) g
      else None
  | Star c => star (mem c) (fun i' s' => k i' s' g) i s
  | Plus c =>
      match s with
      | String a s' =>
          if mem c a then star (mem c) (fun i' s' => k i' s' g) (S i) s'
          else None
      | EmptyString => None
      end
  | Bol => if Nat.eqb i 0 then k i s g else None
  | Eol =>
      if String.eqb s EmptyString || String.eqb s (String Py.newline EmptyString)
      then k i s g else None
  | Cat a b => run w a (run w b k) i s g
  | Grp a =>
      run w a (fun i' s' g' => k i' s' (g' ++ [String.substring i (i' - i) w])%list) i s g
  end.

(** [re.match(r, s)]: [None] when there is no match, else the groups. *)
Definition re_match (r : re) (s : string) : option (list string) :=
  run s r (fun _ _ g => Some g) 0%nat s [].

(** [m.group(n)] for n >= 1. *)
Definition group (m : list string) (n : nat) : string :=
  nth (n - 1) m EmptyString.

Fixpoint seq (l : list re) : re :=
  match l with
  | [] => Lit EmptyString
  | [r] => r
  | r :: rest => Cat r (seq rest)
  end.

(** get_pvs: ^(hdisk\S+)\s+(\S+)\s+(\S+) then \s* and a last group of
    zero or more \S. *)
Definition pv_line : re :=
  seq [Bol; Grp (Cat (Lit "hdisk") (Plus NonSpace)); Plus Space;
       Grp (Plus NonSpace); Plus Space; Grp (Plus NonSpace); Star Space;
       Grp (Star NonSpace)].

(** get_free_pvs: ^(hdisk\S+)\s+(\S+)\s+(\S+) *)
Definition free_pv_line : re :=
  seq [Bol; Grp (Cat (Lit "hdisk") (Plus NonSpace)); Plus Space;
       Grp (Plus NonSpace); Plus Space; Grp (Plus NonSpace)].

(** check_rootvg, mirror_key: ^(\S+):\d+\s+\S+:\d+:(\d+)$ *)
Definition mirror_line : re :=
  seq [Bol; Grp (Plus NonSpace); Lit ":"; Plus Digit; Plus Space;
       Plus NonSpace; Lit ":"; Plus Digit; Lit ":"; Grp (Plus Digit); Eol].

(** check_rootvg, single_key: ^(\S+):\d+\s+\S+:\d+$ *)
Definition single_line : re :=
  seq [Bol; Grp (Plus NonSpace); Lit ":"; Plus Digit; Plus Space;
       Plus NonSpace; Lit ":"; Plus Digit; Eol].

(** check_rootvg, lsvg -p rows: ^(\S+)\s+\S+\s+(\d+)\s+\d+\s+\S+ *)
Definition lsvg_p_line : re :=
  seq [Bol; Grp (Plus NonSpace); Plus Space; Plus NonSpace; Plus Space;
       Grp (Plus Digit); Plus Space; Plus Digit; Plus Space; Plus NonSpace].

(** check_rootvg: .* TOTAL PPs:\s+\d+\s+\((\d+)\s+megabytes\) .* with no
    blank around the literal. *)
Definition total_pps_line : re :=
  seq [Star Dot; Lit "TOTAL PPs:"; Plus Space; Plus Digit; Plus Space;
       Lit "("; Grp (Plus Digit); Plus Space; Lit "megabytes)"; Star Dot].

(** check_rootvg: .* PP SIZE:\s+(\d+)\s+megabyte\(s\) with no blank
    after the leading repetition. *)
Definition pp_size_line : re :=
  seq [Star Dot; Lit "PP SIZE:"; Plus Space; Grp (Plus Digit); Plus Space;
       Lit "megabyte(s)"].

End Re.


(** ** Python dictionaries, in insertion order *)

Module Dict.
Section Ops.
Context {K V : Type} (eqb : K -> K -> bool).

(** [d.get(k)]; [None] where [d[k]] raises [KeyError]. *)
Fixpoint get (d : list (K * V)) (k : K) : option V :=
  match d with
  | [] => None
  | (k', v) :: rest => if eqb k' k then Some v else get rest k
  end.

(** [k in d] *)
Definition mem (d : list (K * V)) (k : K) : bool :=
  match get d k with Some _ => true | None => false end.

(** [d[k] = v]: an existing key keeps its place. *)
Fixpoint set (d : list (K * V)) (k : K) (v : V) : list (K * V) :=
  match d with
  | [] => [(k, v)]
  | (k', v') :: rest =>
      if eqb k' k then (k, v) :: rest else (k', v') :: set rest k v
  end.

Definition keys (d : list (K * V)) : list K := map fst d.
Definition values (d : list (K * V)) : list V := map snd d.
Definition len (d : list (K * V)) : Z := Z.of_nat (List.length d).
End Ops.
End Dict.

(** ** The module object, the global results and the outcome of a run *)

Inductive pyval : Type :=
| PStr (s : string)
| PInt (n : Z).

Definition command : Type := list pyval.

(** What [module.run_command] returns: exit code, stdout, stderr. *)
Definition response : Type := (Z * string * string)%type.

(** The [module] argument.  The host answers a command as a function of
    all the commands run so far, the last one being the current one. *)
Record AnsibleModule : Type := { host : list command -> response }.

Record results_t : Type :=
  { changed : bool; msg : string; stdout : string; stderr : string }.

Record pv : Type := { pvid : string; vg : string; pv_status : string }.
Record free_pv : Type := { free_pvid : string; size : Z }.

Inductive level : Type := Log | Debug.

(** An argument of [format] in a logged message, kept unrendered. *)
Inductive logarg : Type :=
| AStr (s : string)
| AInt (n : Z)
| AList (l : list string)
| APv (p : pv)
| AFree (p : free_pv).

Record state : Type :=
  { results : results_t;
    calls : list (command * response);
    journal : list (level * string * list logarg) }.

Inductive exn : Type := TypeError | KeyError | ValueError | AttributeError.

Inductive outcome (A : Type) : Type :=
| Ret (a : A)
| FailJson
| ExitJson
| Raise (e : exn).
Arguments Ret {A} a.
Arguments FailJson {A}.
Arguments ExitJson {A}.
Arguments Raise {A} e.

Definition M (A : Type) : Type := state -> outcome A * state.

Definition ret {A : Type} (a : A) : M A := fun st => (Ret a, st).

Definition bind {A B : Type} (m : M A) (k : A -> M B) : M B :=
  fun st =>
    match m st with
    | (Ret a, st') => k a st'
    | (FailJson, st') => (FailJson, st')
    | (ExitJson, st') => (ExitJson, st')
    | (Raise e, st') => (Raise e, st')
    end.

Declare Scope py_scope.
Delimit Scope py_scope with py.
Notation "x <- m ;; k" := (bind m (fun x => k))
  (at level 61, m at next level, right associativity) : py_scope.
Notation "' pat <- m ;; k" := (bind m (fun x => match x with pat => k end))
  (at level 61, pat pattern, m at next level, right associativity) : py_scope.
Notation "m ;; k" := (bind m (fun _ => k))
  (at level 61, right associativity) : py_scope.
Local Open Scope py_scope.

Definition fail_json {A : Type} : M A := fun st => (FailJson, st).
Definition exit_json {A : Type} : M A := fun st => (ExitJson, st).
Definition raise {A : Type} (e : exn) : M A := fun st => (Raise e, st).

Definition set_results (f : results_t -> results_t) : M unit :=
  fun st =>
    (Ret tt,
     {| results := f (results st); calls := calls st; journal := journal st |}).

Definition set_changed (b : bool) : M unit :=
  set_results (fun r =>
    {| changed := b; msg := msg r; stdout := stdout r; stderr := stderr r |}).
Definition set_msg (s : string) : M unit :=
  set_results (fun r =>
    {| changed := changed r; msg := s; stdout := stdout r; stderr := stderr r |}).
Definition set_stdout (s : string) : M unit :=
  set_results (fun r =>
    {| changed := changed r; msg := msg r; stdout := s; stderr := stderr r |}).
Definition set_stderr (s : string) : M unit :=
  set_results (fun r =>
    {| changed := changed r; msg := msg r; stdout := stdout r; stderr := s |}).

(** The items of an argument list when all of them are strings. *)
Fixpoint strings_of (cmd : command) : option (list string) :=
  match cmd with
  | [] => Some []
  | PStr s :: rest => option_map (cons s) (strings_of rest)
  | PInt _ :: _ => None
  end.

(** [module.run_command(cmd)].  The arguments are expanded as paths
    before the process is spawned, which raises [TypeError] on an
    argument that is not a string: nothing is run then. *)
Definition run_command (module : AnsibleModule) (cmd : command) : M response :=
  fun st =>
    match strings_of cmd with
    | None => (Raise TypeError, st)
    | Some _ =>
        let r := host module (map fst (calls st) ++ [cmd]) in
        (Ret r,
         {| results := results st; calls := calls st ++ [(cmd, r)];
            journal := journal st |})
    end.

(** [module.info(...)]: [AnsibleModule] has no such attribute. *)
Definition module_info {A : Type} : M A := raise AttributeError.

(** [module.log], [module.debug] of [template.format(args)] *)
Definition emit (l : level) (template : string) (args : list logarg) : M unit :=
  fun st =>
    (Ret tt,
     {| results := results st; calls := calls st;
        journal := journal st ++ [(l, template, args)] |}).

Fixpoint for_each {A : Type} (l : list A) (body : A -> M unit) : M unit :=
  match l with
  | [] => ret tt
  | x :: rest => body x ;; for_each rest body
  end.

(** [' '.join(cmd)]: [TypeError] when an item is not a string. *)
Definition join_cmd (cmd : command) : M string :=
  match strings_of cmd with
  | Some l => ret (Py.join " " l)
  | None => raise TypeError
  end.

(** The recurring block
    [results['stdout'] = stdout; results['stderr'] = stderr;
     results['msg'] = 'Command ... failed with return code ...'] *)
Definition command_failed (cmd : command) (r : response) : M unit :=
  let '(rc, out, err) := r in
  set_stdout out ;;
  set_stderr err ;;
  joined <- join_cmd cmd ;;
  set_msg ("Command '" ++ joined ++ "' failed with return code "
           ++ Py.str_of_int rc ++ ".").

Definition str (l : list string) : command := map PStr l.

(** ** get_pvs, get_free_pvs *)

Definition get_pvs_line (pvs : list (string * pv)) (line : string)
  : list (string * pv) :=
  match Re.re_match Re.pv_line (Py.rstrip line) with
  | Some m =>
      Dict.set String.eqb pvs (Re.group m 1)
        {| pvid := Re.group m 2; vg := Re.group m 3; pv_status := Re.group m 4 |}
  | None => pvs
  end.

Definition get_pvs (module : AnsibleModule) : M (option (list (string * pv))) :=
  let cmd := str ["/usr/ios/cli/ioscli"; "lspv"] in
  r <- run_command module cmd ;;
  if negb (fst (fst r) =? 0) then
    command_failed cmd r ;; ret None
  else
    let pvs := fold_left get_pvs_line (Py.split Py.newline (snd (fst r))) [] in
    emit Debug "List of PVs:" [] ;;
    for_each pvs (fun e => emit Debug "    pvs[{0}]: {1}" [AStr (fst e); APv (snd e)]) ;;
    ret (Some pvs).

Fixpoint get_free_pvs_lines (lines : list string) (free_pvs : list (string * free_pv))
  : M (list (string * free_pv)) :=
  match lines with
  | [] => ret free_pvs
  | line :: rest =>
      match Re.re_match Re.free_pv_line (Py.rstrip line) with
      | Some m =>
          match Py.int (Re.group m 3) with
          | Some n =>
              get_free_pvs_lines rest
                (Dict.set String.eqb free_pvs (Re.group m 1)
                   {| free_pvid := Re.group m 2; size := n |})
          | None => raise ValueError
          end
      | None => get_free_pvs_lines rest free_pvs
      end
  end.

Definition get_free_pvs (module : AnsibleModule)
  : M (option (list (string * free_pv))) :=
  let cmd := str ["/usr/ios/cli/ioscli"; "lspv"; "-free"] in
  r <- run_command module cmd ;;
  if negb (fst (fst r) =? 0) then
    command_failed cmd r ;; ret None
  else
    free_pvs <- get_free_pvs_lines (Py.split Py.newline (snd (fst r))) [] ;;
    emit Debug "List of available PVs:" [] ;;
    for_each free_pvs
      (fun e => emit Debug "    free_pvs[{0}]: {1}" [AStr (fst e); AFree (snd e)]) ;;
    ret (Some free_pvs).

(** ** find_valid_altdisk *)

Inductive disk_size_policy : Type := minimize | upper | lower | nearest.

Record vg_info : Type :=
  { status : Z;
    copy_dict : list (Z * string);
    rootvg_size : Z;
    used_size : Z }.

(** [sorted(pvs, key=lambda k: pvs[k]['size'])]: a stable sort, here by
    insertion; the entries are carried along with their keys. *)
Fixpoint insert_by_size (e : string * free_pv) (l : list (string * free_pv))
  : list (string * free_pv) :=
  match l with
  | [] => [e]
  | x :: rest =>
      if size (snd e) <=? size (snd x) then e :: l
      else x :: insert_by_size e rest
  end.

Definition sorted_by_size (pvs : list (string * free_pv)) : list (string * free_pv) :=
  fold_right insert_by_size [] pvs.

(** The [for key in sorted(...)] loop of the automatic mode (lines 240-280).
    The result is [(selected_disk, prev_disk)] when the loop is left. *)
Fixpoint scan_free_disks (used_size rootvg_size : Z) (policy : disk_size_policy)
  (disks : list (string * free_pv)) (prev_disk : string) (prev_diffsize : Z)
  : string * string :=
  match disks with
  | [] => (EmptyString, prev_disk)
  | (hdisk, info) :: rest =>
      if size info <? used_size then
        scan_free_disks used_size rootvg_size policy rest prev_disk prev_diffsize
      else
        match policy with
        | minimize => (hdisk, prev_disk)
        | _ =>
            let diffsize := size info - rootvg_size in
            if diffsize =? 0 then (hdisk, prev_disk)
            else if diffsize >? 0 then
              match policy with
              | upper => (hdisk, prev_disk)
              | lower =>
                  if String.eqb prev_disk EmptyString then (hdisk, prev_disk)
                  else (prev_disk, prev_disk)
              | _ =>
                  if String.eqb prev_disk EmptyString then (hdisk, prev_disk)
                  else if Z.abs prev_diffsize >? diffsize then (hdisk, prev_disk)
                  else (prev_disk, prev_disk)
              end
            else scan_free_disks used_size rootvg_size policy rest hdisk diffsize
        end
  end.

Definition policy_name (p : disk_size_policy) : string :=
  match p with
  | minimize => "minimize"
  | upper => "upper"
  | lower => "lower"
  | nearest => "nearest"
  end.

(** The [for hdisk in hdisks] loop of the explicit mode (lines 298-303). *)
Fixpoint sum_sizes (pvs : list (string * free_pv)) (hdisks : list string)
  (tot_size : Z) : M Z :=
  match hdisks with
  | [] => ret tot_size
  | hdisk :: rest =>
      match Dict.get String.eqb pvs hdisk with
      | None =>
          set_msg ("Alternate disk " ++ hdisk
                   ++ " is either not found or not available") ;;
          fail_json
      | Some info => sum_sizes pvs rest (tot_size + size info)
      end
  end.

(** Lines 231-312: the choice or the validation of the disks, once the
    free disks are known.  [hdisks] is appended to in place by the source;
    the list as it is left is the result. *)
Definition select_altdisk (module : AnsibleModule) (pvs : list (string * free_pv))
  (hdisks : list string) (rootvg_info : vg_info) (policy : disk_size_policy)
  : M (list string) :=
  let used_size := used_size rootvg_info in
  let rootvg_size := rootvg_size rootvg_info in
  match hdisks with
  | [] =>
      let '(selected_disk, prev_disk) :=
        scan_free_disks used_size rootvg_size policy (sorted_by_size pvs)
          EmptyString 0 in
      selected_disk <-
        (if String.eqb selected_disk EmptyString then
           if negb (String.eqb prev_disk EmptyString) then ret prev_disk
           else
             set_msg ("No available alternate disk with size greater than "
                      ++ Py.str_of_int rootvg_size ++ " MB found") ;;
             fail_json
         else ret selected_disk) ;;
      emit Debug "Selected disk is {0} (select mode: {1})"
        [AStr selected_disk; AStr (policy_name policy)] ;;
      ret (hdisks ++ [selected_disk])%list
  | _ =>
      tot_size <- sum_sizes pvs hdisks 0 ;;
      (if tot_size <? rootvg_size then
         if tot_size >=? used_size then
           emit Log "[WARNING] Alternate disks smaller than the current rootvg." []
         else
           set_msg ("Alternate disks too small (" ++ Py.str_of_int tot_size
                    ++ " < " ++ Py.str_of_int rootvg_size ++ ").") ;;
           fail_json
       else ret tt) ;;
      ret hdisks
  end.

Definition is_altinst (e : string * pv) : bool :=
  String.eqb (vg (snd e)) "altinst_rootvg".

Definition cmd_remove_altinst : command :=
  str ["/usr/sbin/alt_rootvg_op"; "-X"; "altinst_rootvg"].

Definition cmd_chpv (disk : string) : command :=
  str ["/usr/sbin/chpv"; "-C"; disk].

(** One [chpv -C] with its check, shared by lines 214-222 and 619-627. *)
Definition clear_owner (module : AnsibleModule) (disk : string) : M unit :=
  emit Log "Clearing the owning VG from disk {0}" [AStr disk] ;;
  r <- run_command module (cmd_chpv disk) ;;
  if negb (fst (fst r) =? 0) then
    command_failed (cmd_chpv disk) r ;; fail_json
  else ret tt.

(** Lines 180-222: the rootvg state is checked and an alternate rootvg
    that already exists is removed under [force]. *)
Definition clear_existing_altdisk (module : AnsibleModule) (rootvg_info : vg_info)
  (force : bool) : M unit :=
  (if negb (status rootvg_info =? 0) then
     set_msg "Wrong rootvg state" ;; fail_json
   else ret tt) ;;
  pvs <- get_pvs module ;;
  match pvs with
  | None => fail_json
  | Some pvs =>
      let found_altdisk :=
        match find is_altinst pvs with
        | Some e => fst e
        | None => EmptyString
        end in
      if negb (String.eqb found_altdisk EmptyString) then
        (if negb force then
           set_msg ("An alternate disk already exists on disk " ++ found_altdisk) ;;
           fail_json
         else ret tt) ;;
        emit Log "Removing altinst_rootvg" [] ;;
        r <- run_command module cmd_remove_altinst ;;
        (if negb (fst (fst r) =? 0) then
           command_failed cmd_remove_altinst r ;; fail_json
         else ret tt) ;;
        set_changed true ;;
        for_each pvs (fun e =>
          if is_altinst e then clear_owner module (fst e) else ret tt)
      else ret tt
  end.

Definition find_valid_altdisk (module : AnsibleModule) (hdisks : list string)
  (rootvg_info : vg_info) (policy : disk_size_policy) (force : bool)
  : M (list string) :=
  clear_existing_altdisk module rootvg_info force ;;
  free <- get_free_pvs module ;;
  match free with
  | None => fail_json
  | Some [] => set_msg "No free disk available" ;; fail_json
  | Some free => select_altdisk module free hdisks rootvg_info policy
  end.

(** ** check_rootvg *)

(** Lines 383-393: the disk and the copy number of one line of
    [lsvg -M rootvg], [None] where the loop continues; [inl] is the
    exception of [int()]. *)
Definition parse_map_line (line : string) : exn + option (string * Z) :=
  match Re.re_match Re.mirror_line line with
  | Some m =>
      match Py.int (Re.group m 2) with
      | Some copy => inr (Some (Re.group m 1, copy))
      | None => inl ValueError
      end
  | None =>
      match Re.re_match Re.single_line line with
      | Some m => inr (Some (Re.group m 1, 1))
      | None => inr None
      end
  end.

Definition msg_two_copies : string :=
  "rootvg data structure is not compatible with an alt_disk_copy operation (2 copies on the same disk)".

Definition msg_not_compatible : string :=
  "rootvg data structure is not compatible with an alt_disk_copy operation".

Definition msg_spread : string :=
  "The rootvg is partially or completely mirrored but some LP copies are spread on several disks. This prevents the system from creating an alternate rootvg disk copy.".

(** The variables the mapping loop updates. *)
Record map_acc : Type :=
  { nb_lp : Z;
    hdisk_dict : list (string * Z);
    copy_dict_acc : list (Z * string) }.

(** Lines 395-410, for one parsed line.  [inl m] is [return None] with
    [results['msg'] = m]. *)
Definition map_entry (acc : map_acc) (hdisk : string) (copy : Z)
  : string + map_acc :=
  let nb_lp := if copy =? 1 then nb_lp acc + 1 else nb_lp acc in
  match
    match Dict.get String.eqb (hdisk_dict acc) hdisk with
    | Some c => if negb (c =? copy) then inl msg_two_copies
                else inr (hdisk_dict acc)
    | None => inr (Dict.set String.eqb (hdisk_dict acc) hdisk copy)
    end
  with
  | inl m => inl m
  | inr hdisk_dict =>
      if negb (Dict.mem Z.eqb (copy_dict_acc acc) copy) then
        if existsb (String.eqb hdisk) (Dict.values (copy_dict_acc acc))
        then inl msg_not_compatible
        else inr {| nb_lp := nb_lp; hdisk_dict := hdisk_dict;
                    copy_dict_acc := Dict.set Z.eqb (copy_dict_acc acc) copy hdisk |}
      else inr {| nb_lp := nb_lp; hdisk_dict := hdisk_dict;
                  copy_dict_acc := copy_dict_acc acc |}
  end.

(** The loop of lines 381-410: an exception, or the message of a
    [return None], or the variables at the end of the loop. *)
Fixpoint map_loop (lines : list string) (acc : map_acc)
  : exn + (string + map_acc) :=
  match lines with
  | [] => inr (inr acc)
  | line :: rest =>
      match parse_map_line (Py.rstrip line) with
      | inl e => inl e
      | inr None => map_loop rest acc
      | inr (Some (hdisk, copy)) =>
          match map_entry acc hdisk copy with
          | inl m => inr (inl m)
          | inr acc' => map_loop rest acc'
          end
      end
  end.

(** The loop of lines 434-441 over [lsvg -p rootvg]; [copy1] is
    [copy_dict[1]], looked up at each row that matches. *)
Fixpoint pv_size_loop (lines : list string) (copy1 : option string) (pv_size : Z)
  : exn + Z :=
  match lines with
  | [] => inr pv_size
  | line :: rest =>
      match Re.re_match Re.lsvg_p_line (Py.rstrip line) with
      | Some m =>
          match Py.int (Re.group m 2) with
          | None => inl ValueError
          | Some pv_size =>
              match copy1 with
              | None => inl KeyError
              | Some disk =>
                  if String.eqb (Re.group m 1) disk then inr pv_size
                  else pv_size_loop rest copy1 pv_size
              end
          end
      | None => pv_size_loop rest copy1 pv_size
      end
  end.

(** The loop of lines 458-468 over [lsvg rootvg]: [(total_size, pp_size)]. *)
Definition summary_line (acc : Z * Z) (line : string) : exn + Z * Z :=
  let line := Py.rstrip line in
  match Re.re_match Re.total_pps_line line with
  | Some m =>
      match Py.int (Re.group m 1) with
      | Some total_size => inr (total_size, snd acc)
      | None => inl ValueError
      end
  | None =>
      match Re.re_match Re.pp_size_line line with
      | Some m =>
          match Py.int (Re.group m 1) with
          | Some pp_size => inr (fst acc, pp_size)
          | None => inl ValueError
          end
      | None => inr acc
      end
  end.

Fixpoint summary_lines (lines : list string) (acc : Z * Z) : exn + Z * Z :=
  match lines with
  | [] => inr acc
  | line :: rest =>
      match summary_line acc line with
      | inl e => inl e
      | inr acc' => summary_lines rest acc'
      end
  end.

Definition summary_loop (out : string) : exn + Z * Z :=
  summary_lines (Py.split Py.newline out) (-1, -1).

Definition cmd_lsvg_M : command := str ["/usr/sbin/lsvg"; "-M"; "rootvg"].
Definition cmd_lsvg_p : command := str ["/usr/sbin/lsvg"; "-p"; "rootvg"].
Definition cmd_lsvg : command := str ["/usr/sbin/lsvg"; "rootvg"].

(** [None] is the source's [return None]; a returned dictionary always
    has status 0. *)
Definition check_rootvg (module : AnsibleModule) : M (option vg_info) :=
  r <- run_command module cmd_lsvg_M ;;
  let '(rc, out, err) := r in
  if negb (rc =? 0) then command_failed cmd_lsvg_M r ;; ret None
  else if Py.find out "stale" >? 0 then
    set_stdout out ;; set_stderr err ;;
    set_msg "rootvg contains stale partitions" ;; ret None
  else
    match map_loop (Py.split Py.newline out)
            {| nb_lp := 0; hdisk_dict := []; copy_dict_acc := [] |} with
    | inl e => raise e
    | inr (inl m) => set_msg m ;; ret None
    | inr (inr acc) =>
        let copy_dict := copy_dict_acc acc in
        let mirrored := Dict.len copy_dict >? 1 in
        pv_size <-
          (if mirrored then
             if negb (Dict.len copy_dict =? Dict.len (hdisk_dict acc)) then
               set_msg msg_spread ;; ret None
             else
               r <- run_command module cmd_lsvg_p ;;
               if negb (fst (fst r) =? 0) then
                 command_failed cmd_lsvg_p r ;; ret None
               else
                 match pv_size_loop (Py.split Py.newline (snd (fst r)))
                         (Dict.get Z.eqb copy_dict 1) (-1) with
                 | inl e => raise e
                 | inr pv_size =>
                     if pv_size =? -1 then
                       set_msg "Failed to get pv size, parsing error" ;; ret None
                     else ret (Some pv_size)
                 end
           else ret (Some (-1))) ;;
        match pv_size with
        | None => ret None
        | Some pv_size =>
            r <- run_command module cmd_lsvg ;;
            if negb (fst (fst r) =? 0) then
              command_failed cmd_lsvg r ;; ret None
            else
              match summary_loop (snd (fst r)) with
              | inl e => raise e
              | inr (total_size, pp_size) =>
                  if pp_size =? -1 then
                    set_msg "Failed to get rootvg pp size, parsing error" ;; ret None
                  else
                    let total_size :=
                      if mirrored then pp_size * pv_size else total_size in
                    let used_size := pp_size * (nb_lp acc + 1) in
                    ret (Some {| status := 0; copy_dict := copy_dict;
                                 rootvg_size := total_size;
                                 used_size := used_size |})
              end
        end
    end.

(** ** alt_disk_copy *)

Definition cmd_unmirror : command := str ["/usr/sbin/unmirrorvg"; "rootvg"].

Definition cmd_alt_disk_copy (hdisks : list string) : command :=
  str ["alt_disk_copy"; "-B"; "-d"; Py.join " " hdisks].

(** [d[k]], raising [KeyError]. *)
Definition getitem (d : list (Z * string)) (k : Z) : M string :=
  match Dict.get Z.eqb d k with
  | Some v => ret v
  | None => raise KeyError
  end.

(** Lines 549-551: the copy count goes into the command as an integer. *)
Definition build_cmd_mirror (copies_h : list (Z * string)) (nb_copies : Z)
  : M command :=
  c2 <- getitem copies_h 2 ;;
  let cmd := [PStr "/usr/sbin/mirrorvg"; PStr "-m"; PStr "-c"; PInt nb_copies;
              PStr "rootvg"; PStr c2] in
  if nb_copies >? 2 then
    c3 <- getitem copies_h 3 ;; ret (cmd ++ [PStr c3])%list
  else ret cmd.

(** Lines 514-536.  The last statement, reached once [unmirrorvg] has
    succeeded, is a call of [module.info]. *)
Definition stop_mirror (module : AnsibleModule) (force : bool) : M unit :=
  (if negb force then
     set_msg "The rootvg is mirrored and force option is not set" ;; fail_json
   else ret tt) ;;
  emit Log "[WARNING] Stopping mirror" [] ;;
  r <- run_command module cmd_unmirror ;;
  let '(rc, out, err) := r in
  if negb (rc =? 0) then command_failed cmd_unmirror r ;; fail_json
  else if Py.find err "rootvg successfully unmirrored" =? -1 then
    set_stdout out ;; set_stderr err ;;
    set_msg "Failed to unmirror rootvg" ;; fail_json
  else module_info.

(** Lines 546-565.  The command handed to [run_command] holds the
    integer copy count. *)
Definition restore_mirror (module : AnsibleModule) (copies_h : list (Z * string))
  (nb_copies : Z) : M unit :=
  emit Log "Restoring mirror" [] ;;
  cmd <- build_cmd_mirror copies_h nb_copies ;;
  r <- run_command module cmd ;;
  let '(rc, out, err) := r in
  if negb (rc =? 0) then command_failed cmd r ;; fail_json
  else if negb (Py.find err "Failed to mirror the volume group" =? -1) then
    set_stdout out ;; set_stderr err ;;
    set_msg "Failed to mirror rootvg" ;; fail_json
  else ret tt.

(** Lines 538-572: the copy, the restoration and the report. *)
Definition copy_and_restore (module : AnsibleModule) (hdisks : list string)
  (copies_h : list (Z * string)) : M unit :=
  let nb_copies := Dict.len copies_h in
  r <- run_command module (cmd_alt_disk_copy hdisks) ;;
  let '(ret_altdc, stdout_altdc, stderr_altdc) := r in
  (if ret_altdc =? 0 then set_changed true else ret tt) ;;
  (if nb_copies >? 1 then restore_mirror module copies_h nb_copies else ret tt) ;;
  set_stdout stdout_altdc ;;
  set_stderr stderr_altdc ;;
  if negb (ret_altdc =? 0) then
    set_msg ("Failed to copy " ++ Py.join " " hdisks ++ ": return code "
             ++ Py.str_of_int ret_altdc ++ ".") ;;
    fail_json
  else ret tt.

Definition alt_disk_copy (module : AnsibleModule) (hdisks : option (list string))
  (policy : disk_size_policy) (force : bool) : M unit :=
  rootvg_info <- check_rootvg module ;;
  match rootvg_info with
  | None => fail_json
  | Some rootvg_info =>
      let hdisks := match hdisks with None => [] | Some l => l end in
      hdisks <- find_valid_altdisk module hdisks rootvg_info policy force ;;
      emit Log "Using {0} as alternate disks" [AList hdisks] ;;
      let copies_h := copy_dict rootvg_info in
      let nb_copies := Dict.len copies_h in
      (if nb_copies >? 1 then stop_mirror module force else ret tt) ;;
      copy_and_restore module hdisks copies_h
  end.

(** ** alt_disk_clean *)

(** Lines 590-594. *)
Fixpoint check_targets (pvs : list (string * pv)) (hdisks : list string) : M unit :=
  match hdisks with
  | [] => ret tt
  | hdisk :: rest =>
      match Dict.get String.eqb pvs hdisk with
      | Some p =>
          if negb (String.eqb (vg p) "altinst_rootvg") then
            set_msg ("Specified disk " ++ hdisk
                     ++ " is not an alternate install rootvg") ;;
            fail_json
          else check_targets pvs rest
      | None =>
          set_msg ("Specified disk " ++ hdisk
                   ++ " is not an alternate install rootvg") ;;
          fail_json
      end
  end.

(** Lines 588-603: the disks to clean, named by the caller or found in
    altinst_rootvg. *)
Definition clean_targets (pvs : list (string * pv)) (hdisks : option (list string))
  : M (list string) :=
  match hdisks with
  | Some (h :: t) => check_targets pvs (h :: t) ;; ret (h :: t)
  | _ =>
      let found := map fst (filter is_altinst pvs) in
      match found with
      | [] => set_msg "There is no alternate install rootvg" ;; fail_json
      | _ => ret found
      end
  end.

(** Lines 605-629: the alternate VG is removed, the owner is cleared from
    each disk, and only then is [changed] set. *)
Definition remove_and_clear (module : AnsibleModule) (hdisks : list string)
  : M unit :=
  emit Log "Removing altinst_rootvg" [] ;;
  r <- run_command module cmd_remove_altinst ;;
  let '(rc, out, err) := r in
  set_stdout out ;;
  set_stderr err ;;
  (if negb (rc =? 0) then
     joined <- join_cmd cmd_remove_altinst ;;
     set_msg ("Command '" ++ joined ++ "' failed with return code "
              ++ Py.str_of_int rc ++ ".") ;;
     fail_json
   else ret tt) ;;
  for_each hdisks (clear_owner module) ;;
  set_changed true.

Definition alt_disk_clean (module : AnsibleModule) (hdisks : option (list string))
  : M unit :=
  pvs <- get_pvs module ;;
  match pvs with
  | None => fail_json
  | Some pvs =>
      hdisks <- clean_targets pvs hdisks ;;
      remove_and_clear module hdisks
  end.

(** ** main *)

Inductive action_t : Type := act_alt_disk_copy | act_alt_disk_clean.

Record params : Type :=
  { action : action_t;
    targets : option (list string);
    param_disk_size_policy : disk_size_policy;
    param_force : bool }.

Definition initial_results : results_t :=
  {| changed := false; msg := EmptyString; stdout := EmptyString;
     stderr := EmptyString |}.

Definition initial_state : state :=
  {| results := initial_results; calls := []; journal := [] |}.

Definition main (module : AnsibleModule) (p : params) : M unit :=
  set_results (fun _ => initial_results) ;;
  match action p with
  | act_alt_disk_copy =>
      alt_disk_copy module (targets p) (param_disk_size_policy p) (param_force p)
  | act_alt_disk_clean => alt_disk_clean module (targets p)
  end ;;
  set_msg "VIOS alt disk operation completed successfully" ;;
  exit_json.

(** ** Hosts used in the examples *)

Definition nl : string := String Py.newline EmptyString.

Definition text (lines : list string) : string := Py.join nl lines.

(** A host that answers the n-th command with the n-th response. *)
Definition scripted (script : list response) : AnsibleModule :=
  {| host := fun history =>
       nth (List.length history - 1) script (1, EmptyString, EmptyString) |}.

Definition ok (out : string) : response := (0, out, EmptyString).

Definition lspv_plain : string :=
  text ["NAME             PVID                                 VG               STATUS";
        "hdisk0           000018fa3b12f5cb                     rootvg           active";
        "hdisk1           000018fa3b12f5cc                     None";
        "hdisk2           000018fa3b12f5cd                     None";
        "hdisk3           000018fa3b12f5ce                     None"].

Definition lspv_free_three : string :=
  text ["NAME            PVID                                SIZE(megabytes)";
        "hdisk1          none                                100";
        "hdisk2          none                                150";
        "hdisk3          none                                200"].

Definition rootvg_of (total used : Z) : vg_info :=
  {| status := 0; copy_dict := [(1, "hdisk0")]; rootvg_size := total;
     used_size := used |}.

Definition three_disks : AnsibleModule := scripted [ok lspv_plain; ok lspv_free_three].

Definition lsvg_M_mirrored : string :=
  text ["rootvg";
        "hdisk4:1        hd5:1:1";
        "hdisk4:2        hd6:1:1";
        "hdisk4:3-10";
        "hdisk8:1        hd5:1:2";
        "hdisk8:2        hd6:1:2"].

Definition lsvg_p_mirrored : string :=
  text ["rootvg:";
        "PV_NAME           PV STATE          TOTAL PPs   FREE PPs    FREE DISTRIBUTION";
        "hdisk4            active            639         254         126..00..00..00..128";
        "hdisk8            active            700         254         126..00..00..00..128"].

Definition lsvg_summary : string :=
  text ["VOLUME GROUP:       rootvg                   VG IDENTIFIER:  00f6";
        "VG STATE:           active                   PP SIZE:        512 megabyte(s)";
        "VG PERMISSION:      read/write               TOTAL PPs:      1278 (654336 megabytes)"].

Definition lsvg_M_single : string :=
  text ["rootvg";
        "hdisk0:1        hd5:1";
        "hdisk0:2        hd6:1";
        "hdisk0:3        hd6:2";
        "hdisk0:4-100"].

Definition lspv_free_big : string :=
  text ["NAME            PVID                                SIZE(megabytes)";
        "hdisk9          none                                572325"].

Definition unmirrored_response : response :=
  (0, EmptyString, "rootvg successfully unmirrored, user should perform bosboot").

(** A host with a mirrored rootvg: the inspection, the two listings and
    [unmirrorvg] succeed; [rc] is the exit code it has for a copy and [rm]
    its answer to a command after that. *)
Definition mirrored_host (rc : Z) (rm : response) : AnsibleModule :=
  scripted [ok lsvg_M_mirrored; ok lsvg_p_mirrored; ok lsvg_summary;
            ok lspv_plain; ok lspv_free_big; unmirrored_response;
            (rc, "copy out", "copy err"); rm].

Definition lspv_altinst : string :=
  text ["NAME             PVID                                 VG               STATUS";
        "hdisk0           000018fa3b12f5cb                     rootvg           active";
        "hdisk1           000018fa3b12f5cc                     altinst_rootvg";
        "hdisk2           000018fa3b12f5cd                     altinst_rootvg"].

(** The rootvg fills its disk: 8 partitions of 10 MB, all of them used. *)
Definition lsvg_M_full : string :=
  text ["rootvg";
        "hdisk0:1        hd5:1";
        "hdisk0:2        hd6:1";
        "hdisk0:3        hd6:2";
        "hdisk0:4        hd8:1";
        "hdisk0:5        hd4:1";
        "hdisk0:6        hd2:1";
        "hdisk0:7        hd2:2";
        "hdisk0:8        hd3:1"].

Definition lsvg_summary_full : string :=
  text ["VG STATE:           active                   PP SIZE:        10 megabyte(s)";
        "VG PERMISSION:      read/write               TOTAL PPs:      8 (80 megabytes)"].

Definition lspv_free_80 : string :=
  text ["NAME            PVID                                SIZE(megabytes)";
        "hdisk1          none                                80"].

Definition full_rootvg_host : AnsibleModule :=
  scripted [ok lsvg_M_full; ok lsvg_summary_full; ok lspv_plain; ok lspv_free_80].

(** The mirror map opens with the word stale. *)
Definition lsvg_M_stale_first : string :=
  text ["stale partitions follow";
        "hdisk4:1        hd5:1:1";
        "hdisk8:1        hd5:1:2     stale"].

(** The summary has no TOTAL PPs field. *)
Definition lsvg_summary_no_total : string :=
  text ["VOLUME GROUP:       rootvg                   VG IDENTIFIER:  00f6";
        "VG STATE:           active                   PP SIZE:        512 megabyte(s)"].

(** A single copy, numbered 5. *)
Definition lsvg_M_five : string :=
  text ["rootvg";
        "hdisk4:1        hd5:1:5"].

(** The per-disk listing has no row for hdisk4. *)
Definition lsvg_p_other : string :=
  text ["rootvg:";
        "PV_NAME           PV STATE          TOTAL PPs   FREE PPs    FREE DISTRIBUTION";
        "hdisk8            active            700         254         126..00..00..00..128"].

(** ** Vocabulary of the properties *)

(** The variables of the mapping loop as [check_rootvg] initialises them. *)
Definition init_acc : map_acc :=
  {| nb_lp := 0; hdisk_dict := []; copy_dict_acc := [] |}.

(** The disk and copy number of every line of the mirror map that one of
    the two patterns accepts, in order. *)
Fixpoint entries_of (lines : list string) : list (string * Z) :=
  match lines with
  | [] => []
  | line :: rest =>
      match parse_map_line (Py.rstrip line) with
      | inr (Some e) => e :: entries_of rest
      | _ => entries_of rest
      end
  end.

Definition map_entries (out : string) : list (string * Z) :=
  entries_of (Py.split Py.newline out).

(** The number of logical partitions of copy 1. *)
Definition copy1_count (es : list (string * Z)) : Z :=
  Z.of_nat (List.length (filter (fun e => snd e =? 1) es)).

(** The distinct copy numbers observed. *)
Definition copy_numbers (es : list (string * Z)) : list Z :=
  nodup Z.eq_dec (map snd es).

(** [map_loop] on the accepted lines only. *)
Fixpoint entries_loop (es : list (string * Z)) (acc : map_acc) : string + map_acc :=
  match es with
  | [] => inr acc
  | (hdisk, copy) :: rest =>
      match map_entry acc hdisk copy with
      | inl m => inl m
      | inr acc' => entries_loop rest acc'
      end
  end.

(** The rows of [lsvg -p rootvg]: disk name and TOTAL PPs. *)
Fixpoint pv_rows (lines : list string) : list (string * Z) :=
  match lines with
  | [] => []
  | line :: rest =>
      match Re.re_match Re.lsvg_p_line (Py.rstrip line) with
      | Some m =>
          match Py.int (Re.group m 2) with
          | Some n => (Re.group m 1, n) :: pv_rows rest
          | None => pv_rows rest
          end
      | None => pv_rows rest
      end
  end.

(** TOTAL PPs of the first row of [lsvg -p rootvg] that names [disk]. *)
Definition pv_total_pps (out : string) (disk : string) : option Z :=
  Dict.get String.eqb (pv_rows (Py.split Py.newline out)) disk.

(** The disk and copy number pairs read from the answer to [lsvg -M rootvg]
    in state [st]. *)
Definition seen (module : AnsibleModule) (st : state) (d : string) (c : Z) : Prop :=
  In (d, c)
     (map_entries (snd (fst (host module (map fst (calls st) ++ [cmd_lsvg_M]))))).

(** Copy numbers that are exactly 1, 2, ..., n. *)
Definition contiguous_from_1 (keys : list Z) : Prop :=
  forall k, In k keys <-> 1 <= k <= Z.of_nat (List.length keys).

(** The sum of the capacities of the named disks, [None] when one of them
    is not in the free inventory. *)
Fixpoint total_capacity (pvs : list (string * free_pv)) (hdisks : list string)
  : option Z :=
  match hdisks with
  | [] => Some 0
  | hdisk :: rest =>
      match Dict.get String.eqb pvs hdisk, total_capacity pvs rest with
      | Some info, Some t => Some (size info + t)
      | _, _ => None
      end
  end.

Definition msg_no_candidate (rootvg_size : Z) : string :=
  "No available alternate disk with size greater than "
  ++ Py.str_of_int rootvg_size ++ " MB found".

Definition msg_too_small (tot_size rootvg_size : Z) : string :=
  "Alternate disks too small (" ++ Py.str_of_int tot_size ++ " < "
  ++ Py.str_of_int rootvg_size ++ ").".

Definition warning_smaller : level * string * list logarg :=
  (Log, "[WARNING] Alternate disks smaller than the current rootvg.", []).

(** The commands that run [mirrorvg]. *)
Definition is_mirror_cmd (c : command) : bool :=
  match c with
  | PStr s :: _ => String.eqb s "/usr/sbin/mirrorvg"
  | _ => false
  end.

Definition msg_copy_failed (hdisks : list string) (rc : Z) : string :=
  "Failed to copy " ++ Py.join " " hdisks ++ ": return code "
  ++ Py.str_of_int rc ++ ".".

Definition cmd_lspv : command := str ["/usr/ios/cli/ioscli"; "lspv"].

(** A command that exited with code 0. *)
Definition succeeded (r : response) : Prop := fst (fst r) = 0.

(** The value of a run of decimal digits, most significant first. *)
Fixpoint int_of_digits (s : string) (acc : Z) : Z :=
  match s with
  | EmptyString => acc
  | String a s' => int_of_digits s' (10 * acc + (Py.code a - 48))
  end.

(** ** What a match of a pattern means

    [matches r i c rest t]: at position [i] the pattern [r] consumes [c],
    leaves [rest] and closes the groups [t]. *)

Fixpoint all_chars (p : ascii -> bool) (s : string) : bool :=
  match s with
  | EmptyString => true
  | String a s' => p a && all_chars p s'
  end.

Fixpoint matches (r : Re.re) (i : nat) (c rest : string) (t : list string) : Prop :=
  match r with
  | Re.Lit l => c = l /\ t = []
  | Re.Star cl => all_chars (Re.mem cl) c = true /\ t = []
  | Re.Plus cl => c <> EmptyString /\ all_chars (Re.mem cl) c = true /\ t = []
  | Re.Bol => i = 0%nat /\ c = EmptyString /\ t = []
  | Re.Eol =>
      c = EmptyString /\ t = [] /\
      (rest = EmptyString \/ rest = String Py.newline EmptyString)
  | Re.Cat a b =>
      exists c1 c2 t1 t2,
        c = c1 ++ c2 /\ t = (t1 ++ t2)%list /\
        matches a i c1 (c2 ++ rest) t1 /\
        matches b (i + String.length c1) c2 rest t2
  | Re.Grp a => exists t', t = (t' ++ [c])%list /\ matches a i c rest t'
  end.

(** A non-empty run of decimal digits. *)
Definition digits (s : string) : Prop :=
  s <> EmptyString /\ all_chars Py.isdigit s = true.

(** A disk name as the listings give it: hdisk followed by at least one
    character, none of them white space. *)
Definition hdisk_name (k : string) : Prop :=
  exists x, k = "hdisk" ++ x /\ x <> EmptyString /\
            all_chars (Re.mem Re.NonSpace) x = true.

Definition cmd_lspv_free : command := str ["/usr/ios/cli/ioscli"; "lspv"; "-free"].

(** The capacity of an entry of the free inventory, and the order of the
    sort. *)
Definition sz (e : string * free_pv) : Z := size (snd e).

Definition le_size (a b : string * free_pv) : Prop := sz a <= sz b.

(** A disk that can hold the used size. *)
Definition sufficient (used : Z) (e : string * free_pv) : Prop := used <= sz e.

(** The name that lines 282-289 settle on after the scan. *)
Definition settled (r : string * string) : string :=
  if String.eqb (fst r) EmptyString then snd r else fst r.

Definition three_free : list (string * free_pv) :=
  [("hdisk1", {| free_pvid := "none"; size := 100 |});
   ("hdisk2", {| free_pvid := "none"; size := 150 |});
   ("hdisk3", {| free_pvid := "none"; size := 200 |})].

Definition msg_unknown_disk (hdisk : string) : string :=
  "Alternate disk " ++ hdisk ++ " is either not found or not available".

Definition msg_altdisk_exists (disk : string) : string :=
  "An alternate disk already exists on disk " ++ disk.

Definition msg_mirrored_no_force : string :=
  "The rootvg is mirrored and force option is not set".

(** The unmirror answered with exit code 0 and the success marker. *)
Definition unmirror_ok (r : response) : Prop :=
  fst (fst r) = 0 /\ Py.find (snd r) "rootvg successfully unmirrored" <> -1.

(** A computation that never ends by [exit_json]. *)
Definition no_exit {A : Type} (m : M A) : Prop :=
  forall st st', m st <> (ExitJson, st').

Definition msg_success : string := "VIOS alt disk operation completed successfully".

(** The vocabulary of the cleanup. *)
Definition in_altinst (pvs : list (string * pv)) (d : string) : Prop :=
  exists p, Dict.get String.eqb pvs d = Some p /\ vg p = "altinst_rootvg".

Definition unnamed (hdisks : option (list string)) : Prop :=
  hdisks = None \/ hdisks = Some [].

Definition msg_not_altinst (hdisk : string) : string :=
  "Specified disk " ++ hdisk ++ " is not an alternate install rootvg".

Definition msg_no_altinst : string := "There is no alternate install rootvg".

Definition chpv_words (disk : string) : list string :=
  ["/usr/sbin/chpv"; "-C"; disk].

Definition remove_words : list string :=
  ["/usr/sbin/alt_rootvg_op"; "-X"; "altinst_rootvg"].

(** The message of a failed command. *)
Definition msg_command_failed (cmd : list string) (rc : Z) : string :=
  "Command '" ++ Py.join " " cmd ++ "' failed with return code "
  ++ Py.str_of_int rc ++ ".".

(** The commands of the inspection. *)
Definition inspection_cmd (c : command) : Prop :=
  c = cmd_lsvg_M \/ c = cmd_lsvg_p \/ c = cmd_lsvg.

(** The commands of the two listings. *)
Definition listing_cmd (c : command) : Prop := c = cmd_lspv \/ c = cmd_lspv_free.

(** ** The monad *)

Lemma bind_ret {A B : Type} (m : M A) (k : A -> M B) st a st1 :
  m st = (Ret a, st1) -> bind m k st = k a st1.
Proof. intros H. unfold bind. now rewrite H. Qed.

Lemma bind_ret_inv {A B : Type} (m : M A) (k : A -> M B) st b st' :
  bind m k st = (Ret b, st') ->
  exists a st1, m st = (Ret a, st1) /\ k a st1 = (Ret b, st').
Proof.
  unfold bind. destruct (m st) as [[a | | | e] st1]; intros H; try discriminate.
  now exists a, st1.
Qed.

(** ** Inspection *)

Lemma command_failed_str (l : list string) (r : response) st :
  exists st', command_failed (str l) r st = (Ret tt, st') /\ calls st' = calls st.
Proof.
  destruct r as [[rc out] err]. unfold command_failed, join_cmd.
  assert (H : strings_of (str l) = Some l).
  { induction l as [|x l IH]; simpl; [reflexivity | now rewrite IH]. }
  rewrite H. eexists. split; reflexivity.
Qed.

Lemma strings_of_str (l : list string) : strings_of (str l) = Some l.
Proof. induction l as [|x l IH]; simpl; [reflexivity | now rewrite IH]. Qed.

(** A command made of strings passes the argument check of
    [run_command]. *)
Ltac strings_ok :=
  match goal with
  | |- context [strings_of ?c] =>
      let E := fresh "E" in
      let l := fresh "l" in
      assert (E : exists l, strings_of c = Some l)
        by (eexists; apply strings_of_str);
      destruct E as [l E]; rewrite E; clear E; cbv iota; clear l
  end.

Ltac strings_ok_in H :=
  match type of H with
  | context [strings_of ?c] =>
      let E := fresh "E" in
      let l := fresh "l" in
      assert (E : exists l, strings_of c = Some l)
        by (eexists; apply strings_of_str);
      destruct E as [l E]; rewrite E in H; clear E; cbv iota in H; clear l
  end.

Lemma run_command_inv module cmd st r st1 :
  run_command module cmd st = (Ret r, st1) ->
  r = host module (map fst (calls st) ++ [cmd]) /\
  results st1 = results st /\
  calls st1 = (calls st ++ [(cmd, r)])%list /\
  journal st1 = journal st.
Proof.
  unfold run_command. intros H. destruct (strings_of cmd); [|discriminate H].
  injection H as Hr Hst. subst r st1. repeat split.
Qed.

Ltac fails_in H :=
  repeat (apply bind_ret_inv in H; destruct H as (? & ? & _ & H)); discriminate H.

Lemma check_rootvg_ok module st info st' :
  check_rootvg module st = (Ret (Some info), st') ->
  exists outM errM acc outS errS total pp,
    host module (map fst (calls st) ++ [cmd_lsvg_M]) = (0, outM, errM) /\
    map_loop (Py.split Py.newline outM) init_acc = inr (inr acc) /\
    copy_dict info = copy_dict_acc acc /\
    status info = 0 /\
    summary_loop outS = inr (total, pp) /\
    pp <> -1 /\
    used_size info = pp * (nb_lp acc + 1) /\
    ((Dict.len (copy_dict_acc acc) > 1 /\
      Dict.len (copy_dict_acc acc) = Dict.len (hdisk_dict acc) /\
      exists outP errP pv_size,
        calls st' = calls st ++ [(cmd_lsvg_M, (0, outM, errM));
                                 (cmd_lsvg_p, (0, outP, errP));
                                 (cmd_lsvg, (0, outS, errS))] /\
        pv_size_loop (Py.split Py.newline outP)
          (Dict.get Z.eqb (copy_dict_acc acc) 1) (-1) = inr pv_size /\
        pv_size <> -1 /\
        rootvg_size info = pp * pv_size)
     \/
     (Dict.len (copy_dict_acc acc) <= 1 /\
      calls st' = calls st ++ [(cmd_lsvg_M, (0, outM, errM));
                               (cmd_lsvg, (0, outS, errS))] /\
      rootvg_size info = total))%list.
Proof.
  unfold check_rootvg. intros H.
  apply bind_ret_inv in H. destruct H as (r & st1 & Hrun & H).
  apply run_command_inv in Hrun. destruct Hrun as (Hr & _ & Hc1 & _).
  destruct r as [[rc outM] errM]. symmetry in Hr.
  destruct (Z.eqb_spec rc 0) as [-> | Hrc]; cbn [negb] in H; [|fails_in H].
  destruct (Py.find outM "stale" >? 0); [fails_in H|].
  fold init_acc in H.
  destruct (map_loop (Py.split Py.newline outM) init_acc) as [e | [m | acc]] eqn:Hloop;
    [discriminate H | fails_in H |].
  apply bind_ret_inv in H. destruct H as (pvo & st2 & Hpv & H).
  destruct pvo as [pv_size|]; [|discriminate H].
  apply bind_ret_inv in H. destruct H as (rS & st3 & HrunS & H).
  apply run_command_inv in HrunS. destruct HrunS as (_ & _ & Hc3 & _).
  destruct rS as [[rcS outS] errS]. cbn [fst snd] in H.
  destruct (Z.eqb_spec rcS 0) as [-> | HrcS]; cbn [negb] in H; [|fails_in H].
  destruct (summary_loop outS) as [e | [total_size pp_size]] eqn:Hsum;
    [discriminate H|].
  destruct (Z.eqb_spec pp_size (-1)) as [-> | Hpp]; [fails_in H|].
  unfold ret in H. injection H as Hinfo Hst'. subst info st'.
  exists outM, errM, acc, outS, errS, total_size, pp_size.
  cbn [fst snd copy_dict status used_size rootvg_size].
  repeat (split; [solve [auto] |]).
  destruct (Z.gtb_spec (Dict.len (copy_dict_acc acc)) 1) as [Hm | Hm].
  - left. split; [lia|].
    destruct (Z.eqb_spec (Dict.len (copy_dict_acc acc)) (Dict.len (hdisk_dict acc)))
      as [Hlen | Hlen]; cbn [negb] in Hpv; [|fails_in Hpv].
    split; [exact Hlen|].
    apply bind_ret_inv in Hpv. destruct Hpv as (rP & st4 & HrunP & Hpv).
    apply run_command_inv in HrunP. destruct HrunP as (_ & _ & Hc4 & _).
    destruct rP as [[rcP outP] errP]. cbn [fst snd] in Hpv.
    destruct (Z.eqb_spec rcP 0) as [-> | HrcP]; cbn [negb] in Hpv; [|fails_in Hpv].
    destruct (pv_size_loop (Py.split Py.newline outP)
                (Dict.get Z.eqb (copy_dict_acc acc) 1) (-1)) as [e | pvs] eqn:Hpl;
      [discriminate Hpv|].
    destruct (Z.eqb_spec pvs (-1)) as [-> | Hne]; [fails_in Hpv|].
    unfold ret in Hpv. injection Hpv as Hpvs Hst2. subst pvs st2.
    exists outP, errP, pv_size. repeat split; auto.
    rewrite Hc3, Hc4, Hc1. now rewrite <- !app_assoc.
  - right. split; [lia|].
    unfold ret in Hpv. injection Hpv as Hpvs Hst2. subst pv_size st2.
    split; [|reflexivity].
    rewrite Hc3, Hc1. now rewrite <- !app_assoc.
Qed.

(** ** Dictionaries *)

Section DictFacts.
Context {K V : Type} (eqb : K -> K -> bool).
Hypothesis eqb_eq : forall a b, eqb a b = true <-> a = b.

Lemma eqb_refl_true (a : K) : eqb a a = true.
Proof. now apply eqb_eq. Qed.

Lemma eqb_neq_false (a b : K) : a <> b -> eqb a b = false.
Proof.
  intros H. destruct (eqb a b) eqn:E; [|reflexivity].
  apply eqb_eq in E. contradiction.
Qed.

Lemma get_set_same (d : list (K * V)) k v : Dict.get eqb (Dict.set eqb d k v) k = Some v.
Proof.
  induction d as [|[k' v'] d IH]; simpl.
  - now rewrite eqb_refl_true.
  - destruct (eqb k' k) eqn:E; simpl.
    + now rewrite eqb_refl_true.
    + now rewrite E.
Qed.

Lemma get_set_other (d : list (K * V)) k v k' :
  k <> k' -> Dict.get eqb (Dict.set eqb d k v) k' = Dict.get eqb d k'.
Proof.
  intros Hne. induction d as [|[k0 v0] d IH]; simpl.
  - now rewrite eqb_neq_false.
  - destruct (eqb k0 k) eqn:E; simpl.
    + apply eqb_eq in E. subst k0. now rewrite !(eqb_neq_false k k').
    + now rewrite IH.
Qed.

Lemma get_none_keys (d : list (K * V)) k :
  Dict.get eqb d k = None <-> ~ In k (Dict.keys d).
Proof.
  induction d as [|[k0 v0] d IH]; simpl.
  - tauto.
  - destruct (eqb k0 k) eqn:E.
    + apply eqb_eq in E. subst. split; [discriminate | tauto].
    + rewrite IH. split.
      * intros H [H1 | H1]; [|tauto]. subst.
        rewrite eqb_refl_true in E. discriminate.
      * tauto.
Qed.

Lemma mem_keys (d : list (K * V)) k :
  Dict.mem eqb d k = true <-> In k (Dict.keys d).
Proof.
  unfold Dict.mem. induction d as [|[k0 v0] d IH]; simpl.
  - split; [discriminate | tauto].
  - destruct (eqb k0 k) eqn:E.
    + apply eqb_eq in E. subst. split; auto.
    + rewrite IH. split; [tauto|].
      intros [H | H]; [|exact H].
      subst. rewrite eqb_refl_true in E. discriminate.
Qed.

Lemma set_fresh (d : list (K * V)) k v :
  Dict.get eqb d k = None -> Dict.set eqb d k v = (d ++ [(k, v)])%list.
Proof.
  induction d as [|[k0 v0] d IH]; simpl; [reflexivity|].
  destruct (eqb k0 k); [discriminate|]. intros H. now rewrite IH.
Qed.

End DictFacts.

Lemma existsb_eqb_false (x : string) (l : list string) :
  existsb (String.eqb x) l = false -> ~ In x l.
Proof.
  intros H Hin.
  assert (E : existsb (String.eqb x) l = true).
  { apply existsb_exists. exists x. split; [exact Hin | apply String.eqb_refl]. }
  congruence.
Qed.

(** ** The mapping loop *)

Lemma parse_map_line_raises line e :
  parse_map_line line = inl e -> e = ValueError.
Proof.
  unfold parse_map_line.
  destruct (Re.re_match Re.mirror_line line) as [m|].
  - destruct (Py.int (Re.group m 2)); [discriminate | now intros [= <-]].
  - destruct (Re.re_match Re.single_line line); discriminate.
Qed.

Lemma map_loop_raises lines :
  forall acc e, map_loop lines acc = inl e -> e = ValueError.
Proof.
  induction lines as [|line rest IH]; intros acc e H; simpl in H; [discriminate H|].
  destruct (parse_map_line (Py.rstrip line)) as [e0 | [[d c]|]] eqn:E.
  - injection H as <-. now apply parse_map_line_raises in E.
  - destruct (map_entry acc d c); [discriminate H | now apply IH in H].
  - now apply IH in H.
Qed.

(** When no conversion raises, the loop is the loop over the entries. *)
Lemma map_loop_entries lines :
  forall acc r, map_loop lines acc = inr r ->
                entries_loop (entries_of lines) acc = r.
Proof.
  induction lines as [|line rest IH]; intros acc r H; simpl in *.
  - now injection H as <-.
  - destruct (parse_map_line (Py.rstrip line)) as [e | [[d c]|]];
      [discriminate H | | now apply IH].
    simpl. destruct (map_entry acc d c); [now injection H as <- | now apply IH].
Qed.

Lemma string_eqb_eq (a b : string) : String.eqb a b = true <-> a = b.
Proof. apply String.eqb_eq. Qed.

Lemma map_entry_ok acc d c acc' :
  map_entry acc d c = inr acc' ->
  nb_lp acc' = nb_lp acc + (if c =? 1 then 1 else 0) /\
  Dict.get String.eqb (hdisk_dict acc') d = Some c /\
  (forall d' c', Dict.get String.eqb (hdisk_dict acc) d' = Some c' ->
                 Dict.get String.eqb (hdisk_dict acc') d' = Some c') /\
  (forall c', In c' (Dict.keys (copy_dict_acc acc')) <->
              In c' (Dict.keys (copy_dict_acc acc)) \/ c' = c) /\
  (NoDup (Dict.keys (copy_dict_acc acc)) -> NoDup (Dict.keys (copy_dict_acc acc'))) /\
  (NoDup (Dict.values (copy_dict_acc acc)) -> NoDup (Dict.values (copy_dict_acc acc'))).
Proof.
  unfold map_entry. intros H.
  assert (Hhd : exists hd,
    (match Dict.get String.eqb (hdisk_dict acc) d with
     | Some c0 => if negb (c0 =? c) then inl msg_two_copies else inr (hdisk_dict acc)
     | None => inr (Dict.set String.eqb (hdisk_dict acc) d c)
     end) = inr hd /\
    Dict.get String.eqb hd d = Some c /\
    (forall d' c', Dict.get String.eqb (hdisk_dict acc) d' = Some c' ->
                   Dict.get String.eqb hd d' = Some c')).
  { destruct (Dict.get String.eqb (hdisk_dict acc) d) as [c0|] eqn:E.
    - destruct (Z.eqb_spec c0 c) as [-> | Hne]; cbn [negb] in *; [|discriminate H].
      exists (hdisk_dict acc). auto.
    - exists (Dict.set String.eqb (hdisk_dict acc) d c). split; [reflexivity|]. split.
      + apply (get_set_same _ string_eqb_eq).
      + intros d' c' Hg. destruct (String.eqb_spec d d') as [-> | Hne]; [congruence|].
        now rewrite (get_set_other _ string_eqb_eq). }
  destruct Hhd as (hd & Ehd & Hd & Hmono). rewrite Ehd in H.
  destruct (Dict.mem Z.eqb (copy_dict_acc acc) c) eqn:Em; cbn [negb] in H.
  - injection H as <-. cbn [nb_lp hdisk_dict copy_dict_acc].
    apply (mem_keys _ Z.eqb_eq) in Em.
    repeat split; auto; try (destruct (c =? 1); lia); intros; intuition (subst; auto).
  - destruct (existsb (String.eqb d) (Dict.values (copy_dict_acc acc))) eqn:Ex;
      [discriminate H|].
    injection H as <-. cbn [nb_lp hdisk_dict copy_dict_acc].
    assert (Eg : Dict.get Z.eqb (copy_dict_acc acc) c = None).
    { unfold Dict.mem in Em. destruct (Dict.get Z.eqb (copy_dict_acc acc) c);
        [discriminate | reflexivity]. }
    rewrite (set_fresh _ _ _ _ Eg).
    unfold Dict.keys, Dict.values. rewrite !map_app. cbn [map fst snd].
    apply (get_none_keys _ Z.eqb_eq) in Eg. apply existsb_eqb_false in Ex.
    repeat split; auto; try (destruct (c =? 1); lia).
    + rewrite in_app_iff. simpl. intuition.
    + rewrite in_app_iff. simpl. intuition.
    + intros Hnd. apply NoDup_app; [exact Hnd | repeat constructor; simpl; tauto |].
      intros a Ha [<- | []]. now apply Eg.
    + intros Hnd. apply NoDup_app; [exact Hnd | repeat constructor; simpl; tauto |].
      intros a Ha [<- | []]. now apply Ex.
Qed.

Lemma entries_loop_ok es :
  forall acc acc',
  entries_loop es acc = inr acc' ->
  nb_lp acc' = nb_lp acc + copy1_count es /\
  (forall d c, Dict.get String.eqb (hdisk_dict acc) d = Some c ->
               Dict.get String.eqb (hdisk_dict acc') d = Some c) /\
  (forall d c, In (d, c) es -> Dict.get String.eqb (hdisk_dict acc') d = Some c) /\
  (forall c, In c (Dict.keys (copy_dict_acc acc')) <->
             In c (Dict.keys (copy_dict_acc acc)) \/ In c (map snd es)) /\
  (NoDup (Dict.keys (copy_dict_acc acc)) -> NoDup (Dict.keys (copy_dict_acc acc'))) /\
  (NoDup (Dict.values (copy_dict_acc acc)) -> NoDup (Dict.values (copy_dict_acc acc'))).
Proof.
  induction es as [|[d c] es IH]; intros acc acc' H; simpl in H.
  - injection H as <-. unfold copy1_count. simpl.
    repeat split; auto; try lia; try tauto.
  - destruct (map_entry acc d c) as [m | acc1] eqn:E; [discriminate H|].
    apply map_entry_ok in E. destruct E as (E1 & E2 & E3 & E4 & E5 & E6).
    apply IH in H. destruct H as (H1 & H2 & H3 & H4 & H5 & H6).
    split; [|split; [|split; [|split; [|split]]]].
    + rewrite H1, E1. unfold copy1_count. cbn [filter snd].
      destruct (c =? 1); cbn [List.length]; lia.
    + auto.
    + intros d' c' [Heq | Hin]; [|auto]. injection Heq as <- <-. auto.
    + intros c'. rewrite H4, E4. cbn [map snd In]. intuition.
    + auto.
    + auto.
Qed.

Lemma copy_numbers_length (d : list (Z * string)) (es : list (string * Z)) :
  NoDup (Dict.keys d) ->
  (forall c, In c (Dict.keys d) <-> In c (map snd es)) ->
  Dict.len d = Z.of_nat (List.length (copy_numbers es)).
Proof.
  intros Hnd Hin. unfold Dict.len, copy_numbers. f_equal.
  rewrite <- (length_map fst d). fold (Dict.keys d).
  apply Permutation_length.
  apply NoDup_Permutation; [exact Hnd | apply NoDup_nodup |].
  intros c. rewrite nodup_In. apply Hin.
Qed.

(** ** The per-disk listing *)

Lemma pv_size_loop_none lines :
  forall pv_size v, pv_size_loop lines None pv_size = inr v -> v = pv_size.
Proof.
  induction lines as [|line rest IH]; simpl; intros pv_size v H.
  - now injection H as <-.
  - destruct (Re.re_match Re.lsvg_p_line (Py.rstrip line)) as [m|];
      [|now apply IH].
    destruct (Py.int (Re.group m 2)); discriminate H.
Qed.

(** A loop that ends normally on a listing with a row for the disk has
    read that row. *)
Lemma pv_size_loop_found lines disk n :
  Dict.get String.eqb (pv_rows lines) disk = Some n ->
  forall pv_size v, pv_size_loop lines (Some disk) pv_size = inr v -> v = n.
Proof.
  induction lines as [|line rest IH]; simpl; [discriminate|].
  destruct (Re.re_match Re.lsvg_p_line (Py.rstrip line)) as [m|]; [|exact IH].
  destruct (Py.int (Re.group m 2)) as [k|]; [|discriminate].
  simpl. destruct (String.eqb (Re.group m 1) disk).
  - intros H pv_size v Hv. congruence.
  - intros H pv_size v Hv. now apply (IH H k).
Qed.

Lemma pv_size_loop_raises lines copy1 :
  forall pv_size e, pv_size_loop lines copy1 pv_size = inl e ->
                    e = ValueError \/ e = KeyError.
Proof.
  induction lines as [|line rest IH]; simpl; intros pv_size e H; [discriminate H|].
  destruct (Re.re_match Re.lsvg_p_line (Py.rstrip line)) as [m|];
    [|now apply IH in H].
  destruct (Py.int (Re.group m 2)) as [k|]; [|injection H as <-; now left].
  destruct copy1 as [disk|]; [|injection H as <-; now right].
  destruct (String.eqb (Re.group m 1) disk); [discriminate H | now apply IH in H].
Qed.

Lemma summary_loop_raises out e : summary_loop out = inl e -> e = ValueError.
Proof.
  unfold summary_loop. generalize (-1, -1).
  induction (Py.split Py.newline out) as [|line rest IH]; intros acc H; simpl in H;
    [discriminate H|].
  destruct (summary_line acc line) as [e0 | acc'] eqn:E; [|now apply IH in H].
  injection H as <-. unfold summary_line in E.
  destruct (Re.re_match Re.total_pps_line (Py.rstrip line)) as [m|].
  - destruct (Py.int (Re.group m 1)); [discriminate E | now injection E as <-].
  - destruct (Re.re_match Re.pp_size_line (Py.rstrip line)) as [m|];
      [|discriminate E].
    destruct (Py.int (Re.group m 1)); [discriminate E | now injection E as <-].
Qed.

(** ** Properties of the inspection *)

Lemma init_acc_loop module st info st' :
  check_rootvg module st = (Ret (Some info), st') ->
  exists acc,
    entries_loop
      (map_entries (snd (fst (host module (map fst (calls st) ++ [cmd_lsvg_M])))))
      init_acc = inr acc /\
    copy_dict info = copy_dict_acc acc.
Proof.
  intros H. apply check_rootvg_ok in H.
  destruct H as (outM & errM & acc & outS & errS & total & pp & Hh & Hloop & Hcd & _).
  exists acc. rewrite Hh. cbn [fst snd]. unfold map_entries.
  split; [now apply map_loop_entries | exact Hcd].
Qed.

(** C5 (as amended): in a copy_dict returned with OK status no copy number
    and no disk occurs twice, and an inspection that returns OK has seen
    no disk with two different copy numbers. *)
Theorem copy_dict_invariant module st info st' :
  check_rootvg module st = (Ret (Some info), st') ->
  NoDup (Dict.keys (copy_dict info)) /\
  NoDup (Dict.values (copy_dict info)) /\
  (forall d c1 c2, seen module st d c1 -> seen module st d c2 -> c1 = c2).
Proof.
  intros H. apply init_acc_loop in H. destruct H as (acc & Hloop & ->).
  apply entries_loop_ok in Hloop.
  destruct Hloop as (_ & _ & Hseen & _ & Hk & Hv).
  split; [apply Hk; constructor|]. split; [apply Hv; constructor|].
  intros d c1 c2 H1 H2. apply Hseen in H1, H2. congruence.
Qed.

Lemma copy_dict_invariant_witness :
  exists info st',
    check_rootvg (mirrored_host 0 (ok EmptyString)) initial_state
    = (Ret (Some info), st') /\
    NoDup (Dict.keys (copy_dict info)) /\
    NoDup (Dict.values (copy_dict info)) /\
    (forall d c1 c2,
        seen (mirrored_host 0 (ok EmptyString)) initial_state d c1 ->
        seen (mirrored_host 0 (ok EmptyString)) initial_state d c2 -> c1 = c2).
Proof.
  eexists. eexists. split; [vm_compute; reflexivity|].
  eapply copy_dict_invariant. vm_compute. reflexivity.
Defined.

(** The inspection does not go past the mapping loop once a disk is seen
    with two different copy numbers: it returns [None], unless a copy
    number could not be converted. *)
Lemma check_rootvg_conflict module st d c1 c2 :
  seen module st d c1 -> seen module st d c2 -> c1 <> c2 ->
  fst (check_rootvg module st) = Ret None \/
  fst (check_rootvg module st) = Raise ValueError.
Proof.
  unfold seen. intros H1 H2 Hne.
  destruct (check_rootvg module st) as [o s'] eqn:E0. cbn [fst].
  unfold check_rootvg in E0. unfold bind at 1, run_command at 1 in E0.
  strings_ok_in E0.
  destruct (host module (map fst (calls st) ++ [cmd_lsvg_M])) as [[rc outM] errM].
  cbn [fst snd] in H1, H2, E0.
  destruct (negb (rc =? 0)).
  { left.
    match type of E0 with
    | bind (command_failed _ ?r) _ ?s = _ =>
        destruct (command_failed_str ["/usr/sbin/lsvg"; "-M"; "rootvg"] r s)
          as (st1 & E & _)
    end.
    unfold cmd_lsvg_M in E0. rewrite (bind_ret _ _ _ _ _ E) in E0.
    now injection E0 as <- _. }
  destruct (Py.find outM "stale" >? 0).
  { left. cbv [bind ret set_stdout set_stderr set_msg set_results] in E0.
    now injection E0 as <- _. }
  fold init_acc in E0.
  destruct (map_loop (Py.split Py.newline outM) init_acc) as [e | r] eqn:E.
  { right. apply map_loop_raises in E. subst e. now injection E0 as <- _. }
  apply map_loop_entries in E. fold (map_entries outM) in E.
  destruct r as [m | acc].
  { left. cbv [bind ret set_msg set_results] in E0. now injection E0 as <- _. }
  apply entries_loop_ok in E. destruct E as (_ & _ & Hseen & _).
  apply Hseen in H1, H2. congruence.
Qed.

(** C5, as the specification words it, does not hold: a rootvg whose only
    copy is numbered 5 is returned with OK status. *)
Lemma copy_numbers_not_contiguous :
  exists info st',
    check_rootvg (scripted [ok lsvg_M_five; ok lsvg_summary]) initial_state
    = (Ret (Some info), st') /\
    ~ contiguous_from_1 (Dict.keys (copy_dict info)).
Proof.
  eexists. eexists. split; [vm_compute; reflexivity|].
  intros H. specialize (H 5). simpl in H.
  assert (1 <= 5 <= 1) by (apply H; now left). lia.
Qed.

(** For an inspection that returns OK, the used size is the partition
    size times the number of copy-1 logical partitions plus one; with more
    than one distinct copy number copy 1 has a disk and, where the
    per-disk listing has a row for that disk, the total size is the
    partition size times the TOTAL PPs of that row; with one copy number
    it is the total read from the summary. *)
Lemma inspection_sizes module st info st' :
  check_rootvg module st = (Ret (Some info), st') ->
  exists outM errM outS errS total pp,
    host module (map fst (calls st) ++ [cmd_lsvg_M]) = (0, outM, errM) /\
    summary_loop outS = inr (total, pp) /\
    used_size info = pp * (copy1_count (map_entries outM) + 1) /\
    (((1 < List.length (copy_numbers (map_entries outM)))%nat /\
      exists outP errP disk,
        calls st' = (calls st ++ [(cmd_lsvg_M, (0, outM, errM));
                                  (cmd_lsvg_p, (0, outP, errP));
                                  (cmd_lsvg, (0, outS, errS))])%list /\
        Dict.get Z.eqb (copy_dict info) 1 = Some disk /\
        forall n,
          pv_total_pps outP disk = Some n ->
          rootvg_size info = pp * n)
     \/
     ((List.length (copy_numbers (map_entries outM)) <= 1)%nat /\
      calls st' = (calls st ++ [(cmd_lsvg_M, (0, outM, errM));
                                (cmd_lsvg, (0, outS, errS))])%list /\
      rootvg_size info = total)).
Proof.
  intros H. apply check_rootvg_ok in H.
  destruct H as (outM & errM & acc & outS & errS & total & pp & Hh & Hloop & Hcd
                 & _ & Hsum & _ & Hused & Hcase).
  exists outM, errM, outS, errS, total, pp. split; [exact Hh|].
  split; [exact Hsum|].
  apply map_loop_entries in Hloop. fold (map_entries outM) in Hloop.
  apply entries_loop_ok in Hloop.
  destruct Hloop as (Hnb & _ & _ & Hkeys & Hk & _).
  cbn [nb_lp copy_dict_acc init_acc Dict.keys map] in Hnb, Hkeys, Hk.
  assert (Hlen : Dict.len (copy_dict_acc acc)
                 = Z.of_nat (List.length (copy_numbers (map_entries outM)))).
  { apply copy_numbers_length; [apply Hk; constructor|].
    intros c. rewrite Hkeys. simpl. tauto. }
  split; [rewrite Hused, Hnb; reflexivity|].
  destruct Hcase as [(Hm & _ & outP & errP & pv_size & Hc & Hpl & Hne & Hsz)
                    | (Hm & Hc & Hsz)].
  - left. split; [lia|]. rewrite Hcd.
    destruct (Dict.get Z.eqb (copy_dict_acc acc) 1) as [disk|] eqn:Hd.
    2:{ apply pv_size_loop_none in Hpl. congruence. }
    exists outP, errP, disk. split; [exact Hc|]. split; [reflexivity|].
    intros n Hn. unfold pv_total_pps in Hn.
    rewrite <- (pv_size_loop_found _ _ _ Hn _ _ Hpl). exact Hsz.
  - right. split; [lia|]. auto.
Qed.

(** C6: the total size of a mirrored rootvg is not always computed from
    copy 1's disk.  Copy 1 is on hdisk4; the per-disk listing has a row
    for hdisk8 only, with 700 partitions; the inspection returns OK with
    a total of 512 * 700, the count of the last row it read. *)
Theorem total_from_last_row :
  map_entries lsvg_M_mirrored
  = [("hdisk4", 1); ("hdisk4", 1); ("hdisk8", 2); ("hdisk8", 2)] /\
  pv_total_pps lsvg_p_other "hdisk4" = None /\
  pv_total_pps lsvg_p_other "hdisk8" = Some 700 /\
  fst (check_rootvg (scripted [ok lsvg_M_mirrored; ok lsvg_p_other; ok lsvg_summary])
         initial_state)
  = Ret (Some {| status := 0; copy_dict := [(1, "hdisk4"); (2, "hdisk8")];
                 rootvg_size := 512 * 700; used_size := 512 * 3 |}).
Proof. repeat split; vm_compute; reflexivity. Qed.

(** ** Defects of the inspection *)

(** C1: a mirror map that opens with the word stale, and lists a stale
    partition further down, passes the stale check and is returned with
    OK status. *)
Theorem stale_at_start_accepted :
  Py.find lsvg_M_stale_first "stale" = 0 /\
  fst (check_rootvg (scripted [ok lsvg_M_stale_first; ok lsvg_summary]) initial_state)
  = Ret (Some {| status := 0; copy_dict := [(1, "hdisk4")];
                 rootvg_size := 654336; used_size := 1024 |}).
Proof. split; vm_compute; reflexivity. Qed.

(** The stale marker anywhere after the first character is detected. *)
Lemma stale_inside_rejected module st out err :
  host module (map fst (calls st) ++ [cmd_lsvg_M]) = (0, out, err) ->
  Py.find out "stale" > 0 ->
  exists st',
    check_rootvg module st = (Ret None, st') /\
    msg (results st') = "rootvg contains stale partitions".
Proof.
  intros Hh Hf. unfold check_rootvg, bind at 1, run_command at 1.
  strings_ok. rewrite Hh.
  cbn [negb Z.eqb]. destruct (Z.gtb_spec (Py.find out "stale") 0) as [_ | Hle]; [|lia].
  eexists. split; reflexivity.
Qed.

(** C4: a summary without the TOTAL PPs field is accepted; the total size
    of the result is the initial value -1. *)
Theorem missing_total_accepted :
  summary_loop lsvg_summary_no_total = inr (-1, 512) /\
  fst (check_rootvg (scripted [ok lsvg_M_single; ok lsvg_summary_no_total]) initial_state)
  = Ret (Some {| status := 0; copy_dict := [(1, "hdisk0")];
                 rootvg_size := -1; used_size := 2048 |}).
Proof. split; vm_compute; reflexivity. Qed.

(** The partition size is required: an inspection that returns OK has read
    it from the summary. *)
Lemma pp_size_required module st info st' :
  check_rootvg module st = (Ret (Some info), st') ->
  exists outS errS total pp,
    In (cmd_lsvg, (0, outS, errS)) (calls st') /\
    summary_loop outS = inr (total, pp) /\ pp <> -1.
Proof.
  intros H. apply check_rootvg_ok in H.
  destruct H as (outM & errM & acc & outS & errS & total & pp & _ & _ & _ & _
                 & Hsum & Hpp & _ & Hcase).
  exists outS, errS, total, pp. split; [|split; [exact Hsum | exact Hpp]].
  destruct Hcase as [(_ & _ & outP & errP & pv_size & Hc & _) | (_ & Hc & _)];
    rewrite Hc; apply in_or_app; right; simpl; auto.
Qed.

(** ** Disk selection *)

Lemma insert_by_size_in e l x :
  In x (insert_by_size e l) <-> x = e \/ In x l.
Proof.
  induction l as [|y l IH]; simpl.
  - intuition.
  - destruct (size (snd e) <=? size (snd y)); simpl; [intuition|].
    rewrite IH. intuition.
Qed.

Lemma sorted_by_size_in pvs x : In x (sorted_by_size pvs) <-> In x pvs.
Proof.
  unfold sorted_by_size. induction pvs as [|e pvs IH]; simpl; [tauto|].
  rewrite insert_by_size_in, IH. intuition.
Qed.

Lemma scan_all_small used total policy disks :
  (forall d, In d disks -> size (snd d) < used) ->
  forall prev prev_diff,
    scan_free_disks used total policy disks prev prev_diff = (EmptyString, prev).
Proof.
  induction disks as [|[hdisk info] disks IH]; intros Hall prev prev_diff; simpl;
    [reflexivity|].
  assert (Hs : size info < used) by (apply (Hall (hdisk, info)); now left).
  destruct (Z.ltb_spec (size info) used); [|lia].
  apply IH. intros d Hd. apply Hall. now right.
Qed.

Lemma sum_sizes_total pvs hdisks :
  forall tot, total_capacity pvs hdisks = Some tot ->
  forall acc st, sum_sizes pvs hdisks acc st = (Ret (acc + tot), st).
Proof.
  induction hdisks as [|h hs IH]; simpl; intros tot H acc st.
  - injection H as <-. unfold ret. now rewrite Z.add_0_r.
  - destruct (Dict.get String.eqb pvs h) as [info|]; [|discriminate H].
    destruct (total_capacity pvs hs) as [t|]; [|discriminate H].
    injection H as <-. rewrite (IH t eq_refl). f_equal. f_equal. lia.
Qed.

(** C3 (as amended): on the free disks hdisk1 (100 MB), hdisk2 (150 MB),
    hdisk3 (200 MB) with 90 MB used, a rootvg of 150 MB gets hdisk1 under
    minimize and hdisk2 under the three other policies; a rootvg of 140 MB
    gets hdisk2 under upper and nearest and hdisk1 under lower. *)
Theorem policy_example :
  let select total policy :=
    fst (find_valid_altdisk three_disks [] (rootvg_of total 90) policy false
           initial_state) in
  select 150 minimize = Ret ["hdisk1"] /\
  select 150 upper = Ret ["hdisk2"] /\
  select 150 lower = Ret ["hdisk2"] /\
  select 150 nearest = Ret ["hdisk2"] /\
  select 140 upper = Ret ["hdisk2"] /\
  select 140 lower = Ret ["hdisk1"] /\
  select 140 nearest = Ret ["hdisk2"].
Proof. vm_compute. repeat split. Qed.

(** C3, as the specification words it, does not hold: with a rootvg of
    140 MB the policy upper does not select hdisk3 and the policy lower
    does not select hdisk2. *)
Lemma policy_example_as_stated_fails :
  fst (find_valid_altdisk three_disks [] (rootvg_of 140 90) upper false initial_state)
  <> Ret ["hdisk3"] /\
  fst (find_valid_altdisk three_disks [] (rootvg_of 140 90) lower false initial_state)
  <> Ret ["hdisk2"].
Proof. split; vm_compute; discriminate. Qed.

(** C8: when every free disk is smaller than the used size, the automatic
    selection fails, without a disk and without a further command; the
    message is the one of the empty inventory or the one of the search. *)
Theorem auto_select_no_candidate module info policy force st st1 st2 free :
  clear_existing_altdisk module info force st = (Ret tt, st1) ->
  get_free_pvs module st1 = (Ret (Some free), st2) ->
  (forall d, In d free -> size (snd d) < used_size info) ->
  exists st3,
    find_valid_altdisk module [] info policy force st = (FailJson, st3) /\
    calls st3 = calls st2 /\
    msg (results st3) = match free with
                        | [] => "No free disk available"
                        | _ => msg_no_candidate (rootvg_size info)
                        end.
Proof.
  intros Hclear Hfree Hall. unfold find_valid_altdisk.
  rewrite (bind_ret _ _ _ _ _ Hclear), (bind_ret _ _ _ _ _ Hfree).
  destruct free as [|e free].
  - eexists. split; [reflexivity|]. split; reflexivity.
  - unfold select_altdisk.
    rewrite scan_all_small by (intros d Hd; apply Hall; now apply sorted_by_size_in).
    cbn [String.eqb negb]. eexists. split; [reflexivity|]. split; reflexivity.
Qed.

Lemma auto_select_no_candidate_witness :
  exists st3,
    find_valid_altdisk three_disks [] (rootvg_of 140 900) nearest false initial_state
    = (FailJson, st3) /\
    msg (results st3)
    = "No available alternate disk with size greater than 140 MB found".
Proof.
  destruct (auto_select_no_candidate three_disks (rootvg_of 140 900) nearest false
              initial_state _ _ _
              ltac:(vm_compute; reflexivity) ltac:(vm_compute; reflexivity))
    as (st3 & H & _ & Hmsg).
  - intros d Hd. vm_compute in Hd.
    destruct Hd as [<- | [<- | [<- | []]]]; vm_compute; reflexivity.
  - exists st3. split; [exact H | exact Hmsg].
Defined.

(** C9: in automatic mode a selection that succeeds yields exactly one
    disk, whatever the inventory, the rootvg and the policy. *)
Theorem auto_select_one_disk module info policy force st l st' :
  find_valid_altdisk module [] info policy force st = (Ret l, st') ->
  List.length l = 1%nat.
Proof.
  unfold find_valid_altdisk. intros H.
  apply bind_ret_inv in H. destruct H as (u & st1 & _ & H).
  apply bind_ret_inv in H. destruct H as (free & st2 & _ & H).
  destruct free as [[|e free]|]; [fails_in H | | discriminate H].
  unfold select_altdisk in H.
  destruct (scan_free_disks (used_size info) (rootvg_size info) policy
              (sorted_by_size (e :: free)) EmptyString 0) as [selected prev].
  apply bind_ret_inv in H. destruct H as (disk & st3 & _ & H).
  apply bind_ret_inv in H. destruct H as (u' & st4 & _ & H).
  unfold ret in H. injection H as <- _. reflexivity.
Qed.

Lemma auto_select_one_disk_witness :
  exists l st',
    find_valid_altdisk three_disks [] (rootvg_of 140 90) nearest false initial_state
    = (Ret l, st') /\
    List.length l = 1%nat.
Proof.
  eexists. eexists. split; [vm_compute; reflexivity|].
  eapply (auto_select_one_disk three_disks (rootvg_of 140 90) nearest false
            initial_state).
  vm_compute. reflexivity.
Defined.

(** C7 (as amended): in explicit mode, with every named disk in the free
    inventory and the sum of their capacities below the rootvg total
    size, the selection fails when the sum is also below the used size,
    and otherwise succeeds with the named disks, a warning logged and the
    results untouched. *)
Theorem explicit_capacity module info policy force st st1 st2 free h hs tot :
  clear_existing_altdisk module info force st = (Ret tt, st1) ->
  get_free_pvs module st1 = (Ret (Some free), st2) ->
  total_capacity free (h :: hs) = Some tot ->
  tot < rootvg_size info ->
  (tot < used_size info ->
   exists st3,
     find_valid_altdisk module (h :: hs) info policy force st = (FailJson, st3) /\
     msg (results st3) = msg_too_small tot (rootvg_size info)) /\
  (used_size info <= tot ->
   exists st3,
     find_valid_altdisk module (h :: hs) info policy force st = (Ret (h :: hs), st3) /\
     journal st3 = (journal st2 ++ [warning_smaller])%list /\
     results st3 = results st2).
Proof.
  intros Hclear Hfree Htot Hlt. unfold find_valid_altdisk.
  rewrite (bind_ret _ _ _ _ _ Hclear), (bind_ret _ _ _ _ _ Hfree).
  assert (Hne : exists e free', free = e :: free').
  { destruct free as [|e free']; [|now exists e, free'].
    simpl in Htot. discriminate Htot. }
  destruct Hne as (e & free' & ->).
  unfold select_altdisk.
  rewrite (bind_ret _ _ _ _ _ (sum_sizes_total _ _ _ Htot 0 st2)).
  cbn [Z.add].
  destruct (Z.ltb_spec tot (rootvg_size info)) as [_ | Hge]; [|lia].
  split; intros Hu.
  - destruct (Z.geb_spec tot (used_size info)) as [Hge | _]; [lia|].
    eexists. split; reflexivity.
  - destruct (Z.geb_spec tot (used_size info)) as [_ | Hlt']; [|lia].
    eexists. split; [reflexivity|]. split; reflexivity.
Qed.

Lemma explicit_capacity_witness :
  (exists st3,
     find_valid_altdisk three_disks ["hdisk1"] (rootvg_of 150 110) nearest false
       initial_state = (FailJson, st3) /\
     msg (results st3) = "Alternate disks too small (100 < 150).") /\
  (exists st3,
     find_valid_altdisk three_disks ["hdisk1"] (rootvg_of 150 90) nearest false
       initial_state = (Ret ["hdisk1"], st3) /\
     In warning_smaller (journal st3)).
Proof.
  split.
  - destruct (explicit_capacity three_disks (rootvg_of 150 110) nearest false
                initial_state _ _ _ "hdisk1" [] 100
                ltac:(vm_compute; reflexivity) ltac:(vm_compute; reflexivity)
                ltac:(vm_compute; reflexivity) ltac:(vm_compute; reflexivity))
      as [Hfail _].
    destruct (Hfail ltac:(vm_compute; reflexivity)) as (st3 & H & Hm).
    exists st3. split; [exact H | exact Hm].
  - destruct (explicit_capacity three_disks (rootvg_of 150 90) nearest false
                initial_state _ _ _ "hdisk1" [] 100
                ltac:(vm_compute; reflexivity) ltac:(vm_compute; reflexivity)
                ltac:(vm_compute; reflexivity) ltac:(vm_compute; reflexivity))
      as [_ Hok].
    destruct (Hok ltac:(vm_compute; discriminate)) as (st3 & H & Hj & _).
    exists st3. split; [exact H|]. rewrite Hj. apply in_or_app. right. now left.
Defined.

(** C7, as the specification words it, does not hold: a rootvg that fills
    its 80 MB disk has a used size of 90 MB, and a named disk of 80 MB is
    accepted. *)
Lemma explicit_below_used_accepted :
  exists info st1,
    check_rootvg full_rootvg_host initial_state = (Ret (Some info), st1) /\
    used_size info = 90 /\
    rootvg_size info = 80 /\
    fst (get_free_pvs (scripted [ok lspv_free_80]) initial_state)
    = Ret (Some [("hdisk1", {| free_pvid := "none"; size := 80 |})]) /\
    fst (find_valid_altdisk full_rootvg_host ["hdisk1"] info nearest false st1)
    = Ret ["hdisk1"].
Proof.
  eexists. eexists. split; [vm_compute; reflexivity|].
  repeat split; vm_compute; reflexivity.
Qed.

(** ** Copy and mirror restoration *)

(** The restoration command is built or the lookup of a copy raises;
    when it is built it holds the copy count as an integer. *)
Lemma build_cmd_mirror_cases copies nb st :
  (exists cmd, build_cmd_mirror copies nb st = (Ret cmd, st) /\
               strings_of cmd = None /\
               is_mirror_cmd cmd = true) \/
  build_cmd_mirror copies nb st = (Raise KeyError, st).
Proof.
  unfold build_cmd_mirror, getitem.
  destruct (Dict.get Z.eqb copies 2) as [c2|]; [|now right].
  unfold bind at 1, ret at 1. destruct (nb >? 2).
  - destruct (Dict.get Z.eqb copies 3) as [c3|]; [|now right].
    left. eexists. split; [reflexivity|]. split; reflexivity.
  - left. eexists. split; [reflexivity|]. split; reflexivity.
Qed.

(** The restoration never reaches the host: [run_command] refuses the
    integer in its argument list. *)
Lemma restore_mirror_runs_nothing module copies nb st o st' :
  restore_mirror module copies nb st = (o, st') ->
  calls st' = calls st /\ results st' = results st /\
  (o = Raise KeyError \/ o = Raise TypeError).
Proof.
  intros H. unfold restore_mirror in H.
  unfold bind at 1, emit at 1 in H. unfold bind at 1 in H.
  match type of H with
  | context [build_cmd_mirror copies nb ?s] =>
      destruct (build_cmd_mirror_cases copies nb s)
        as [(cmd & E & Hint & _) | E]; rewrite E in H
  end.
  - unfold bind at 1, run_command at 1 in H. rewrite Hint in H.
    injection H as <- <-. auto.
  - injection H as <- <-. auto.
Qed.

(** With more than one copy, the copy command is the last command of the
    run: what follows it ends on an exception before any [mirrorvg]. *)
Lemma copy_and_restore_mirrored module hd copies st o st' :
  Dict.len copies > 1 ->
  copy_and_restore module hd copies st = (o, st') ->
  calls st'
  = (calls st
     ++ [(cmd_alt_disk_copy hd,
          host module (map fst (calls st) ++ [cmd_alt_disk_copy hd]))])%list /\
  (o = Raise KeyError \/ o = Raise TypeError).
Proof.
  intros Hlen H. unfold copy_and_restore in H.
  unfold bind at 1, run_command at 1 in H. strings_ok_in H.
  destruct (host module (map fst (calls st) ++ [cmd_alt_disk_copy hd]))
    as [[rc out] err].
  destruct (Z.gtb_spec (Dict.len copies) 1) as [_ | Hle]; [|lia].
  unfold bind at 1 in H.
  match type of H with
  | context [(if rc =? 0 then set_changed true else ret tt) ?s] =>
      destruct ((if rc =? 0 then set_changed true else ret tt) s) as [o1 s1] eqn:E1;
      assert (Hs1 : o1 = Ret tt /\ calls s1 = calls s)
        by (destruct (rc =? 0); injection E1 as <- <-; split; reflexivity)
  end.
  destruct Hs1 as [-> Hc1]. cbn [calls] in Hc1.
  unfold bind at 1 in H.
  destruct (restore_mirror module copies (Dict.len copies) s1) as [o2 s2] eqn:E2.
  apply restore_mirror_runs_nothing in E2. destruct E2 as (Hc2 & _ & Ho2).
  destruct Ho2 as [-> | ->]; injection H as <- <-;
    (split; [congruence | auto]).
Qed.

(** The suspension of the mirror never returns: it refuses without
    force, reports a failed [unmirrorvg], or ends on the call of
    [module.info] once [unmirrorvg] has succeeded. *)
Lemma stop_mirror_cases module force st o st' :
  stop_mirror module force st = (o, st') ->
  (force = false /\ o = FailJson /\ calls st' = calls st /\
   msg (results st') = msg_mirrored_no_force /\
   changed (results st') = changed (results st)) \/
  (force = true /\
   calls st'
   = (calls st
      ++ [(cmd_unmirror, host module (map fst (calls st) ++ [cmd_unmirror]))])%list /\
   changed (results st') = changed (results st) /\
   ((unmirror_ok (host module (map fst (calls st) ++ [cmd_unmirror])) /\
     o = Raise AttributeError /\ results st' = results st) \/
    (~ unmirror_ok (host module (map fst (calls st) ++ [cmd_unmirror])) /\
     o = FailJson))).
Proof.
  intros H. unfold stop_mirror in H. destruct force; cbn [negb] in H.
  - right. split; [reflexivity|]. unfold unmirror_ok.
    unfold bind at 1, ret at 1 in H. unfold bind at 1, emit at 1 in H.
    unfold bind at 1, run_command at 1 in H. strings_ok_in H.
    cbn [calls results journal] in H.
    destruct (host module (map fst (calls st) ++ [cmd_unmirror])) as [[rc out] err].
    cbn [fst snd].
    destruct (Z.eqb_spec rc 0) as [-> | Hne]; cbn [negb] in H.
    + destruct (Z.eqb_spec (Py.find err "rootvg successfully unmirrored") (-1))
        as [Hf | Hf].
      * cbv [bind ret set_stdout set_stderr set_msg set_results fail_json] in H.
        injection H as <- <-. cbn [calls results changed].
        split; [reflexivity|]. split; [reflexivity|]. right. split; [tauto | reflexivity].
      * unfold module_info, raise in H. injection H as <- <-.
        cbn [calls results changed].
        split; [reflexivity|]. split; [reflexivity|]. left. auto.
    + unfold command_failed, join_cmd in H. simpl strings_of in H.
      cbv [bind ret set_stdout set_stderr set_msg set_results fail_json] in H.
      injection H as <- <-. cbn [calls results changed].
      split; [reflexivity|]. split; [reflexivity|]. right. split; [tauto | reflexivity].
  - left. cbv [bind ret set_msg set_results fail_json] in H.
    injection H as <- <-. repeat split.
Qed.

(** On a mirrored rootvg the copy command is never reached, with or
    without force: the run ends in the suspension of the mirror. *)
Lemma mirrored_copy_unreachable module hdisks policy force st info st1 hd st2 o st' :
  check_rootvg module st = (Ret (Some info), st1) ->
  find_valid_altdisk module (match hdisks with None => [] | Some l => l end)
    info policy force st1 = (Ret hd, st2) ->
  Dict.len (copy_dict info) > 1 ->
  alt_disk_copy module hdisks policy force st = (o, st') ->
  (o = FailJson \/ o = Raise AttributeError) /\
  changed (results st') = changed (results st2) /\
  (calls st' = calls st2 \/
   calls st'
   = (calls st2
      ++ [(cmd_unmirror, host module (map fst (calls st2) ++ [cmd_unmirror]))])%list) /\
  (o = Raise AttributeError <->
   force = true /\ unmirror_ok (host module (map fst (calls st2) ++ [cmd_unmirror]))).
Proof.
  intros Hcheck Hfind Hlen H. unfold alt_disk_copy in H.
  rewrite (bind_ret _ _ _ _ _ Hcheck) in H.
  rewrite (bind_ret _ _ _ _ _ Hfind) in H.
  unfold bind at 1, emit at 1 in H.
  destruct (Z.gtb_spec (Dict.len (copy_dict info)) 1) as [_ | Hle]; [|lia].
  unfold bind at 1 in H.
  match type of H with
  | context [stop_mirror module force ?s] =>
      destruct (stop_mirror module force s) as [o1 s1] eqn:E
  end.
  apply stop_mirror_cases in E. cbn [calls results] in E.
  destruct E as [(-> & -> & Hc & Hm & Hch)
                | (-> & Hc & Hch & [(Hok & -> & Hres) | (Hbad & ->)])];
    injection H as <- <-.
  - split; [now left|]. split; [exact Hch|].
    split; [now left|]. split; [discriminate | intros [[=] _]].
  - split; [now right|]. split; [exact Hch|]. split; [now right|]. tauto.
  - split; [now left|]. split; [exact Hch|]. split; [now right|].
    split; [discriminate | tauto].
Qed.

(** C2: a mirrored rootvg copied with force.  [unmirrorvg] succeeds; the
    next statement calls [module.info], which [AnsibleModule] does not
    have: the run ends there by [AttributeError], with the mirror
    suspended, no copy made and no restoration attempted. *)
Theorem mirror_never_restored :
  let run :=
    alt_disk_copy (mirrored_host 0 (ok EmptyString)) None nearest true initial_state in
  fst run = Raise AttributeError /\
  calls (snd run)
  = [(cmd_lsvg_M, ok lsvg_M_mirrored); (cmd_lsvg_p, ok lsvg_p_mirrored);
     (cmd_lsvg, ok lsvg_summary); (cmd_lspv, ok lspv_plain);
     (cmd_lspv_free, ok lspv_free_big); (cmd_unmirror, unmirrored_response)] /\
  filter is_mirror_cmd (map fst (calls (snd run))) = [] /\
  changed (results (snd run)) = false.
Proof. vm_compute. repeat split. Qed.

(** Past the suspension, the restoration of lines 546-565 cannot run
    either: after a copy that failed with code 3 on a mirror of two
    copies, [run_command] raises on the integer copy count and the host
    sees no [mirrorvg]. *)
Example restoration_not_executed :
  let st := {| results := initial_results;
               calls := [(cmd_unmirror, unmirrored_response)]; journal := [] |} in
  let run :=
    copy_and_restore (scripted [unmirrored_response; (3, "copy out", "copy err");
                                ok EmptyString])
      ["hdisk9"] [(1, "hdisk4"); (2, "hdisk8")] st in
  fst run = Raise TypeError /\
  map fst (calls (snd run)) = [cmd_unmirror; cmd_alt_disk_copy ["hdisk9"]].
Proof. vm_compute. split; reflexivity. Qed.

(** ** Cleanup *)

Lemma for_each_quiet {A : Type} (l : list A) (body : A -> M unit) :
  (forall x st, exists st', body x st = (Ret tt, st') /\
                            results st' = results st /\ calls st' = calls st) ->
  forall st, exists st', for_each l body st = (Ret tt, st') /\
                         results st' = results st /\ calls st' = calls st.
Proof.
  intros Hbody. induction l as [|x l IH]; intros st; simpl.
  - exists st. repeat split.
  - destruct (Hbody x st) as (st1 & E1 & Hr1 & Hc1).
    destruct (IH st1) as (st2 & E2 & Hr2 & Hc2).
    exists st2. rewrite (bind_ret _ _ _ _ _ E1). rewrite E2. repeat split; congruence.
Qed.

Lemma get_pvs_spec module st :
  exists pvs st1 r,
    get_pvs module st = (Ret pvs, st1) /\
    calls st1 = (calls st ++ [(cmd_lspv, r)])%list /\
    changed (results st1) = changed (results st) /\
    (pvs <> None -> succeeded r).
Proof.
  unfold get_pvs. fold cmd_lspv. unfold bind at 1, run_command at 1. strings_ok.
  destruct (host module (map fst (calls st) ++ [cmd_lspv])) as [[rc out] err] eqn:E.
  cbn [fst snd]. destruct (Z.eqb_spec rc 0) as [-> | Hne]; cbn [negb].
  - unfold bind at 1, emit at 1. cbn [results calls journal].
    match goal with
    | |- context [bind (for_each ?l ?b) _ ?s] =>
        destruct (for_each_quiet l b) with (st := s) as (st2 & E2 & Hr2 & Hc2)
    end.
    { intros x s. eexists. split; [reflexivity|]. split; reflexivity. }
    eexists. exists st2, (0, out, err). rewrite (bind_ret _ _ _ _ _ E2).
    split; [reflexivity|]. rewrite Hr2, Hc2. repeat split.
  - exists None. eexists. exists (rc, out, err). split; [reflexivity|].
    repeat split. intros H. now contradiction H.
Qed.

Lemma check_targets_spec pvs hdisks st :
  check_targets pvs hdisks st = (Ret tt, st) \/
  exists st', check_targets pvs hdisks st = (FailJson, st') /\
              calls st' = calls st /\
              changed (results st') = changed (results st).
Proof.
  induction hdisks as [|h hs IH]; simpl; [now left|].
  destruct (Dict.get String.eqb pvs h) as [p|].
  - destruct (negb (String.eqb (vg p) "altinst_rootvg")); [|exact IH].
    right. eexists. split; [reflexivity|]. split; reflexivity.
  - right. eexists. split; [reflexivity|]. split; reflexivity.
Qed.

Lemma clear_owner_spec module h st :
  (exists r st',
     clear_owner module h st = (Ret tt, st') /\
     succeeded r /\
     results st' = results st /\
     calls st' = (calls st ++ [(cmd_chpv h, r)])%list) \/
  (exists r st',
     clear_owner module h st = (FailJson, st') /\
     changed (results st') = changed (results st) /\
     calls st' = (calls st ++ [(cmd_chpv h, r)])%list).
Proof.
  destruct (clear_owner module h st) as [o st'] eqn:E0.
  unfold clear_owner in E0.
  unfold bind at 1, emit at 1 in E0. unfold bind at 1, run_command at 1 in E0. strings_ok_in E0.
  cbn [calls results journal] in E0.
  destruct (host module (map fst (calls st) ++ [cmd_chpv h])) as [[rc out] err] eqn:E.
  cbn [fst snd] in E0. destruct (Z.eqb_spec rc 0) as [-> | Hne]; cbn [negb] in E0.
  - left. exists (0, out, err), st'. unfold ret in E0. injection E0 as <- <-.
    repeat split.
  - right. unfold command_failed, join_cmd in E0. simpl strings_of in E0.
    cbv [bind ret set_stdout set_stderr set_msg set_results fail_json] in E0.
    exists (rc, out, err), st'. injection E0 as <- <-. repeat split.
Qed.

Lemma clear_loop module hdisks :
  forall st,
  (exists rs st',
     for_each hdisks (clear_owner module) st = (Ret tt, st') /\
     results st' = results st /\
     calls st' = (calls st ++ combine (map cmd_chpv hdisks) rs)%list /\
     List.length rs = List.length hdisks /\
     Forall succeeded rs) \/
  (exists extra st',
     for_each hdisks (clear_owner module) st = (FailJson, st') /\
     changed (results st') = changed (results st) /\
     calls st' = (calls st ++ extra)%list).
Proof.
  induction hdisks as [|h hs IH]; intros st; simpl.
  - left. exists [], st. simpl. rewrite app_nil_r. repeat split. constructor.
  - destruct (clear_owner_spec module h st)
      as [(r & st1 & E1 & Hok & Hr1 & Hc1) | (r & st1 & E1 & Hch & Hc1)].
    + rewrite (bind_ret _ _ _ _ _ E1).
      destruct (IH st1) as [(rs & st' & E' & Hr & Hc & Hl & Hall)
                           | (extra & st' & E' & Hch & Hc)].
      * left. exists (r :: rs), st'.
        split; [exact E'|]. split; [congruence|].
        split; [rewrite Hc, Hc1; cbn [map combine]; now rewrite <- app_assoc|].
        split; [simpl; now rewrite Hl|]. constructor; [exact Hok | exact Hall].
      * right. exists ((cmd_chpv h, r) :: extra), st'. split; [exact E'|].
        split; [rewrite Hch; now rewrite Hr1|].
        rewrite Hc, Hc1. now rewrite <- app_assoc.
    + right. exists [(cmd_chpv h, r)], st1. unfold bind. rewrite E1.
      repeat split; assumption.
Qed.

Lemma clean_targets_spec pvs hdisks st :
  (exists targets,
     clean_targets pvs hdisks st = (Ret targets, st) /\
     targets <> [] /\
     (forall h t, hdisks = Some (h :: t) -> targets = h :: t)) \/
  (exists st',
     clean_targets pvs hdisks st = (FailJson, st') /\
     calls st' = calls st /\
     changed (results st') = changed (results st)).
Proof.
  assert (Hfound :
    (exists targets,
       (match map fst (filter is_altinst pvs) with
        | [] => set_msg "There is no alternate install rootvg" ;; fail_json
        | _ => ret (map fst (filter is_altinst pvs))
        end) st = (Ret targets, st) /\ targets <> []) \/
    (exists st',
       (match map fst (filter is_altinst pvs) with
        | [] => set_msg "There is no alternate install rootvg" ;; fail_json
        | _ => ret (map fst (filter is_altinst pvs))
        end) st = (FailJson, st') /\
       calls st' = calls st /\
       changed (results st') = changed (results st))).
  { destruct (map fst (filter is_altinst pvs)) as [|x l].
    - right. eexists. split; [reflexivity|]. split; reflexivity.
    - left. exists (x :: l). split; [reflexivity | discriminate]. }
  unfold clean_targets. destruct hdisks as [[|h t]|].
  - destruct Hfound as [(targets & E & Hne) | Hfail]; [left | right; exact Hfail].
    exists targets. repeat split; auto. discriminate.
  - destruct (check_targets_spec pvs (h :: t) st) as [E | (st' & E & Hc & Hch)].
    + left. exists (h :: t). rewrite (bind_ret _ _ _ _ _ E).
      split; [reflexivity|]. split; [discriminate|]. now intros ? ? [= <- <-].
    + right. exists st'. unfold bind. rewrite E. repeat split; assumption.
  - destruct Hfound as [(targets & E & Hne) | Hfail]; [left | right; exact Hfail].
    exists targets. repeat split; auto. discriminate.
Qed.

Lemma remove_and_clear_spec module targets st o st' :
  changed (results st) = false ->
  remove_and_clear module targets st = (o, st') ->
  exists r extra,
    calls st' = (calls st ++ (cmd_remove_altinst, r) :: extra)%list /\
    ((o = Ret tt /\ changed (results st') = true /\ succeeded r /\
      exists rs, extra = combine (map cmd_chpv targets) rs /\
                 List.length rs = List.length targets /\
                 Forall succeeded rs) \/
     (o = FailJson /\ changed (results st') = false)).
Proof.
  intros Hch H. unfold remove_and_clear in H.
  unfold bind at 1, emit at 1 in H. unfold bind at 1, run_command at 1 in H. strings_ok_in H.
  cbn [calls results journal] in H.
  destruct (host module (map fst (calls st) ++ [cmd_remove_altinst]))
    as [[rc out] err] eqn:E.
  unfold bind at 1, set_stdout at 1, set_results at 1 in H.
  unfold bind at 1, set_stderr at 1, set_results at 1 in H.
  cbn [calls results journal changed msg stdout stderr] in H.
  exists (rc, out, err).
  destruct (Z.eqb_spec rc 0) as [-> | Hne]; cbn [negb] in H.
  - unfold bind at 1, ret at 1 in H. unfold bind at 1 in H.
    match type of H with
    | context [for_each targets (clear_owner module) ?s] =>
        destruct (clear_loop module targets s)
          as [(rs & s1 & E1 & Hr & Hc & Hl & Hall) | (extra & s1 & E1 & Hch1 & Hc)]
    end.
    + rewrite E1 in H. unfold set_changed, set_results in H.
      injection H as <- <-. cbn [calls results changed] in *.
      exists (combine (map cmd_chpv targets) rs).
      split; [rewrite Hc; now rewrite <- app_assoc|].
      left. repeat split. exists rs. repeat split; assumption.
    + rewrite E1 in H. injection H as <- <-. cbn [calls results changed] in *.
      exists extra. split; [rewrite Hc; now rewrite <- app_assoc|].
      right. split; [reflexivity|]. now rewrite Hch1.
  - unfold join_cmd in H. simpl strings_of in H.
    cbv [bind ret set_msg set_results fail_json] in H.
    injection H as <- <-. cbn [calls results changed].
    exists []. split; [reflexivity|]. right. split; [reflexivity | exact Hch].
Qed.

(** C10: in a cleanup that starts with [changed] false, [changed] is true
    at the end only when the run returns normally, after the listing, the
    removal of the alternate VG and the owner-clear of every target disk
    have all succeeded; any owner-clear that fails ends the run with a
    failure report in which [changed] is still false. *)
Theorem clean_changed_last module hdisks st o st' :
  changed (results st) = false ->
  alt_disk_clean module hdisks st = (o, st') ->
  exists new,
    calls st' = (calls st ++ new)%list /\
    (changed (results st') = true ->
     o = Ret tt /\
     exists targets r1 r2 rs,
       new = (cmd_lspv, r1) :: (cmd_remove_altinst, r2)
             :: combine (map cmd_chpv targets) rs /\
       targets <> [] /\
       (forall h t, hdisks = Some (h :: t) -> targets = h :: t) /\
       List.length rs = List.length targets /\
       succeeded r1 /\ succeeded r2 /\ Forall succeeded rs) /\
    (o = Ret tt -> changed (results st') = true) /\
    (forall d r, In (cmd_chpv d, r) new -> ~ succeeded r ->
                 o = FailJson /\ changed (results st') = false).
Proof.
  intros Hch H. unfold alt_disk_clean in H.
  destruct (get_pvs_spec module st) as (pvs & st1 & r1 & E & Hc1 & Hch1 & Hok1).
  rewrite (bind_ret _ _ _ _ _ E) in H. rewrite Hch in Hch1.
  assert (Hfail : forall new,
    o = FailJson -> changed (results st') = false ->
    calls st' = (calls st ++ new)%list ->
    exists new,
      calls st' = (calls st ++ new)%list /\
      (changed (results st') = true ->
       o = Ret tt /\
       exists targets r1 r2 rs,
         new = (cmd_lspv, r1) :: (cmd_remove_altinst, r2)
               :: combine (map cmd_chpv targets) rs /\
         targets <> [] /\
         (forall h t, hdisks = Some (h :: t) -> targets = h :: t) /\
         List.length rs = List.length targets /\
         succeeded r1 /\ succeeded r2 /\ Forall succeeded rs) /\
      (o = Ret tt -> changed (results st') = true) /\
      (forall d r, In (cmd_chpv d, r) new -> ~ succeeded r ->
                   o = FailJson /\ changed (results st') = false)).
  { intros new -> Hf Hc. exists new. split; [exact Hc|].
    split; [congruence|]. split; [discriminate|]. auto. }
  destruct pvs as [pvs|].
  2:{ injection H as <- <-. apply (Hfail [(cmd_lspv, r1)]); auto. }
  destruct (clean_targets_spec pvs hdisks st1)
    as [(targets & Et & Hne & Hexp) | (st2 & Et & Hc2 & Hch2)].
  2:{ unfold bind in H. rewrite Et in H. injection H as <- <-.
      apply (Hfail [(cmd_lspv, r1)]); congruence. }
  rewrite (bind_ret _ _ _ _ _ Et) in H.
  apply (remove_and_clear_spec _ _ _ _ _ Hch1) in H.
  destruct H as (r2 & extra & Hc & [(-> & Hchanged & Hok2 & rs & -> & Hl & Hall)
                                   | (-> & Hchanged)]).
  - exists ((cmd_lspv, r1) :: (cmd_remove_altinst, r2)
            :: combine (map cmd_chpv targets) rs).
    split; [rewrite Hc, Hc1; now rewrite <- app_assoc|].
    split.
    { intros _. split; [reflexivity|]. exists targets, r1, r2, rs.
      repeat split; auto. apply Hok1. discriminate. }
    split; [auto|].
    intros d r Hin Hbad. exfalso. apply Hbad.
    destruct Hin as [Heq | [Heq | Hin]]; [discriminate Heq | discriminate Heq |].
    apply in_combine_r in Hin. rewrite Forall_forall in Hall. now apply Hall.
  - apply (Hfail ((cmd_lspv, r1) :: (cmd_remove_altinst, r2) :: extra)); auto.
    rewrite Hc, Hc1. now rewrite <- app_assoc.
Qed.

Lemma clean_changed_last_witness :
  exists st',
    alt_disk_clean (scripted [ok lspv_altinst; ok "removed"; ok EmptyString;
                              (4, "o", "e")]) None initial_state
    = (FailJson, st') /\
    In (cmd_remove_altinst, ok "removed") (calls st') /\
    changed (results st') = false.
Proof.
  eexists. split; [vm_compute; reflexivity|].
  split; [vm_compute; auto|].
  destruct (clean_changed_last
              (scripted [ok lspv_altinst; ok "removed"; ok EmptyString; (4, "o", "e")])
              None initial_state _ _ eq_refl ltac:(vm_compute; reflexivity))
    as (new & Hc & _ & _ & Hbad).
  vm_compute in Hc. subst new.
  apply (Hbad "hdisk2" (4, "o", "e")).
  - vm_compute. auto 6.
  - vm_compute. discriminate.
Defined.

(** ** Soundness of the matcher *)

Lemma append_nil_r (s : string) : s ++ EmptyString = s.
Proof. induction s as [|a s IH]; simpl; [reflexivity | now rewrite IH]. Qed.

Lemma append_assoc (a b c : string) : (a ++ b) ++ c = a ++ b ++ c.
Proof. induction a as [|x a IH]; simpl; [reflexivity | now rewrite IH]. Qed.

Lemma length_append (a b : string) :
  String.length (a ++ b) = (String.length a + String.length b)%nat.
Proof. induction a as [|x a IH]; simpl; [reflexivity | now rewrite IH]. Qed.

Lemma substring_mid (pre c rest : string) :
  String.substring (String.length pre) (String.length c) (pre ++ c ++ rest) = c.
Proof.
  induction pre as [|x pre IH]; simpl; [|exact IH].
  induction c as [|y c IHc]; simpl.
  - destruct rest; reflexivity.
  - now rewrite IHc.
Qed.

Lemma prefix_split (l s : string) :
  String.prefix l s = true -> s = l ++ Py.drop (String.length l) s.
Proof.
  revert s. induction l as [|x l IH]; intros s H.
  - reflexivity.
  - destruct s as [|y s]; simpl in H; [discriminate|].
    destruct (Ascii.ascii_dec x y) as [-> | Hne]; [|discriminate].
    simpl. f_equal. now apply IH.
Qed.

Lemma star_sound {X : Type} (p : ascii -> bool) (k : nat -> string -> option X) s :
  forall i m,
  Re.star p k i s = Some m ->
  exists c rest,
    s = c ++ rest /\ all_chars p c = true /\
    k (i + String.length c)%nat rest = Some m.
Proof.
  induction s as [|a s IH]; intros i m H; simpl in H.
  - exists EmptyString, EmptyString. simpl. rewrite Nat.add_0_r. auto.
  - destruct (p a) eqn:Ep.
    + destruct (Re.star p k (S i) s) as [r|] eqn:Es.
      * injection H as ->. apply IH in Es. destruct Es as (c & rest & -> & Hall & Hk).
        exists (String a c), rest. simpl. rewrite Ep, Hall.
        rewrite <- plus_n_Sm. auto.
      * exists EmptyString, (String a s). simpl. rewrite Nat.add_0_r. auto.
    + exists EmptyString, (String a s). simpl. rewrite Nat.add_0_r. auto.
Qed.

Lemma run_sound (r : Re.re) :
  forall w k i s g m pre,
  w = pre ++ s -> String.length pre = i ->
  Re.run w r k i s g = Some m ->
  exists c rest t,
    s = c ++ rest /\ matches r i c rest t /\
    k (i + String.length c)%nat rest (g ++ t)%list = Some m.
Proof.
  induction r as [l | cl | cl | | | a IHa b IHb | a IHa];
    intros w k i s g m pre Hw Hi H; simpl in H.
  - destruct (String.prefix l s) eqn:Ep; [|discriminate].
    exists l, (Py.drop (String.length l) s), []. rewrite app_nil_r.
    split; [now apply prefix_split|]. simpl. auto.
  - apply star_sound in H. destruct H as (c & rest & -> & Hall & Hk).
    exists c, rest, []. rewrite app_nil_r. simpl. auto.
  - destruct s as [|x s]; [discriminate|].
    destruct (Re.mem cl x) eqn:Ex; [|discriminate].
    apply star_sound in H. destruct H as (c & rest & -> & Hall & Hk).
    exists (String x c), rest, []. rewrite app_nil_r. simpl.
    rewrite Ex, Hall. rewrite <- plus_n_Sm. repeat split; auto. discriminate.
  - destruct (Nat.eqb_spec i 0) as [-> | Hne]; [|discriminate].
    exists EmptyString, s, []. rewrite app_nil_r. simpl. auto.
  - destruct (String.eqb s EmptyString || String.eqb s (String Py.newline EmptyString))
      eqn:E; [|discriminate].
    exists EmptyString, s, []. rewrite app_nil_r, Nat.add_0_r. simpl.
    repeat split; auto.
    apply orb_true_iff in E. destruct E as [E | E]; apply String.eqb_eq in E; auto.
  - apply (IHa w _ i s g m pre Hw Hi) in H.
    destruct H as (c1 & rest1 & t1 & -> & Ha & H).
    apply (IHb w _ _ rest1 _ m (pre ++ c1)) in H.
    + destruct H as (c2 & rest & t2 & -> & Hb & H).
      exists (c1 ++ c2), rest, (t1 ++ t2)%list.
      split; [now rewrite append_assoc|]. split.
      * simpl. exists c1, c2, t1, t2. auto.
      * rewrite length_append, Nat.add_assoc, app_assoc. exact H.
    + rewrite Hw. now rewrite append_assoc.
    + rewrite length_append. now rewrite Hi.
  - apply (IHa w _ i s g m pre Hw Hi) in H.
    destruct H as (c & rest & t & -> & Ha & H).
    exists c, rest, (t ++ [c])%list. split; [reflexivity|]. split.
    + simpl. exists t. auto.
    + rewrite app_assoc.
      replace (i + String.length c - i)%nat with (String.length c) in H by lia.
      subst i. rewrite Hw, substring_mid in H. exact H.
Qed.

(** A match of [re_match] is a match of the pattern on a prefix of the
    subject, and returns the groups the pattern closes. *)
Lemma re_match_sound r s m :
  Re.re_match r s = Some m ->
  exists c rest, s = c ++ rest /\ matches r 0 c rest m.
Proof.
  unfold Re.re_match. intros H.
  apply (run_sound r s _ 0%nat s [] m EmptyString eq_refl eq_refl) in H.
  destruct H as (c & rest & t & Hs & Hm & H). injection H as <-.
  exists c, rest. auto.
Qed.

Ltac break_match H :=
  simpl in H;
  repeat match goal with
         | H' : exists _, _ |- _ => destruct H' as [? H']
         | H' : _ /\ _ |- _ => destruct H'
         end;
  subst; simpl.

(** The groups of a line that [get_pvs] accepts. *)
Lemma pv_line_groups s m :
  Re.re_match Re.pv_line s = Some m ->
  exists x g2 g3 g4,
    m = ["hdisk" ++ x; g2; g3; g4] /\
    x <> EmptyString /\
    all_chars (Re.mem Re.NonSpace) x = true /\
    String.prefix "hdisk" s = true.
Proof.
  intros H. apply re_match_sound in H. destruct H as (c & rest & Hs & Hm).
  unfold Re.pv_line in Hm. break_match Hm.
  match goal with
  | |- exists _ _ _ _, [String _ (String _ (String _ (String _ (String _ ?x)))); ?a; ?b; ?c]
                       = _ /\ _ => exists x, a, b, c
  end.
  repeat split; auto;
    match goal with |- String.prefix _ ?s = true => destruct s; reflexivity end.
Qed.

(** The groups of a line that [get_free_pvs] accepts. *)
Lemma free_pv_line_groups s m :
  Re.re_match Re.free_pv_line s = Some m ->
  exists x g2 g3,
    m = ["hdisk" ++ x; g2; g3] /\
    x <> EmptyString /\
    all_chars (Re.mem Re.NonSpace) x = true /\
    g3 <> EmptyString /\
    all_chars (Re.mem Re.NonSpace) g3 = true /\
    String.prefix "hdisk" s = true.
Proof.
  intros H. apply re_match_sound in H. destruct H as (c & rest & Hs & Hm).
  unfold Re.free_pv_line in Hm. break_match Hm.
  match goal with
  | |- exists _ _ _, [String _ (String _ (String _ (String _ (String _ ?x)))); ?a; ?b]
                     = _ /\ _ => exists x, a, b
  end.
  repeat split; auto;
    match goal with |- String.prefix _ ?s = true => destruct s; reflexivity end.
Qed.

Lemma mirror_line_groups s m :
  Re.re_match Re.mirror_line s = Some m ->
  exists d c, m = [d; c] /\ d <> EmptyString /\
              all_chars (Re.mem Re.NonSpace) d = true /\ digits c.
Proof.
  intros H. apply re_match_sound in H. destruct H as (c & rest & Hs & Hm).
  unfold Re.mirror_line in Hm. break_match Hm. unfold digits.
  eexists. eexists. split; [reflexivity|]. repeat split; auto.
Qed.

Lemma single_line_groups s m :
  Re.re_match Re.single_line s = Some m ->
  exists d, m = [d] /\ d <> EmptyString /\
            all_chars (Re.mem Re.NonSpace) d = true.
Proof.
  intros H. apply re_match_sound in H. destruct H as (c & rest & Hs & Hm).
  unfold Re.single_line in Hm. break_match Hm.
  eexists. split; [reflexivity|]. repeat split; auto.
Qed.

Lemma lsvg_p_line_groups s m :
  Re.re_match Re.lsvg_p_line s = Some m ->
  exists d n, m = [d; n] /\ d <> EmptyString /\ digits n.
Proof.
  intros H. apply re_match_sound in H. destruct H as (c & rest & Hs & Hm).
  unfold Re.lsvg_p_line in Hm. break_match Hm. unfold digits.
  eexists. eexists. split; [reflexivity|]. repeat split; auto.
Qed.

Lemma total_pps_line_groups s m :
  Re.re_match Re.total_pps_line s = Some m -> exists n, m = [n] /\ digits n.
Proof.
  intros H. apply re_match_sound in H. destruct H as (c & rest & Hs & Hm).
  unfold Re.total_pps_line in Hm. break_match Hm. unfold digits.
  eexists. split; [reflexivity|]. repeat split; auto.
Qed.

Lemma pp_size_line_groups s m :
  Re.re_match Re.pp_size_line s = Some m -> exists n, m = [n] /\ digits n.
Proof.
  intros H. apply re_match_sound in H. destruct H as (c & rest & Hs & Hm).
  unfold Re.pp_size_line in Hm. break_match Hm. unfold digits.
  eexists. split; [reflexivity|]. repeat split; auto.
Qed.

(** ** Integers read from digit groups *)

Lemma isdigit_not_space a : Py.isdigit a = true -> Py.int_space a = false.
Proof.
  unfold Py.isdigit, Py.int_space. intros H.
  apply andb_true_iff in H. destruct H as [H1 H2].
  apply Z.leb_le in H1, H2.
  destruct (Z.leb_spec 9 (Py.code a)), (Z.leb_spec (Py.code a) 13),
    (Z.eqb_spec (Py.code a) 32),
    (Z.eqb_spec (Py.code a) 133), (Z.eqb_spec (Py.code a) 160);
    simpl; try reflexivity; lia.
Qed.

Lemma rstrip_digits s : all_chars Py.isdigit s = true -> Py.int_rstrip s = s.
Proof.
  induction s as [|a s IH]; simpl; [reflexivity|].
  intros H. apply andb_true_iff in H. destruct H as [Ha Hs].
  rewrite (IH Hs). destruct s; [|reflexivity].
  now rewrite (isdigit_not_space _ Ha).
Qed.

Lemma lstrip_digits s : all_chars Py.isdigit s = true -> Py.int_lstrip s = s.
Proof.
  destruct s as [|a s]; simpl; [reflexivity|].
  intros H. apply andb_true_iff in H. destruct H as [Ha _].
  now rewrite (isdigit_not_space _ Ha).
Qed.

Lemma count_digits_all s :
  all_chars Py.isdigit s = true -> Py.count_digits s = String.length s.
Proof.
  induction s as [|a s IH]; cbn [all_chars Py.count_digits String.length];
    [reflexivity|].
  intros H. apply andb_true_iff in H. destruct H as [Ha Hs].
  rewrite Ha, (IH Hs). reflexivity.
Qed.

Lemma int_digits_eq s :
  all_chars Py.isdigit s = true ->
  forall acc b, s <> EmptyString \/ b = true ->
  Py.int_digits s acc b = Some (int_of_digits s acc).
Proof.
  induction s as [|a s IH]; cbn [all_chars int_of_digits Py.int_digits];
    intros H acc b Hb.
  - destruct Hb as [Hb | ->]; [contradiction | reflexivity].
  - apply andb_true_iff in H. destruct H as [Ha Hs]. rewrite Ha.
    apply IH; auto.
Qed.

Lemma int_of_digits_nonneg s :
  all_chars Py.isdigit s = true ->
  forall acc, 0 <= acc -> 0 <= int_of_digits s acc.
Proof.
  induction s as [|a s IH]; cbn [all_chars int_of_digits]; intros H acc Hacc;
    [exact Hacc|].
  apply andb_true_iff in H. destruct H as [Ha Hs]. apply IH; [exact Hs|].
  unfold Py.isdigit in Ha. apply andb_true_iff in Ha. destruct Ha as [H1 _].
  apply Z.leb_le in H1. lia.
Qed.

Lemma digit_not_sign a :
  Py.isdigit a = true -> a <> "-"%char /\ a <> "+"%char.
Proof.
  intros H. split; intros ->; vm_compute in H; discriminate.
Qed.

(** On a non-empty run of digits [int()] raises only when the run is
    longer than the limit; otherwise it returns the non-negative number
    that [int_of_digits] computes. *)
Lemma int_on_digits s :
  digits s ->
  Py.int s = (if (Py.max_str_digits <? String.length s)%nat then None
              else Some (int_of_digits s 0)) /\
  0 <= int_of_digits s 0.
Proof.
  intros [Hne Hall]. split; [|now apply int_of_digits_nonneg].
  unfold Py.int. rewrite (lstrip_digits _ Hall), (rstrip_digits _ Hall).
  assert (E : Py.int_literal s
              = if (Py.max_str_digits <? String.length s)%nat then None
                else Some (int_of_digits s 0)).
  { unfold Py.int_literal. rewrite (count_digits_all _ Hall).
    destruct (Py.max_str_digits <? String.length s)%nat; [reflexivity|].
    apply int_digits_eq; [exact Hall | now left]. }
  destruct s as [|a s]; [contradiction|].
  assert (Ha : Py.isdigit a = true).
  { cbn [all_chars] in Hall. apply andb_true_iff in Hall. tauto. }
  destruct (digit_not_sign _ Ha) as [Hm Hp].
  destruct a as [[|] [|] [|] [|] [|] [|] [|] [|]]; try exact E;
    first [now contradiction Hm | now contradiction Hp].
Qed.

(** What [int()] returns on a run of digits is not negative. *)
Lemma int_digits_value s v :
  digits s -> Py.int s = Some v -> v = int_of_digits s 0 /\ 0 <= v.
Proof.
  intros Hd H. destruct (int_on_digits s Hd) as [E Hn]. rewrite E in H.
  destruct (Py.max_str_digits <? String.length s)%nat; [discriminate H|].
  injection H as <-. auto.
Qed.

(** ** The listings *)

Lemma set_keys {K V : Type} (eqb : K -> K -> bool)
  (eqb_eq : forall a b, eqb a b = true <-> a = b) (d : list (K * V)) k v :
  Dict.keys (Dict.set eqb d k v) = Dict.keys d \/
  (~ In k (Dict.keys d) /\ Dict.keys (Dict.set eqb d k v) = (Dict.keys d ++ [k])%list).
Proof.
  induction d as [|[k0 v0] d IH]; simpl.
  - right. split; [tauto | reflexivity].
  - destruct (eqb k0 k) eqn:E; simpl.
    + apply eqb_eq in E. subst. now left.
    + destruct IH as [IH | [Hn IH]].
      * left. now rewrite IH.
      * right. split; [|now rewrite IH].
        intros [H | H]; [|contradiction]. subst.
        rewrite (proj2 (eqb_eq k k) eq_refl) in E. discriminate.
Qed.

Lemma set_keeps_names {V : Type} (P : string -> Prop) (d : list (string * V)) k v :
  NoDup (Dict.keys d) -> (forall x, In x (Dict.keys d) -> P x) -> P k ->
  NoDup (Dict.keys (Dict.set String.eqb d k v)) /\
  (forall x, In x (Dict.keys (Dict.set String.eqb d k v)) -> P x).
Proof.
  intros Hnd Hall Hk.
  destruct (set_keys String.eqb String.eqb_eq d k v) as [E | [Hn E]]; rewrite E.
  - auto.
  - split.
    + apply NoDup_app; [exact Hnd | repeat constructor; simpl; tauto |].
      intros a Ha [<- | []]. contradiction.
    + intros x Hx. apply in_app_or in Hx. destruct Hx as [Hx | [<- | []]]; auto.
Qed.

Lemma get_pvs_lines_names lines :
  forall acc,
  NoDup (Dict.keys acc) -> (forall x, In x (Dict.keys acc) -> hdisk_name x) ->
  NoDup (Dict.keys (fold_left get_pvs_line lines acc)) /\
  (forall x, In x (Dict.keys (fold_left get_pvs_line lines acc)) -> hdisk_name x).
Proof.
  induction lines as [|line rest IH]; intros acc Hnd Hall; simpl; [auto|].
  unfold get_pvs_line at 2 4.
  destruct (Re.re_match Re.pv_line (Py.rstrip line)) as [m|] eqn:E; [|now apply IH].
  apply pv_line_groups in E. destruct E as (x & g2 & g3 & g4 & -> & Hx & Hns & _).
  destruct (set_keeps_names hdisk_name acc (Re.group ["hdisk" ++ x; g2; g3; g4] 1)
              {| pvid := Re.group ["hdisk" ++ x; g2; g3; g4] 2;
                 vg := Re.group ["hdisk" ++ x; g2; g3; g4] 3;
                 pv_status := Re.group ["hdisk" ++ x; g2; g3; g4] 4 |} Hnd Hall)
    as [H1 H2].
  { exists x. auto. }
  now apply IH.
Qed.

Lemma get_pvs_ok_inv module st pvs st' :
  get_pvs module st = (Ret (Some pvs), st') ->
  exists out err,
    host module (map fst (calls st) ++ [cmd_lspv]) = (0, out, err) /\
    pvs = fold_left get_pvs_line (Py.split Py.newline out) [] /\
    calls st' = (calls st ++ [(cmd_lspv, (0, out, err))])%list /\
    results st' = results st.
Proof.
  unfold get_pvs. fold cmd_lspv. intros H.
  unfold bind at 1, run_command at 1 in H. strings_ok_in H.
  destruct (host module (map fst (calls st) ++ [cmd_lspv])) as [[rc out] err] eqn:E.
  cbn [fst snd] in H. destruct (Z.eqb_spec rc 0) as [-> | Hne]; cbn [negb] in H.
  - unfold bind at 1, emit at 1 in H. cbn [results calls journal] in H.
    match type of H with
    | context [bind (for_each ?l ?b) _ ?s] =>
        destruct (for_each_quiet l b) with (st := s) as (st2 & E2 & Hr2 & Hc2)
    end.
    { intros x s. eexists. split; [reflexivity|]. split; reflexivity. }
    rewrite (bind_ret _ _ _ _ _ E2) in H. unfold ret in H.
    injection H as <- <-. exists out, err. repeat split; auto.
  - destruct (command_failed_str ["/usr/ios/cli/ioscli"; "lspv"] (rc, out, err)
                {| results := results st;
                   calls := calls st ++ [(cmd_lspv, (rc, out, err))];
                   journal := journal st |}) as (s1 & E1 & _).
    unfold cmd_lspv in H. rewrite (bind_ret _ _ _ _ _ E1) in H. discriminate H.
Qed.

(** X1: the disks that [get_pvs] returns are named hdisk followed by at
    least one non-blank character, and no name is listed twice. *)
Theorem get_pvs_names module st pvs st' :
  get_pvs module st = (Ret (Some pvs), st') ->
  NoDup (Dict.keys pvs) /\ (forall k, In k (Dict.keys pvs) -> hdisk_name k).
Proof.
  intros H. apply get_pvs_ok_inv in H. destruct H as (out & err & _ & -> & _).
  apply get_pvs_lines_names; [constructor | intros x []].
Qed.

Lemma get_pvs_names_witness :
  exists pvs st',
    get_pvs three_disks initial_state = (Ret (Some pvs), st') /\
    Dict.keys pvs = ["hdisk0"; "hdisk1"; "hdisk2"; "hdisk3"] /\
    NoDup (Dict.keys pvs).
Proof.
  eexists. eexists. split; [vm_compute; reflexivity|].
  split; [vm_compute; reflexivity|].
  eapply (get_pvs_names three_disks initial_state). vm_compute. reflexivity.
Defined.

Lemma rstrip_is_prefix s : exists t, s = Py.rstrip s ++ t.
Proof.
  induction s as [|a s [t IH]]; simpl; [now exists EmptyString|].
  destruct (Py.rstrip s) as [|b r] eqn:E.
  - simpl in IH. subst t. destruct (Py.isspace a).
    + now exists (String a s).
    + now exists s.
  - exists t. simpl. simpl in IH. now rewrite <- IH.
Qed.

Lemma prefix_app l : forall a t,
  String.prefix l a = true -> String.prefix l (a ++ t) = true.
Proof.
  induction l as [|x l IH]; intros a t H.
  - destruct (a ++ t); reflexivity.
  - destruct a as [|y a]; simpl in H; [discriminate|]. simpl.
    destruct (Ascii.ascii_dec x y); [now apply IH | discriminate].
Qed.

Lemma rstrip_keeps_prefix l s :
  String.prefix l (Py.rstrip s) = true -> String.prefix l s = true.
Proof.
  intros H. destruct (rstrip_is_prefix s) as [t E]. rewrite E. now apply prefix_app.
Qed.

(** X2: when [lspv] exits with a non-zero code, [get_pvs] returns [None]
    and leaves the command's output and a message naming the command and
    the code in the results; [changed] is untouched. *)
Theorem get_pvs_failure module st rc out err :
  host module (map fst (calls st) ++ [cmd_lspv]) = (rc, out, err) ->
  rc <> 0 ->
  get_pvs module st
  = (Ret None,
     {| results :=
          {| changed := changed (results st);
             msg := msg_command_failed ["/usr/ios/cli/ioscli"; "lspv"] rc;
             stdout := out; stderr := err |};
        calls := calls st ++ [(cmd_lspv, (rc, out, err))];
        journal := journal st |}).
Proof.
  intros Hh Hrc. unfold get_pvs. fold cmd_lspv.
  unfold bind at 1, run_command at 1. strings_ok. rewrite Hh. cbn [fst snd].
  destruct (Z.eqb_spec rc 0) as [-> | _]; [contradiction|]. reflexivity.
Qed.

Lemma get_pvs_failure_witness :
  fst (get_pvs (scripted [(2, "o", "lspv: not found")]) initial_state) = Ret None /\
  msg (results (snd (get_pvs (scripted [(2, "o", "lspv: not found")]) initial_state)))
  = "Command '/usr/ios/cli/ioscli lspv' failed with return code 2.".
Proof.
  rewrite (get_pvs_failure (scripted [(2, "o", "lspv: not found")]) initial_state
             2 "o" "lspv: not found" eq_refl ltac:(discriminate)).
  split; reflexivity.
Defined.

Lemma get_pvs_lines_none lines :
  (forall line, In line lines -> String.prefix "hdisk" line = false) ->
  forall acc, fold_left get_pvs_line lines acc = acc.
Proof.
  induction lines as [|line rest IH]; intros Hall acc; simpl; [reflexivity|].
  rewrite IH by (intros l Hl; apply Hall; now right).
  unfold get_pvs_line.
  destruct (Re.re_match Re.pv_line (Py.rstrip line)) as [m|] eqn:E; [|reflexivity].
  apply pv_line_groups in E. destruct E as (x & g2 & g3 & g4 & _ & _ & _ & Hp).
  apply rstrip_keeps_prefix in Hp. rewrite (Hall line) in Hp; [discriminate | now left].
Qed.

(** X3: a listing that exits with code 0 and has no line starting with
    hdisk gives the empty mapping, not a failure. *)
Theorem get_pvs_no_disk module st out err :
  host module (map fst (calls st) ++ [cmd_lspv]) = (0, out, err) ->
  (forall line, In line (Py.split Py.newline out) ->
                String.prefix "hdisk" line = false) ->
  exists st',
    get_pvs module st = (Ret (Some []), st') /\ results st' = results st.
Proof.
  intros Hh Hall. unfold get_pvs. fold cmd_lspv.
  unfold bind at 1, run_command at 1. strings_ok. rewrite Hh. cbn [fst snd Z.eqb negb].
  rewrite (get_pvs_lines_none _ Hall). eexists. split; reflexivity.
Qed.

Lemma get_pvs_no_disk_witness :
  exists st',
    get_pvs (scripted [ok lsvg_summary]) initial_state = (Ret (Some []), st') /\
    results st' = results initial_state.
Proof.
  apply (get_pvs_no_disk (scripted [ok lsvg_summary]) initial_state lsvg_summary
           EmptyString eq_refl).
  intros line H. vm_compute in H.
  destruct H as [<- | [<- | [<- | []]]]; reflexivity.
Defined.

Lemma get_free_pvs_lines_names lines :
  forall acc st free st',
  NoDup (Dict.keys acc) -> (forall x, In x (Dict.keys acc) -> hdisk_name x) ->
  get_free_pvs_lines lines acc st = (Ret free, st') ->
  st' = st /\
  NoDup (Dict.keys free) /\ (forall x, In x (Dict.keys free) -> hdisk_name x).
Proof.
  induction lines as [|line rest IH]; intros acc st free st' Hnd Hall H; simpl in H.
  - injection H as <- <-. auto.
  - destruct (Re.re_match Re.free_pv_line (Py.rstrip line)) as [m|] eqn:E;
      [|now apply (IH acc)].
    apply free_pv_line_groups in E.
    destruct E as (x & g2 & g3 & -> & Hx & Hns & _).
    destruct (Py.int (Re.group ["hdisk" ++ x; g2; g3] 3)) as [n|]; [|discriminate H].
    eapply IH; [| |exact H];
      apply (set_keeps_names hdisk_name); auto; exists x; auto.
Qed.

Lemma get_free_pvs_ok_inv module st free st' :
  get_free_pvs module st = (Ret (Some free), st') ->
  exists out err,
    host module (map fst (calls st) ++ [cmd_lspv_free]) = (0, out, err) /\
    calls st' = (calls st ++ [(cmd_lspv_free, (0, out, err))])%list /\
    results st' = results st /\
    NoDup (Dict.keys free) /\ (forall x, In x (Dict.keys free) -> hdisk_name x).
Proof.
  unfold get_free_pvs. fold cmd_lspv_free. intros H.
  unfold bind at 1, run_command at 1 in H. strings_ok_in H.
  destruct (host module (map fst (calls st) ++ [cmd_lspv_free]))
    as [[rc out] err] eqn:E.
  cbn [fst snd] in H. destruct (Z.eqb_spec rc 0) as [-> | Hne]; cbn [negb] in H.
  - apply bind_ret_inv in H. destruct H as (fr & s1 & Hl & H).
    apply get_free_pvs_lines_names in Hl; [|constructor | intros x []].
    destruct Hl as (-> & Hnd & Hall).
    unfold bind at 1, emit at 1 in H. cbn [results calls journal] in H.
    match type of H with
    | context [bind (for_each ?l ?b) _ ?s] =>
        destruct (for_each_quiet l b) with (st := s) as (st2 & E2 & Hr2 & Hc2)
    end.
    { intros x s. eexists. split; [reflexivity|]. split; reflexivity. }
    rewrite (bind_ret _ _ _ _ _ E2) in H. unfold ret in H.
    injection H as <- <-. exists out, err. repeat split; auto.
  - destruct (command_failed_str ["/usr/ios/cli/ioscli"; "lspv"; "-free"] (rc, out, err)
                {| results := results st;
                   calls := calls st ++ [(cmd_lspv_free, (rc, out, err))];
                   journal := journal st |}) as (s1 & E1 & _).
    unfold cmd_lspv_free in H. rewrite (bind_ret _ _ _ _ _ E1) in H. discriminate H.
Qed.

(** X4: the free disks that [get_free_pvs] returns are named hdisk
    followed by at least one non-blank character, no name is listed twice,
    and the results are left as they were. *)
Theorem get_free_pvs_names module st free st' :
  get_free_pvs module st = (Ret (Some free), st') ->
  NoDup (Dict.keys free) /\
  (forall k, In k (Dict.keys free) -> hdisk_name k) /\
  results st' = results st.
Proof.
  intros H. apply get_free_pvs_ok_inv in H.
  destruct H as (out & err & _ & _ & Hr & Hnd & Hall). auto.
Qed.

Lemma get_free_pvs_names_witness :
  exists free st',
    get_free_pvs (scripted [ok lspv_free_three]) initial_state
    = (Ret (Some free), st') /\
    Dict.keys free = ["hdisk1"; "hdisk2"; "hdisk3"] /\
    NoDup (Dict.keys free).
Proof.
  eexists. eexists. split; [vm_compute; reflexivity|].
  split; [vm_compute; reflexivity|].
  eapply (get_free_pvs_names (scripted [ok lspv_free_three]) initial_state).
  vm_compute. reflexivity.
Defined.

Lemma get_free_pvs_lines_bad lines line m :
  In line lines ->
  Re.re_match Re.free_pv_line (Py.rstrip line) = Some m ->
  Py.int (Re.group m 3) = None ->
  forall acc st, get_free_pvs_lines lines acc st = (Raise ValueError, st).
Proof.
  intros Hin Hm Hint.
  induction lines as [|l rest IH]; intros acc st; [contradiction|]. simpl.
  destruct Hin as [-> | Hin].
  - rewrite Hm, Hint. reflexivity.
  - destruct (Re.re_match Re.free_pv_line (Py.rstrip l)) as [m'|]; [|now apply IH].
    destruct (Py.int (Re.group m' 3)); [now apply IH | reflexivity].
Qed.

(** X5: when a line of [lspv -free] has the shape of a disk row but its
    third column is not an integer, [get_free_pvs] raises [ValueError];
    the results are untouched. *)
Theorem get_free_pvs_bad_size module st out err line m :
  host module (map fst (calls st) ++ [cmd_lspv_free]) = (0, out, err) ->
  In line (Py.split Py.newline out) ->
  Re.re_match Re.free_pv_line (Py.rstrip line) = Some m ->
  Py.int (Re.group m 3) = None ->
  exists st',
    get_free_pvs module st = (Raise ValueError, st') /\ results st' = results st.
Proof.
  intros Hh Hin Hm Hint. unfold get_free_pvs. fold cmd_lspv_free.
  unfold bind at 1, run_command at 1. strings_ok. rewrite Hh. cbn [fst snd Z.eqb negb].
  unfold bind at 1. rewrite (get_free_pvs_lines_bad _ _ _ Hin Hm Hint).
  eexists. split; reflexivity.
Qed.

Lemma get_free_pvs_bad_size_witness :
  exists st',
    get_free_pvs (scripted [ok (text ["hdisk1  none  100"; "hdisk2  none  n/a"])])
      initial_state = (Raise ValueError, st') /\
    results st' = results initial_state.
Proof.
  eapply (get_free_pvs_bad_size _ initial_state _ _ "hdisk2  none  n/a").
  - reflexivity.
  - vm_compute. auto.
  - vm_compute. reflexivity.
  - vm_compute. reflexivity.
Defined.

(** ** The inspection only reads *)

Ltac leaf_of_inspection H :=
  unfold command_failed, join_cmd in H; simpl strings_of in H;
  cbv [bind ret raise set_stdout set_stderr set_msg set_results] in H;
  cbn [results calls journal changed msg stdout stderr] in H;
  injection H as <- <-; cbn [results calls journal changed];
  (split; [eauto|]); (split; [reflexivity|]); (split; [reflexivity|]);
  eexists; (split; [rewrite <- ?app_assoc; reflexivity|]);
  (split; [simpl; lia|]);
  (split; [repeat constructor; simpl; intuition discriminate|]);
  unfold inspection_cmd; simpl; intuition (subst; auto).

(** X6: the inspection only runs the three [lsvg] queries, at most one of
    each; it keeps [changed] and the journal as they were, and it ends by
    returning (a dictionary or [None]), on the lookup of copy 1
    ([KeyError]) or on a number that [int()] refuses ([ValueError]),
    never by [fail_json]. *)
Theorem check_rootvg_reads_only module st o st' :
  check_rootvg module st = (o, st') ->
  (o = Raise KeyError \/ o = Raise ValueError \/ exists v, o = Ret v) /\
  changed (results st') = changed (results st) /\
  journal st' = journal st /\
  exists new,
    calls st' = (calls st ++ new)%list /\
    (List.length new <= 3)%nat /\
    NoDup (map fst new) /\
    forall c, In c new -> inspection_cmd (fst c).
Proof.
  unfold check_rootvg. intros H.
  unfold bind at 1, run_command at 1 in H. strings_ok_in H.
  destruct (host module (map fst (calls st) ++ [cmd_lsvg_M])) as [[rc out] err].
  destruct (negb (rc =? 0)); [leaf_of_inspection H|].
  destruct (Py.find out "stale" >? 0); [leaf_of_inspection H|].
  destruct (map_loop (Py.split Py.newline out)
              {| nb_lp := 0; hdisk_dict := []; copy_dict_acc := [] |})
    as [e | [m | acc]] eqn:Em;
    [apply map_loop_raises in Em; subst e; leaf_of_inspection H
    | leaf_of_inspection H |].
  clear Em. destruct (Dict.len (copy_dict_acc acc) >? 1).
  - destruct (negb (Dict.len (copy_dict_acc acc) =? Dict.len (hdisk_dict acc)));
      [leaf_of_inspection H|].
    unfold bind at 1 in H. unfold bind at 1, run_command at 1 in H. strings_ok_in H.
    cbn [calls results journal] in H.
    match type of H with
    | context [host module ?l] => destruct (host module l) as [[rcP outP] errP]
    end.
    cbn [fst snd] in H.
    destruct (negb (rcP =? 0)); [leaf_of_inspection H|].
    destruct (pv_size_loop (Py.split Py.newline outP)
                (Dict.get Z.eqb (copy_dict_acc acc) 1) (-1)) as [e | pv_size] eqn:El.
    { apply pv_size_loop_raises in El.
      destruct El as [-> | ->]; leaf_of_inspection H. }
    clear El. destruct (pv_size =? -1); [leaf_of_inspection H|].
    unfold ret at 1 in H.
    unfold bind at 1, run_command at 1 in H. strings_ok_in H. cbn [calls results journal] in H.
    match type of H with
    | context [host module ?l] => destruct (host module l) as [[rcS outS] errS]
    end.
    cbn [fst snd] in H.
    destruct (negb (rcS =? 0)); [leaf_of_inspection H|].
    destruct (summary_loop outS) as [e | [total_size pp_size]] eqn:Es;
      [apply summary_loop_raises in Es; subst e; leaf_of_inspection H|].
    destruct (pp_size =? -1); leaf_of_inspection H.
  - unfold bind at 1, ret at 1 in H.
    unfold bind at 1, run_command at 1 in H. strings_ok_in H. cbn [calls results journal] in H.
    match type of H with
    | context [host module ?l] => destruct (host module l) as [[rcS outS] errS]
    end.
    cbn [fst snd] in H.
    destruct (negb (rcS =? 0)); [leaf_of_inspection H|].
    destruct (summary_loop outS) as [e | [total_size pp_size]] eqn:Es;
      [apply summary_loop_raises in Es; subst e; leaf_of_inspection H|].
    destruct (pp_size =? -1); leaf_of_inspection H.
Qed.

Lemma check_rootvg_reads_only_witness :
  exists o st',
    check_rootvg (mirrored_host 0 (ok EmptyString)) initial_state = (o, st') /\
    map fst (calls st') = [cmd_lsvg_M; cmd_lsvg_p; cmd_lsvg] /\
    changed (results st') = false.
Proof.
  eexists. eexists. split; [vm_compute; reflexivity|].
  split; [vm_compute; reflexivity|].
  destruct (check_rootvg_reads_only (mirrored_host 0 (ok EmptyString)) initial_state
              _ _ ltac:(vm_compute; reflexivity)) as (_ & Hch & _).
  exact Hch.
Defined.

(** ** One disk per copy *)

Lemma in_get {V : Type} (d : list (Z * V)) k v :
  NoDup (Dict.keys d) -> In (k, v) d -> Dict.get Z.eqb d k = Some v.
Proof.
  induction d as [|[k0 v0] d IH]; simpl; intros Hnd Hin; [contradiction|].
  inversion Hnd as [|? ? Hn Hnd']; subst.
  destruct Hin as [[= -> ->] | Hin].
  - now rewrite Z.eqb_refl.
  - destruct (Z.eqb_spec k0 k) as [-> | _]; [|now apply IH].
    exfalso. apply Hn. change (In (fst (k, v)) (map fst d)). now apply in_map.
Qed.

Lemma map_entry_more acc d c acc' :
  map_entry acc d c = inr acc' ->
  (forall c' d', In (c', d') (copy_dict_acc acc') ->
                 In (c', d') (copy_dict_acc acc) \/ (c', d') = (c, d)) /\
  (forall d', In d' (Dict.keys (hdisk_dict acc')) <->
              In d' (Dict.keys (hdisk_dict acc)) \/ d' = d) /\
  (NoDup (Dict.keys (hdisk_dict acc)) -> NoDup (Dict.keys (hdisk_dict acc'))).
Proof.
  unfold map_entry. intros H.
  assert (Hhd : exists hd,
    (match Dict.get String.eqb (hdisk_dict acc) d with
     | Some c0 => if negb (c0 =? c) then inl msg_two_copies else inr (hdisk_dict acc)
     | None => inr (Dict.set String.eqb (hdisk_dict acc) d c)
     end) = inr hd /\
    (forall d', In d' (Dict.keys hd) <-> In d' (Dict.keys (hdisk_dict acc)) \/ d' = d) /\
    (NoDup (Dict.keys (hdisk_dict acc)) -> NoDup (Dict.keys hd))).
  { destruct (Dict.get String.eqb (hdisk_dict acc) d) as [c0|] eqn:E.
    - destruct (negb (c0 =? c)); [discriminate H|].
      exists (hdisk_dict acc). split; [reflexivity|]. split; [|auto].
      intros d'. split; [auto|]. intros [Hin | ->]; [exact Hin|].
      destruct (in_dec string_dec d (Dict.keys (hdisk_dict acc))) as [Hi | Hn];
        [exact Hi|].
      apply (get_none_keys _ string_eqb_eq) in Hn. congruence.
    - exists (Dict.set String.eqb (hdisk_dict acc) d c). split; [reflexivity|].
      rewrite (set_fresh _ _ _ _ E). unfold Dict.keys. rewrite map_app. cbn [map fst].
      apply (get_none_keys _ string_eqb_eq) in E.
      split.
      + intros d'. rewrite in_app_iff. simpl. intuition.
      + intros Hnd. apply NoDup_app; [exact Hnd | repeat constructor; simpl; tauto |].
        intros a Ha [<- | []]. now apply E. }
  destruct Hhd as (hd & Ehd & Hk & Hnd). rewrite Ehd in H.
  destruct (negb (Dict.mem Z.eqb (copy_dict_acc acc) c)).
  - destruct (existsb (String.eqb d) (Dict.values (copy_dict_acc acc)));
      [discriminate H|].
    injection H as <-. cbn [hdisk_dict copy_dict_acc].
    split; [|auto]. intros c' d' Hin.
    assert (Hset : forall (l : list (Z * string)),
              In (c', d') (Dict.set Z.eqb l c d) -> In (c', d') l \/ (c', d') = (c, d)).
    { induction l as [|[k0 v0] l IHl]; simpl.
      - intros [E | []]; auto.
      - destruct (k0 =? c); simpl; intros [E | Hi]; auto.
        destruct (IHl Hi); auto. }
    now apply Hset.
  - injection H as <-. cbn [hdisk_dict copy_dict_acc]. auto.
Qed.

Lemma entries_loop_more es :
  forall acc acc',
  entries_loop es acc = inr acc' ->
  (forall c d, In (c, d) (copy_dict_acc acc') ->
               In (c, d) (copy_dict_acc acc) \/ In (d, c) es) /\
  (forall d, In d (Dict.keys (hdisk_dict acc')) <->
             In d (Dict.keys (hdisk_dict acc)) \/ In d (map fst es)) /\
  (NoDup (Dict.keys (hdisk_dict acc)) -> NoDup (Dict.keys (hdisk_dict acc'))).
Proof.
  induction es as [|[d c] es IH]; intros acc acc' H; simpl in H.
  - injection H as <-. simpl. repeat split; auto; tauto.
  - destruct (map_entry acc d c) as [m | acc1] eqn:E; [discriminate H|].
    apply map_entry_more in E. destruct E as (E1 & E2 & E3).
    apply IH in H. destruct H as (H1 & H2 & H3).
    split; [|split].
    + intros c' d' Hin. apply H1 in Hin. destruct Hin as [Hin | Hin]; [|simpl; auto].
      apply E1 in Hin. destruct Hin as [Hin | [= -> ->]]; simpl; auto.
    + intros d'. rewrite H2, E2. cbn [map fst In]. intuition.
    + auto.
Qed.

(** X7: when the inspection returns OK with more than one copy number,
    every copy lies on one disk: each line of the mirror map names the
    disk that the copy_dict gives for its copy number. *)
Theorem mirrored_one_disk_per_copy module st info st' :
  check_rootvg module st = (Ret (Some info), st') ->
  Dict.len (copy_dict info) > 1 ->
  forall d c, seen module st d c -> Dict.get Z.eqb (copy_dict info) c = Some d.
Proof.
  intros H Hm d c Hseen. unfold seen in Hseen.
  apply check_rootvg_ok in H.
  destruct H as (outM & errM & acc & outS & errS & total & pp & Hh & Hloop & Hcd
                 & _ & _ & _ & _ & Hcase).
  rewrite Hh in Hseen. cbn [fst snd] in Hseen. rewrite Hcd in *.
  destruct Hcase as [(_ & Hlen & _) | (Hle & _)]; [|lia].
  apply map_loop_entries in Hloop. fold (map_entries outM) in Hloop.
  pose proof (entries_loop_ok _ _ _ Hloop) as (_ & _ & Hs & _ & Hk & Hv).
  pose proof (entries_loop_more _ _ _ Hloop) as (Hfrom & Hkeys & Hnd).
  cbn [init_acc copy_dict_acc hdisk_dict Dict.keys Dict.values map] in *.
  specialize (Hk (NoDup_nil _)). specialize (Hv (NoDup_nil _)).
  specialize (Hnd (NoDup_nil _)).
  assert (Hincl : incl (Dict.values (copy_dict_acc acc)) (Dict.keys (hdisk_dict acc))).
  { intros x Hx. unfold Dict.values in Hx. apply in_map_iff in Hx.
    destruct Hx as ([c0 d0] & <- & Hin). cbn [snd]. apply Hfrom in Hin.
    destruct Hin as [[] | Hin]. apply Hkeys. right.
    change d0 with (fst (d0, c0)). now apply in_map. }
  assert (Hback : incl (Dict.keys (hdisk_dict acc)) (Dict.values (copy_dict_acc acc))).
  { apply NoDup_length_incl; [exact Hv | | exact Hincl].
    unfold Dict.len in Hlen. unfold Dict.keys, Dict.values.
    rewrite !length_map. lia. }
  assert (Hd : In d (Dict.values (copy_dict_acc acc))).
  { apply Hback. apply Hkeys. right.
    change d with (fst (d, c)). now apply in_map. }
  unfold Dict.values in Hd. apply in_map_iff in Hd.
  destruct Hd as ([c0 d0] & Hd0 & Hin). cbn [snd] in Hd0. subst d0.
  assert (c0 = c).
  { destruct (Hfrom _ _ Hin) as [[] | Hin'].
    apply Hs in Hin'. apply Hs in Hseen. congruence. }
  subst c0. now apply in_get.
Qed.

Lemma mirrored_one_disk_per_copy_witness :
  exists info st',
    check_rootvg (mirrored_host 0 (ok EmptyString)) initial_state
    = (Ret (Some info), st') /\
    seen (mirrored_host 0 (ok EmptyString)) initial_state "hdisk8" 2 /\
    Dict.get Z.eqb (copy_dict info) 2 = Some "hdisk8".
Proof.
  eexists. eexists. split; [vm_compute; reflexivity|].
  assert (Hs : seen (mirrored_host 0 (ok EmptyString)) initial_state "hdisk8" 2).
  { vm_compute. auto 8. }
  split; [exact Hs|].
  apply (mirrored_one_disk_per_copy (mirrored_host 0 (ok EmptyString)) initial_state
           _ _ ltac:(vm_compute; reflexivity) ltac:(vm_compute; reflexivity) _ _ Hs).
Defined.

(** ** The sorted inventory *)

Lemma insert_by_size_sorted e l :
  StronglySorted le_size l -> StronglySorted le_size (insert_by_size e l).
Proof.
  induction l as [|x l IH]; intros Hs; simpl.
  - repeat constructor.
  - inversion Hs as [|? ? Hs' Hall]; subst.
    destruct (Z.leb_spec (size (snd e)) (size (snd x))) as [Hle | Hgt].
    + constructor; [exact Hs|]. constructor; [exact Hle|].
      rewrite Forall_forall in *. intros y Hy. specialize (Hall y Hy).
      unfold le_size, sz in *. lia.
    + constructor; [now apply IH|].
      rewrite Forall_forall in *. intros y Hy. apply insert_by_size_in in Hy.
      destruct Hy as [-> | Hy]; [unfold le_size, sz; lia | now apply Hall].
Qed.

Lemma sorted_by_size_sorted pvs : StronglySorted le_size (sorted_by_size pvs).
Proof.
  unfold sorted_by_size. induction pvs as [|e pvs IH]; simpl; [constructor|].
  now apply insert_by_size_sorted.
Qed.

Lemma split_sorted (t : Z) l :
  StronglySorted le_size l ->
  exists l1 l2,
    l = (l1 ++ l2)%list /\
    (forall e, In e l1 -> sz e < t) /\
    (forall e, In e l2 -> t <= sz e) /\
    StronglySorted le_size l2.
Proof.
  induction l as [|x l IH]; intros Hs.
  - exists [], []. split; [reflexivity|]. split; [intros ? []|].
    split; [intros ? [] | constructor].
  - inversion Hs as [|? ? Hs' Hall]; subst.
    destruct (Z.lt_ge_cases (sz x) t) as [Hlt | Hge].
    + destruct (IH Hs') as (l1 & l2 & -> & H1 & H2 & H3).
      exists (x :: l1), l2. repeat split; auto.
      intros e [<- | He]; auto.
    + exists [], (x :: l). split; [reflexivity|]. split; [intros ? []|].
      split; [|exact Hs].
      intros e [<- | He]; [exact Hge|].
      rewrite Forall_forall in Hall. specialize (Hall e He).
      unfold le_size in Hall. lia.
Qed.

Lemma sorted_last_max (m0 : list (string * free_pv)) ep :
  StronglySorted le_size (m0 ++ [ep]) -> forall e, In e (m0 ++ [ep]) -> sz e <= sz ep.
Proof.
  induction m0 as [|x m0 IH]; simpl; intros Hs e He.
  - destruct He as [<- | []]. lia.
  - inversion Hs as [|? ? Hs' Hall]; subst.
    destruct He as [<- | He]; [|now apply IH].
    rewrite Forall_forall in Hall. apply (Hall ep). apply in_or_app. right. now left.
Qed.

Lemma sorted_head_min (e0 : string * free_pv) l :
  StronglySorted le_size (e0 :: l) -> forall e, In e (e0 :: l) -> sz e0 <= sz e.
Proof.
  intros Hs e [<- | He]; [lia|].
  inversion Hs as [|? ? _ Hall]; subst. rewrite Forall_forall in Hall.
  now apply Hall.
Qed.

Lemma sorted_app_l (l1 l2 : list (string * free_pv)) :
  StronglySorted le_size (l1 ++ l2) -> StronglySorted le_size l1.
Proof.
  induction l1 as [|x l1 IH]; simpl; intros Hs; [constructor|].
  inversion Hs as [|? ? Hs' Hall]; subst. constructor; [now apply IH|].
  rewrite Forall_forall in *. intros y Hy. apply Hall. apply in_or_app. now left.
Qed.

(** ** The scan of the automatic mode *)

Lemma scan_skip used total policy l1 :
  (forall e, In e l1 -> sz e < used) ->
  forall l prev pd,
    scan_free_disks used total policy (l1 ++ l) prev pd
    = scan_free_disks used total policy l prev pd.
Proof.
  induction l1 as [|[h i] l1 IH]; intros Hall l prev pd; simpl; [reflexivity|].
  assert (Hs : sz (h, i) < used) by (apply Hall; now left). unfold sz in Hs. simpl in Hs.
  destruct (Z.ltb_spec (size i) used); [|lia].
  apply IH. intros e He. apply Hall. now right.
Qed.

Lemma scan_below used total policy m1 :
  policy <> minimize ->
  (forall e, In e m1 -> used <= sz e < total) ->
  forall l prev pd,
    scan_free_disks used total policy (m1 ++ l) prev pd
    = match rev m1 with
      | [] => scan_free_disks used total policy l prev pd
      | ep :: _ => scan_free_disks used total policy l (fst ep) (sz ep - total)
      end.
Proof.
  intros Hp. induction m1 as [|[h i] m1 IH]; intros Hall l prev pd;
    [reflexivity|].
  assert (Hs : used <= sz (h, i) < total) by (apply Hall; now left).
  unfold sz in Hs. simpl in Hs.
  cbn [app scan_free_disks].
  destruct (Z.ltb_spec (size i) used); [lia|].
  destruct (Z.eqb_spec (size i - total) 0); [lia|].
  destruct (Z.gtb_spec (size i - total) 0); [lia|].
  assert (E : scan_free_disks used total policy (m1 ++ l) h (size i - total)
              = match rev ((h, i) :: m1) with
                | [] => scan_free_disks used total policy l prev pd
                | ep :: _ => scan_free_disks used total policy l (fst ep) (sz ep - total)
                end).
  { rewrite IH by (intros e He; apply Hall; now right).
    simpl rev. destruct (rev m1) as [|ep r]; reflexivity. }
  destruct policy; [contradiction | exact E | exact E | exact E].
Qed.

Lemma hdisk_name_nonempty k : hdisk_name k -> k <> EmptyString.
Proof. intros (x & -> & _). discriminate. Qed.

Lemma auto_select_inv module info policy force st st1 st2 free l st3 :
  clear_existing_altdisk module info force st = (Ret tt, st1) ->
  get_free_pvs module st1 = (Ret (Some free), st2) ->
  find_valid_altdisk module [] info policy force st = (Ret l, st3) ->
  l = [settled (scan_free_disks (used_size info) (rootvg_size info) policy
                  (sorted_by_size free) EmptyString 0)] /\
  settled (scan_free_disks (used_size info) (rootvg_size info) policy
             (sorted_by_size free) EmptyString 0) <> EmptyString /\
  results st3 = results st2 /\ calls st3 = calls st2.
Proof.
  intros Hclear Hfree H. unfold find_valid_altdisk in H.
  rewrite (bind_ret _ _ _ _ _ Hclear), (bind_ret _ _ _ _ _ Hfree) in H.
  destruct free as [|e free]; [fails_in H|].
  unfold select_altdisk in H. unfold settled.
  destruct (scan_free_disks (used_size info) (rootvg_size info) policy
              (sorted_by_size (e :: free)) EmptyString 0) as [sel prev].
  cbn [fst snd].
  destruct (String.eqb_spec sel EmptyString) as [-> | Hsel].
  - destruct (String.eqb_spec prev EmptyString) as [Hp | Hprev]; cbn [negb] in H.
    { apply bind_ret_inv in H. destruct H as (? & ? & H' & _). fails_in H'. }
    cbv [bind ret emit] in H. injection H as <- <-. repeat split; auto.
  - cbv [bind ret emit] in H. injection H as <- <-. repeat split; auto.
Qed.

Lemma auto_select_run module info policy force st st1 st2 free :
  clear_existing_altdisk module info force st = (Ret tt, st1) ->
  get_free_pvs module st1 = (Ret (Some free), st2) ->
  settled (scan_free_disks (used_size info) (rootvg_size info) policy
             (sorted_by_size free) EmptyString 0) <> EmptyString ->
  exists st3,
    find_valid_altdisk module [] info policy force st
    = (Ret [settled (scan_free_disks (used_size info) (rootvg_size info) policy
                       (sorted_by_size free) EmptyString 0)], st3).
Proof.
  intros Hclear Hfree Hd. unfold find_valid_altdisk.
  rewrite (bind_ret _ _ _ _ _ Hclear), (bind_ret _ _ _ _ _ Hfree).
  destruct free as [|e free]; [now contradiction Hd|].
  unfold select_altdisk. unfold settled in *.
  destruct (scan_free_disks (used_size info) (rootvg_size info) policy
              (sorted_by_size (e :: free)) EmptyString 0) as [sel prev].
  cbn [fst snd] in *.
  destruct (String.eqb_spec sel EmptyString) as [-> | Hsel].
  - destruct (String.eqb_spec prev EmptyString) as [Hp | Hprev]; [contradiction|].
    eexists. reflexivity.
  - eexists. reflexivity.
Qed.

Lemma scan_sound used total policy disks :
  forall prev pd sel prev',
  scan_free_disks used total policy disks prev pd = (sel, prev') ->
  (sel = EmptyString \/ sel = prev \/ exists i, In (sel, i) disks /\ used <= size i) /\
  (prev' = prev \/ exists i, In (prev', i) disks /\ used <= size i).
Proof.
  induction disks as [|[h i] disks IH]; intros prev pd sel prev' H; simpl in H.
  - injection H as <- <-. auto.
  - assert (Hrec : forall p q,
      scan_free_disks used total policy disks p q = (sel, prev') ->
      (sel = EmptyString \/ sel = p \/
       exists i0, In (sel, i0) ((h, i) :: disks) /\ used <= size i0) /\
      (prev' = p \/ exists i0, In (prev', i0) ((h, i) :: disks) /\ used <= size i0)).
    { intros p q Hq. apply IH in Hq. destruct Hq as [Hs Hp]. split.
      - destruct Hs as [Hs | [Hs | (i0 & Hin & Hu)]]; auto.
        right. right. exists i0. simpl. auto.
      - destruct Hp as [Hp | (i0 & Hin & Hu)]; auto.
        right. exists i0. simpl. auto. }
    destruct (Z.ltb_spec (size i) used) as [Hlt | Hge]; [exact (Hrec _ _ H)|].
    assert (Hme : exists i0, In (h, i0) ((h, i) :: disks) /\ used <= size i0).
    { exists i. simpl. auto. }
    assert (Hcont :
      scan_free_disks used total policy disks h (size i - total) = (sel, prev') ->
      (sel = EmptyString \/ sel = prev \/
       exists i0, In (sel, i0) ((h, i) :: disks) /\ used <= size i0) /\
      (prev' = prev \/ exists i0, In (prev', i0) ((h, i) :: disks) /\ used <= size i0)).
    { intros Hq. apply Hrec in Hq. destruct Hq as [Hs Hp]. split.
      - destruct Hs as [Hs | [Hs | Hs]]; subst; auto.
      - destruct Hp as [Hp | Hp]; subst; auto. }
    destruct policy;
      repeat match type of H with
             | (if ?c then _ else _) = _ => destruct c
             end;
      try (injection H as <- <-; auto);
      try (now apply Hcont).
Qed.

(** X8: whatever the policy, the disk that the automatic selection
    returns is a disk of the free inventory whose capacity is at least
    the used size; the results and the commands run are those of the
    inventory query. *)
Theorem auto_select_floor module info policy force st st1 st2 free l st3 :
  clear_existing_altdisk module info force st = (Ret tt, st1) ->
  get_free_pvs module st1 = (Ret (Some free), st2) ->
  find_valid_altdisk module [] info policy force st = (Ret l, st3) ->
  exists d i,
    l = [d] /\ In (d, i) free /\ used_size info <= size i /\
    results st3 = results st2 /\ calls st3 = calls st2.
Proof.
  intros Hclear Hfree H.
  destruct (auto_select_inv _ _ _ _ _ _ _ _ _ _ Hclear Hfree H)
    as (-> & Hne & Hr & Hc).
  unfold settled in *.
  destruct (scan_free_disks (used_size info) (rootvg_size info) policy
              (sorted_by_size free) EmptyString 0) as [sel prev] eqn:E.
  apply scan_sound in E. destruct E as [Hs Hp]. cbn [fst snd] in *.
  destruct (String.eqb_spec sel EmptyString) as [-> | Hsel].
  - destruct Hp as [-> | (i & Hin & Hu)]; [contradiction|].
    exists prev, i. apply (proj1 (sorted_by_size_in _ _)) in Hin. auto.
  - destruct Hs as [-> | [-> | (i & Hin & Hu)]]; try contradiction.
    exists sel, i. apply (proj1 (sorted_by_size_in _ _)) in Hin. auto.
Qed.

Lemma auto_select_floor_witness :
  exists d i,
    fst (find_valid_altdisk three_disks [] (rootvg_of 140 90) lower false initial_state)
    = Ret [d] /\
    In (d, i) [("hdisk1", {| free_pvid := "none"; size := 100 |});
               ("hdisk2", {| free_pvid := "none"; size := 150 |});
               ("hdisk3", {| free_pvid := "none"; size := 200 |})] /\
    90 <= size i.
Proof.
  destruct (auto_select_floor three_disks (rootvg_of 140 90) lower false initial_state
              _ _ _ _ _ ltac:(vm_compute; reflexivity) ltac:(vm_compute; reflexivity)
              ltac:(vm_compute; reflexivity))
    as (d & i & Hl & Hin & Hu & _).
  exists d, i. split; [rewrite <- Hl; vm_compute; reflexivity|].
  split; [exact Hin | exact Hu].
Defined.

Lemma scan_keeps_prev used total policy disks :
  (forall e, In e disks -> fst e <> EmptyString) ->
  forall prev pd,
  prev <> EmptyString ->
  settled (scan_free_disks used total policy disks prev pd) <> EmptyString.
Proof.
  induction disks as [|[h i] disks IH]; intros Hn prev pd Hp; simpl.
  - exact Hp.
  - assert (Hh : h <> EmptyString) by (apply (Hn (h, i)); now left).
    assert (Hn' : forall e, In e disks -> fst e <> EmptyString)
      by (intros e He; apply Hn; now right).
    assert (Hsel : forall p, settled (h, p) <> EmptyString).
    { intros p. unfold settled. cbn [fst snd].
      destruct (String.eqb_spec h EmptyString); [contradiction | exact Hh]. }
    assert (Hprev : settled (prev, prev) <> EmptyString).
    { unfold settled. cbn [fst snd].
      destruct (String.eqb_spec prev EmptyString); [contradiction | exact Hp]. }
    destruct (size i <? used); [now apply IH|].
    destruct policy;
      repeat match goal with
             | |- settled (if ?c then _ else _) <> _ => destruct c
             end;
      auto.
Qed.

Lemma scan_finds used total policy disks :
  (forall e, In e disks -> fst e <> EmptyString) ->
  (exists e, In e disks /\ used <= sz e) ->
  forall prev pd,
  settled (scan_free_disks used total policy disks prev pd) <> EmptyString.
Proof.
  induction disks as [|[h i] disks IH]; intros Hn (e & He & Hu) prev pd.
  - contradiction.
  - simpl.
    assert (Hh : h <> EmptyString) by (apply (Hn (h, i)); now left).
    assert (Hn' : forall e, In e disks -> fst e <> EmptyString)
      by (intros x Hx; apply Hn; now right).
    assert (Hsel : forall p, settled (h, p) <> EmptyString).
    { intros p. unfold settled. cbn [fst snd].
      destruct (String.eqb_spec h EmptyString); [contradiction | exact Hh]. }
    destruct (Z.ltb_spec (size i) used) as [Hlt | Hge].
    + apply IH; [exact Hn'|]. destruct He as [<- | He].
      * unfold sz in Hu. simpl in Hu. lia.
      * now exists e.
    + assert (Hk := scan_keeps_prev used total policy disks Hn' h (size i - total) Hh).
      assert (Hlow : forall p : string,
                settled (if String.eqb p EmptyString then (h, p) else (p, p))
                <> EmptyString).
      { intros p. destruct (String.eqb_spec p EmptyString) as [-> | Hp]; [apply Hsel|].
        unfold settled. cbn [fst snd].
        destruct (String.eqb_spec p EmptyString); [contradiction | exact Hp]. }
      destruct policy;
        repeat match goal with
               | |- settled (if (_ =? 0) then _ else _) <> _ =>
                   destruct (size i - total =? 0)
               | |- settled (if (_ >? 0) then _ else _) <> _ =>
                   destruct (size i - total >? 0)
               end;
        auto.
      destruct (String.eqb_spec prev EmptyString) as [-> | Hp]; [apply Hsel|].
      destruct (Z.abs pd >? size i - total); [apply Hsel|].
      unfold settled. cbn [fst snd].
      destruct (String.eqb_spec prev EmptyString); [contradiction | exact Hp].
Qed.

(** X9: the automatic selection succeeds as soon as one free disk is at
    least as large as the used size, whatever the policy. *)
Theorem auto_select_succeeds module info policy force st st1 st2 free e :
  clear_existing_altdisk module info force st = (Ret tt, st1) ->
  get_free_pvs module st1 = (Ret (Some free), st2) ->
  In e free -> used_size info <= sz e ->
  exists d st3, find_valid_altdisk module [] info policy force st = (Ret [d], st3).
Proof.
  intros Hclear Hfree He Hu.
  destruct (get_free_pvs_ok_inv _ _ _ _ Hfree) as (out & err & _ & _ & _ & _ & Hnames).
  destruct (auto_select_run module info policy force st st1 st2 free Hclear Hfree)
    as (st3 & H).
  - apply scan_finds.
    + intros x Hx. apply hdisk_name_nonempty. apply Hnames.
      apply (proj1 (sorted_by_size_in _ _)) in Hx. unfold Dict.keys.
      now apply in_map.
    + exists e. split; [now apply (proj2 (sorted_by_size_in _ _)) | exact Hu].
  - eexists. exists st3. exact H.
Qed.

Lemma auto_select_succeeds_witness :
  exists d st3,
    find_valid_altdisk three_disks [] (rootvg_of 500 190) upper false initial_state
    = (Ret [d], st3).
Proof.
  apply (auto_select_succeeds three_disks (rootvg_of 500 190) upper false
           initial_state _ _ _ ("hdisk3", {| free_pvid := "none"; size := 200 |})
           ltac:(vm_compute; reflexivity) ltac:(vm_compute; reflexivity)).
  - simpl. auto.
  - vm_compute. discriminate.
Defined.

(** X10: under the policy minimize the automatic selection returns a
    smallest free disk among those that hold the used size. *)
Theorem minimize_selects_smallest module info force st st1 st2 free l st3 :
  clear_existing_altdisk module info force st = (Ret tt, st1) ->
  get_free_pvs module st1 = (Ret (Some free), st2) ->
  find_valid_altdisk module [] info minimize force st = (Ret l, st3) ->
  exists d i,
    l = [d] /\ In (d, i) free /\ used_size info <= size i /\
    forall e, In e free -> used_size info <= sz e -> size i <= sz e.
Proof.
  intros Hclear Hfree H.
  destruct (auto_select_inv _ _ _ _ _ _ _ _ _ _ Hclear Hfree H) as (-> & Hne & _).
  destruct (split_sorted (used_size info) _ (sorted_by_size_sorted free))
    as (l1 & l2 & EL & H1 & H2 & Hs2).
  assert (Hin : forall e, In e free <-> In e l1 \/ In e l2).
  { intros e. rewrite <- (sorted_by_size_in free e), EL. apply in_app_iff. }
  rewrite EL, (scan_skip _ _ _ _ H1) in *.
  destruct l2 as [|[h i] l2]; [now contradiction Hne|].
  assert (Hu : used_size info <= size i) by (apply (H2 (h, i)); now left).
  simpl. destruct (Z.ltb_spec (size i) (used_size info)); [lia|].
  exists h, i. unfold settled. cbn [fst snd].
  split; [destruct (String.eqb_spec h EmptyString); congruence|].
  split; [apply Hin; right; now left|]. split; [exact Hu|].
  intros e He Hue. apply Hin in He. destruct He as [He | He].
  - specialize (H1 e He). lia.
  - apply (sorted_head_min _ _ Hs2 e He).
Qed.

Lemma minimize_selects_smallest_witness :
  exists d i,
    fst (find_valid_altdisk three_disks [] (rootvg_of 500 120) minimize false
           initial_state) = Ret [d] /\
    size i = 150 /\
    forall e,
      In e [("hdisk1", {| free_pvid := "none"; size := 100 |});
            ("hdisk2", {| free_pvid := "none"; size := 150 |});
            ("hdisk3", {| free_pvid := "none"; size := 200 |})] ->
      120 <= sz e -> size i <= sz e.
Proof.
  destruct (minimize_selects_smallest three_disks (rootvg_of 500 120) false
              initial_state _ _ _ _ _
              ltac:(vm_compute; reflexivity) ltac:(vm_compute; reflexivity)
              ltac:(vm_compute; reflexivity))
    as (d & i & Hl & Hin & Hu & Hmin).
  exists d, i. split; [rewrite <- Hl; vm_compute; reflexivity|].
  split; [|exact Hmin].
  injection Hl as <-.
  destruct Hin as [[= <-] | [[= <-] | [[= <-] | []]]]; reflexivity.
Defined.

Lemma settled_name (a b : string) : a <> EmptyString -> settled (a, b) = a.
Proof.
  intros Ha. unfold settled. cbn [fst snd].
  destruct (String.eqb_spec a EmptyString); [contradiction | reflexivity].
Qed.

Lemma scan_cases used total policy L :
  policy <> minimize ->
  StronglySorted le_size L ->
  (forall e, In e L -> fst e <> EmptyString) ->
  settled (scan_free_disks used total policy L EmptyString 0) <> EmptyString ->
  exists below above,
    (forall e, In e L -> used <= sz e -> In e below \/ In e above) /\
    (forall e, In e below -> In e L /\ used <= sz e < total) /\
    (forall e, In e above -> In e L /\ used <= sz e /\ total <= sz e) /\
    ((above = [] /\
      exists ep, In ep below /\ (forall e, In e below -> sz e <= sz ep) /\
                 settled (scan_free_disks used total policy L EmptyString 0) = fst ep)
     \/
     (exists e0,
        In e0 above /\ (forall e, In e above -> sz e0 <= sz e) /\
        ((sz e0 = total /\
          settled (scan_free_disks used total policy L EmptyString 0) = fst e0)
         \/
         (total < sz e0 /\ below = [] /\
          settled (scan_free_disks used total policy L EmptyString 0) = fst e0)
         \/
         (total < sz e0 /\
          exists ep,
            In ep below /\ (forall e, In e below -> sz e <= sz ep) /\
            settled (scan_free_disks used total policy L EmptyString 0)
            = match policy with
              | upper => fst e0
              | lower => fst ep
              | _ => if Z.abs (sz ep - total) >? sz e0 - total
                     then fst e0 else fst ep
              end)))).
Proof.
  intros Hp Hs Hn Hne.
  destruct (split_sorted used L Hs) as (l1 & l2 & EL & H1 & H2 & Hs2).
  destruct (split_sorted total l2 Hs2) as (m1 & m2 & El2 & Hm1 & Hm2 & Hsm2).
  assert (Hsm1 : StronglySorted le_size m1) by (rewrite El2 in Hs2; now apply sorted_app_l in Hs2).
  assert (Hb : forall e, In e m1 -> used <= sz e < total).
  { intros e He. split; [apply H2; rewrite El2; apply in_or_app; now left | now apply Hm1]. }
  exists m1, m2.
  assert (HinL : forall e, In e L <-> In e l1 \/ In e m1 \/ In e m2).
  { intros e. rewrite EL, El2, !in_app_iff. tauto. }
  split.
  { intros e He Hu. apply HinL in He. destruct He as [He | He]; [|exact He].
    specialize (H1 e He). lia. }
  split.
  { intros e He. split; [apply HinL; auto | now apply Hb]. }
  split.
  { intros e He. split; [apply HinL; auto|].
    split; [apply H2; rewrite El2; apply in_or_app; now right | now apply Hm2]. }
  assert (E : scan_free_disks used total policy L EmptyString 0
              = match rev m1 with
                | [] => scan_free_disks used total policy m2 EmptyString 0
                | ep :: _ => scan_free_disks used total policy m2 (fst ep) (sz ep - total)
                end).
  { rewrite EL, El2, (scan_skip _ _ _ _ H1). now apply scan_below. }
  rewrite E in *. clear E.
  destruct (rev m1) as [|ep r] eqn:Er.
  - assert (m1 = []) as -> by (apply (f_equal (@rev _)) in Er; now rewrite rev_involutive in Er).
    destruct m2 as [|[h i] m2]; [now contradiction Hne|].
    right. exists (h, i). split; [now left|].
    split; [apply (sorted_head_min _ _ Hsm2)|].
    assert (Hh : h <> EmptyString) by (apply (Hn (h, i)); apply HinL; right; right; now left).
    assert (Hu : used <= size i) by (apply (H2 (h, i)); rewrite El2; now left).
    assert (Ht : total <= size i) by (apply (Hm2 (h, i)); now left).
    simpl scan_free_disks. destruct (Z.ltb_spec (size i) used); [lia|].
    destruct (Z.eqb_spec (size i - total) 0) as [E0 | E0].
    + left. split; [unfold sz; simpl; lia|].
      destruct policy; try contradiction; now apply settled_name.
    + right. left. split; [unfold sz; simpl; lia|]. split; [reflexivity|].
      destruct (Z.gtb_spec (size i - total) 0); [|lia].
      destruct policy; try contradiction; now apply settled_name.
  - assert (Em1 : m1 = (rev r ++ [ep])%list).
    { apply (f_equal (@rev _)) in Er. rewrite rev_involutive in Er. exact Er. }
    assert (Hep : In ep m1) by (rewrite Em1; apply in_or_app; right; now left).
    assert (Hmax : forall e, In e m1 -> sz e <= sz ep).
    { rewrite Em1 in Hsm1 |- *. apply (sorted_last_max _ _ Hsm1). }
    assert (Hpn : fst ep <> EmptyString) by (apply Hn; apply HinL; auto).
    destruct m2 as [|[h i] m2].
    + left. split; [reflexivity|]. exists ep. split; [exact Hep|].
      split; [exact Hmax|]. simpl. unfold settled. reflexivity.
    + right. exists (h, i). split; [now left|].
      split; [apply (sorted_head_min _ _ Hsm2)|].
      assert (Hh : h <> EmptyString) by (apply (Hn (h, i)); apply HinL; right; right; now left).
      assert (Hu : used <= size i) by (apply (H2 (h, i)); rewrite El2; apply in_or_app; right; now left).
      assert (Ht : total <= size i) by (apply (Hm2 (h, i)); now left).
      simpl scan_free_disks. destruct (Z.ltb_spec (size i) used); [lia|].
      destruct (Z.eqb_spec (size i - total) 0) as [E0 | E0].
      * left. split; [unfold sz; simpl; lia|].
        destruct policy; try contradiction; now apply settled_name.
      * right. right. split; [unfold sz; simpl; lia|].
        exists ep. split; [exact Hep|]. split; [exact Hmax|].
        destruct (Z.gtb_spec (size i - total) 0); [|lia].
        destruct (String.eqb_spec (fst ep) EmptyString); [contradiction|].
        destruct policy; try contradiction.
        -- now apply settled_name.
        -- now apply settled_name.
        -- unfold sz at 3. cbn [snd fst].
           destruct (Z.abs (sz ep - total) >? size i - total); now apply settled_name.
Qed.

Lemma auto_policy_cases module info policy force st st1 st2 free l st3 :
  policy <> minimize ->
  clear_existing_altdisk module info force st = (Ret tt, st1) ->
  get_free_pvs module st1 = (Ret (Some free), st2) ->
  find_valid_altdisk module [] info policy force st = (Ret l, st3) ->
  exists d below above,
    l = [d] /\
    (forall e, In e free -> used_size info <= sz e -> In e below \/ In e above) /\
    (forall e, In e below -> In e free /\ used_size info <= sz e < rootvg_size info) /\
    (forall e, In e above ->
               In e free /\ used_size info <= sz e /\ rootvg_size info <= sz e) /\
    ((above = [] /\
      exists ep, In ep below /\ (forall e, In e below -> sz e <= sz ep) /\ d = fst ep)
     \/
     (exists e0,
        In e0 above /\ (forall e, In e above -> sz e0 <= sz e) /\
        ((sz e0 = rootvg_size info /\ d = fst e0)
         \/
         (rootvg_size info < sz e0 /\ below = [] /\ d = fst e0)
         \/
         (rootvg_size info < sz e0 /\
          exists ep,
            In ep below /\ (forall e, In e below -> sz e <= sz ep) /\
            d = match policy with
                | upper => fst e0
                | lower => fst ep
                | _ => if Z.abs (sz ep - rootvg_size info) >? sz e0 - rootvg_size info
                       then fst e0 else fst ep
                end)))).
Proof.
  intros Hp Hclear Hfree H.
  destruct (get_free_pvs_ok_inv _ _ _ _ Hfree) as (out & err & _ & _ & _ & _ & Hnames).
  destruct (auto_select_inv _ _ _ _ _ _ _ _ _ _ Hclear Hfree H) as (-> & Hne & _).
  destruct (scan_cases (used_size info) (rootvg_size info) policy (sorted_by_size free)
              Hp (sorted_by_size_sorted free)) as (below & above & Hall & Hb & Ha & Hc).
  - intros x Hx. apply hdisk_name_nonempty. apply Hnames.
    apply (proj1 (sorted_by_size_in _ _)) in Hx. unfold Dict.keys. now apply in_map.
  - exact Hne.
  - eexists. exists below, above. split; [reflexivity|].
    split; [intros e He; apply Hall; now apply sorted_by_size_in|].
    split; [intros e He; destruct (Hb e He) as [Hi Hu]; split;
            [now apply (proj1 (sorted_by_size_in _ _)) | exact Hu]|].
    split; [intros e He; destruct (Ha e He) as [Hi Hu]; split;
            [now apply (proj1 (sorted_by_size_in _ _)) | exact Hu]|].
    exact Hc.
Qed.

Lemma entry_in (e : string * free_pv) (l : list (string * free_pv)) :
  In e l -> In (fst e, snd e) l.
Proof. now destruct e. Qed.

(** X11: under the policy upper the automatic selection returns the
    smallest free disk that holds the used size and is at least as large
    as the rootvg; when no free disk is that large, it returns the largest
    free disk that holds the used size. *)
Theorem upper_selects module info force st st1 st2 free l st3 :
  clear_existing_altdisk module info force st = (Ret tt, st1) ->
  get_free_pvs module st1 = (Ret (Some free), st2) ->
  find_valid_altdisk module [] info upper force st = (Ret l, st3) ->
  exists d i,
    l = [d] /\ In (d, i) free /\ used_size info <= size i /\
    ((rootvg_size info <= size i /\
      forall e, In e free -> used_size info <= sz e -> rootvg_size info <= sz e ->
                size i <= sz e)
     \/
     (size i < rootvg_size info /\
      forall e, In e free -> used_size info <= sz e -> sz e <= size i)).
Proof.
  intros Hclear Hfree H.
  destruct (auto_policy_cases _ _ upper _ _ _ _ _ _ _ ltac:(discriminate) Hclear Hfree H)
    as (d & below & above & -> & Hall & Hb & Ha & Hc).
  destruct Hc as [(-> & ep & Hep & Hmax & ->)
                 | (e0 & He0 & Hmin & [(Hsz & ->)
                                      | [(Hsz & _ & ->) | (Hsz & ep & _ & _ & ->)]])].
  - exists (fst ep), (snd ep). destruct (Hb ep Hep) as [Hi Hu]. fold (sz ep).
    split; [reflexivity|]. split; [now apply entry_in|]. split; [lia|].
    right. split; [lia|]. intros e He Hue.
    destruct (Hall e He Hue) as [Hin | []]. now apply Hmax.
  - exists (fst e0), (snd e0). destruct (Ha e0 He0) as (Hi & Hu & Ht). fold (sz e0).
    split; [reflexivity|]. split; [now apply entry_in|]. split; [lia|].
    left. split; [lia|]. intros e He Hue Hte.
    destruct (Hall e He Hue) as [Hin | Hin]; [|now apply Hmin].
    destruct (Hb e Hin). lia.
  - exists (fst e0), (snd e0). destruct (Ha e0 He0) as (Hi & Hu & Ht). fold (sz e0).
    split; [reflexivity|]. split; [now apply entry_in|]. split; [lia|].
    left. split; [lia|]. intros e He Hue Hte.
    destruct (Hall e He Hue) as [Hin | Hin]; [|now apply Hmin].
    destruct (Hb e Hin). lia.
  - exists (fst e0), (snd e0). destruct (Ha e0 He0) as (Hi & Hu & Ht). fold (sz e0).
    split; [reflexivity|]. split; [now apply entry_in|]. split; [lia|].
    left. split; [lia|]. intros e He Hue Hte.
    destruct (Hall e He Hue) as [Hin | Hin]; [|now apply Hmin].
    destruct (Hb e Hin). lia.
Qed.

(** X12: under the policy lower the automatic selection returns the
    largest free disk that holds the used size and is no larger than the
    rootvg; when every free disk that holds the used size is larger than
    the rootvg, it returns the smallest of them. *)
Theorem lower_selects module info force st st1 st2 free l st3 :
  clear_existing_altdisk module info force st = (Ret tt, st1) ->
  get_free_pvs module st1 = (Ret (Some free), st2) ->
  find_valid_altdisk module [] info lower force st = (Ret l, st3) ->
  exists d i,
    l = [d] /\ In (d, i) free /\ used_size info <= size i /\
    ((size i <= rootvg_size info /\
      forall e, In e free -> used_size info <= sz e -> sz e <= rootvg_size info ->
                sz e <= size i)
     \/
     (rootvg_size info < size i /\
      forall e, In e free -> used_size info <= sz e -> size i <= sz e)).
Proof.
  intros Hclear Hfree H.
  destruct (auto_policy_cases _ _ lower _ _ _ _ _ _ _ ltac:(discriminate) Hclear Hfree H)
    as (d & below & above & -> & Hall & Hb & Ha & Hc).
  destruct Hc as [(-> & ep & Hep & Hmax & ->)
                 | (e0 & He0 & Hmin & [(Hsz & ->)
                                      | [(Hsz & -> & ->) | (Hsz & ep & Hep & Hmax & ->)]])].
  - exists (fst ep), (snd ep). destruct (Hb ep Hep) as [Hi Hu]. fold (sz ep).
    split; [reflexivity|]. split; [now apply entry_in|]. split; [lia|].
    left. split; [lia|]. intros e He Hue _.
    destruct (Hall e He Hue) as [Hin | []]. now apply Hmax.
  - exists (fst e0), (snd e0). destruct (Ha e0 He0) as (Hi & Hu & Ht). fold (sz e0).
    split; [reflexivity|]. split; [now apply entry_in|]. split; [lia|].
    left. split; [lia|]. intros e He Hue Hte.
    destruct (Hall e He Hue) as [Hin | Hin]; [destruct (Hb e Hin); lia | lia].
  - exists (fst e0), (snd e0). destruct (Ha e0 He0) as (Hi & Hu & Ht). fold (sz e0).
    split; [reflexivity|]. split; [now apply entry_in|]. split; [lia|].
    right. split; [lia|]. intros e He Hue.
    destruct (Hall e He Hue) as [[] | Hin]. now apply Hmin.
  - exists (fst ep), (snd ep). destruct (Hb ep Hep) as [Hi Hu]. fold (sz ep).
    split; [reflexivity|]. split; [now apply entry_in|]. split; [lia|].
    left. split; [lia|]. intros e He Hue Hte.
    destruct (Hall e He Hue) as [Hin | Hin]; [now apply Hmax|].
    specialize (Hmin e Hin). lia.
Qed.

(** X13: under the policy nearest the automatic selection returns a free
    disk whose capacity is closest to the rootvg size among the free
    disks that hold the used size. *)
Theorem nearest_selects module info force st st1 st2 free l st3 :
  clear_existing_altdisk module info force st = (Ret tt, st1) ->
  get_free_pvs module st1 = (Ret (Some free), st2) ->
  find_valid_altdisk module [] info nearest force st = (Ret l, st3) ->
  exists d i,
    l = [d] /\ In (d, i) free /\ used_size info <= size i /\
    forall e, In e free -> used_size info <= sz e ->
              Z.abs (size i - rootvg_size info) <= Z.abs (sz e - rootvg_size info).
Proof.
  intros Hclear Hfree H.
  destruct (auto_policy_cases _ _ nearest _ _ _ _ _ _ _ ltac:(discriminate) Hclear Hfree H)
    as (d & below & above & -> & Hall & Hb & Ha & Hc).
  destruct Hc as [(-> & ep & Hep & Hmax & ->)
                 | (e0 & He0 & Hmin & [(Hsz & ->)
                                      | [(Hsz & -> & ->) | (Hsz & ep & Hep & Hmax & ->)]])].
  - exists (fst ep), (snd ep). destruct (Hb ep Hep) as [Hi Hu]. fold (sz ep).
    split; [reflexivity|]. split; [now apply entry_in|]. split; [lia|].
    intros e He Hue. destruct (Hall e He Hue) as [Hin | []].
    specialize (Hmax e Hin). destruct (Hb e Hin). lia.
  - exists (fst e0), (snd e0). destruct (Ha e0 He0) as (Hi & Hu & Ht). fold (sz e0).
    split; [reflexivity|]. split; [now apply entry_in|]. split; [lia|].
    intros e He Hue. lia.
  - exists (fst e0), (snd e0). destruct (Ha e0 He0) as (Hi & Hu & Ht). fold (sz e0).
    split; [reflexivity|]. split; [now apply entry_in|]. split; [lia|].
    intros e He Hue. destruct (Hall e He Hue) as [[] | Hin].
    specialize (Hmin e Hin). lia.
  - destruct (Ha e0 He0) as (Hi0 & Hu0 & Ht0). destruct (Hb ep Hep) as [Hip Hup].
    destruct (Z.gtb_spec (Z.abs (sz ep - rootvg_size info)) (sz e0 - rootvg_size info))
      as [Hgt | Hle].
    + exists (fst e0), (snd e0). fold (sz e0).
      split; [reflexivity|]. split; [now apply entry_in|]. split; [lia|].
      intros e He Hue. destruct (Hall e He Hue) as [Hin | Hin].
      * specialize (Hmax e Hin). destruct (Hb e Hin). lia.
      * specialize (Hmin e Hin). lia.
    + exists (fst ep), (snd ep). fold (sz ep).
      split; [reflexivity|]. split; [now apply entry_in|]. split; [lia|].
      intros e He Hue. destruct (Hall e He Hue) as [Hin | Hin].
      * specialize (Hmax e Hin). destruct (Hb e Hin). lia.
      * specialize (Hmin e Hin). lia.
Qed.

Lemma upper_selects_witness :
  exists d i,
    fst (find_valid_altdisk three_disks [] (rootvg_of 140 90) upper false initial_state)
    = Ret [d] /\
    In (d, i) three_free /\ 90 <= size i /\
    ((140 <= size i /\
      forall e, In e three_free -> 90 <= sz e -> 140 <= sz e -> size i <= sz e)
     \/
     (size i < 140 /\ forall e, In e three_free -> 90 <= sz e -> sz e <= size i)).
Proof.
  destruct (upper_selects three_disks (rootvg_of 140 90) false initial_state
              _ _ _ _ _
              ltac:(vm_compute; reflexivity) ltac:(vm_compute; reflexivity)
              ltac:(vm_compute; reflexivity))
    as (d & i & Hl & Hin & Hu & Hcase).
  exists d, i. split; [rewrite <- Hl; vm_compute; reflexivity|].
  split; [exact Hin|]. split; [exact Hu | exact Hcase].
Defined.

Lemma lower_selects_witness :
  exists d i,
    fst (find_valid_altdisk three_disks [] (rootvg_of 140 90) lower false initial_state)
    = Ret [d] /\
    In (d, i) three_free /\ 90 <= size i /\
    ((size i <= 140 /\
      forall e, In e three_free -> 90 <= sz e -> sz e <= 140 -> sz e <= size i)
     \/
     (140 < size i /\ forall e, In e three_free -> 90 <= sz e -> size i <= sz e)).
Proof.
  destruct (lower_selects three_disks (rootvg_of 140 90) false initial_state
              _ _ _ _ _
              ltac:(vm_compute; reflexivity) ltac:(vm_compute; reflexivity)
              ltac:(vm_compute; reflexivity))
    as (d & i & Hl & Hin & Hu & Hcase).
  exists d, i. split; [rewrite <- Hl; vm_compute; reflexivity|].
  split; [exact Hin|]. split; [exact Hu | exact Hcase].
Defined.

Lemma nearest_selects_witness :
  exists d i,
    fst (find_valid_altdisk three_disks [] (rootvg_of 140 90) nearest false
           initial_state) = Ret [d] /\
    In (d, i) three_free /\ 90 <= size i /\
    forall e, In e three_free -> 90 <= sz e ->
              Z.abs (size i - 140) <= Z.abs (sz e - 140).
Proof.
  destruct (nearest_selects three_disks (rootvg_of 140 90) false initial_state
              _ _ _ _ _
              ltac:(vm_compute; reflexivity) ltac:(vm_compute; reflexivity)
              ltac:(vm_compute; reflexivity))
    as (d & i & Hl & Hin & Hu & Hcase).
  exists d, i. split; [rewrite <- Hl; vm_compute; reflexivity|].
  split; [exact Hin|]. split; [exact Hu | exact Hcase].
Defined.

(** ** The explicit mode *)

Lemma sum_sizes_unknown pvs known x rest :
  (forall h, In h known -> Dict.mem String.eqb pvs h = true) ->
  Dict.get String.eqb pvs x = None ->
  forall acc st,
  exists st',
    sum_sizes pvs (known ++ x :: rest) acc st = (FailJson, st') /\
    msg (results st') = msg_unknown_disk x /\
    changed (results st') = changed (results st) /\
    calls st' = calls st /\ journal st' = journal st.
Proof.
  intros Hk Hx. induction known as [|h known IH]; intros acc st; simpl.
  - rewrite Hx. eexists. split; [reflexivity|]. repeat split.
  - assert (Hh : Dict.mem String.eqb pvs h = true) by (apply Hk; now left).
    unfold Dict.mem in Hh. destruct (Dict.get String.eqb pvs h); [|discriminate].
    apply IH. intros h' Hh'. apply Hk. now right.
Qed.

(** X14: in explicit mode the first named disk that is not in the free
    inventory makes the selection fail with a message naming that disk,
    whatever the capacities; nothing else is run or logged. *)
Theorem explicit_unknown_disk module info policy force st st1 st2 free known x rest :
  clear_existing_altdisk module info force st = (Ret tt, st1) ->
  get_free_pvs module st1 = (Ret (Some free), st2) ->
  free <> [] ->
  (forall h, In h known -> Dict.mem String.eqb free h = true) ->
  Dict.get String.eqb free x = None ->
  exists st3,
    find_valid_altdisk module (known ++ x :: rest) info policy force st
    = (FailJson, st3) /\
    msg (results st3) = msg_unknown_disk x /\
    calls st3 = calls st2 /\ journal st3 = journal st2.
Proof.
  intros Hclear Hfree Hne Hk Hx. unfold find_valid_altdisk.
  rewrite (bind_ret _ _ _ _ _ Hclear), (bind_ret _ _ _ _ _ Hfree).
  destruct free as [|e free]; [contradiction|].
  unfold select_altdisk.
  destruct (sum_sizes_unknown (e :: free) known x rest Hk Hx 0 st2)
    as (st3 & E & Hm & _ & Hc & Hj).
  exists st3.
  destruct (known ++ x :: rest)%list as [|h hs] eqn:El.
  - destruct known; discriminate El.
  - unfold bind at 1. rewrite E. auto.
Qed.

Lemma explicit_unknown_disk_witness :
  exists st3,
    find_valid_altdisk three_disks ["hdisk2"; "hdisk7"; "hdisk1"] (rootvg_of 150 90)
      nearest false initial_state = (FailJson, st3) /\
    msg (results st3) = "Alternate disk hdisk7 is either not found or not available".
Proof.
  destruct (explicit_unknown_disk three_disks (rootvg_of 150 90) nearest false
              initial_state _ _ _ ["hdisk2"] "hdisk7" ["hdisk1"]
              ltac:(vm_compute; reflexivity) ltac:(vm_compute; reflexivity)
              ltac:(discriminate))
    as (st3 & H & Hm & _).
  - intros h [<- | []]. vm_compute. reflexivity.
  - vm_compute. reflexivity.
  - exists st3. split; [exact H | exact Hm].
Defined.

(** X15: in explicit mode, named disks that are all free and whose
    capacities add up to the rootvg size or more are accepted as they
    are: the list is returned unchanged, nothing is run, logged or
    written to the results. *)
Theorem explicit_large_enough module info policy force st st1 st2 free h hs tot :
  clear_existing_altdisk module info force st = (Ret tt, st1) ->
  get_free_pvs module st1 = (Ret (Some free), st2) ->
  total_capacity free (h :: hs) = Some tot ->
  rootvg_size info <= tot ->
  find_valid_altdisk module (h :: hs) info policy force st = (Ret (h :: hs), st2).
Proof.
  intros Hclear Hfree Htot Hge. unfold find_valid_altdisk.
  rewrite (bind_ret _ _ _ _ _ Hclear), (bind_ret _ _ _ _ _ Hfree).
  assert (Hne : exists e free', free = e :: free').
  { destruct free as [|e free']; [|now exists e, free'].
    simpl in Htot. discriminate Htot. }
  destruct Hne as (e & free' & ->).
  unfold select_altdisk.
  rewrite (bind_ret _ _ _ _ _ (sum_sizes_total _ _ _ Htot 0 st2)).
  cbn [Z.add].
  destruct (Z.ltb_spec tot (rootvg_size info)) as [Hlt | _]; [lia|].
  reflexivity.
Qed.

Lemma explicit_large_enough_witness :
  fst (find_valid_altdisk three_disks ["hdisk1"; "hdisk2"] (rootvg_of 250 240)
         nearest false initial_state) = Ret ["hdisk1"; "hdisk2"].
Proof.
  rewrite (explicit_large_enough three_disks (rootvg_of 250 240) nearest false
             initial_state _ _ _ "hdisk1" ["hdisk2"] 250
             ltac:(vm_compute; reflexivity) ltac:(vm_compute; reflexivity)
             ltac:(vm_compute; reflexivity) ltac:(vm_compute; discriminate)).
  reflexivity.
Defined.

(** ** What the selection runs *)

Lemma get_free_pvs_lines_state lines :
  forall acc st o st',
  get_free_pvs_lines lines acc st = (o, st') ->
  st' = st /\ (o = Raise ValueError \/ exists v, o = Ret v).
Proof.
  induction lines as [|line rest IH]; intros acc st o st' H; simpl in H.
  - injection H as <- <-. eauto.
  - destruct (Re.re_match Re.free_pv_line (Py.rstrip line)) as [m|]; [|now apply IH in H].
    destruct (Py.int (Re.group m 3)); [now apply IH in H|].
    injection H as <- <-. auto.
Qed.

Lemma command_failed_quiet (l : list string) (r : response) st :
  exists st',
    command_failed (str l) r st = (Ret tt, st') /\
    calls st' = calls st /\ journal st' = journal st /\
    changed (results st') = changed (results st) /\
    stdout (results st') = snd (fst r) /\ stderr (results st') = snd r /\
    msg (results st') = msg_command_failed l (fst (fst r)).
Proof.
  destruct r as [[rc out] err]. unfold command_failed, join_cmd.
  assert (H : strings_of (str l) = Some l).
  { induction l as [|x l IH]; simpl; [reflexivity | now rewrite IH]. }
  rewrite H. eexists. split; [reflexivity|]. repeat split.
Qed.

Lemma get_free_pvs_spec module st :
  exists o st' r,
    get_free_pvs module st = (o, st') /\
    calls st' = (calls st ++ [(cmd_lspv_free, r)])%list /\
    changed (results st') = changed (results st) /\
    (o = Raise ValueError \/ exists v, o = Ret v).
Proof.
  unfold get_free_pvs. fold cmd_lspv_free. unfold bind at 1, run_command at 1. strings_ok.
  destruct (host module (map fst (calls st) ++ [cmd_lspv_free])) as [[rc out] err].
  cbn [fst snd]. destruct (negb (rc =? 0)).
  - unfold cmd_lspv_free.
    match goal with
    | |- context [bind (command_failed (str ?l) ?r) _ ?s] =>
        destruct (command_failed_quiet l r s) as (s1 & E1 & Hc1 & _ & Hch1 & _)
    end.
    rewrite (bind_ret _ _ _ _ _ E1).
    eexists. exists s1, (rc, out, err). split; [reflexivity|].
    rewrite Hc1, Hch1. cbn [calls results]. split; [reflexivity|]. split; [reflexivity|]. eauto.
  - unfold bind at 1.
    match goal with
    | |- context [get_free_pvs_lines ?l ?a ?s] =>
        destruct (get_free_pvs_lines l a s) as [o1 s1] eqn:El
    end.
    destruct (get_free_pvs_lines_state _ _ _ _ _ El) as [-> Ho].
    destruct o1 as [fr | | | e].
    + unfold bind at 1, emit at 1. cbn [results calls journal].
      match goal with
      | |- context [bind (for_each ?l ?b) _ ?s] =>
          destruct (for_each_quiet l b) with (st := s) as (st2 & E2 & Hr2 & Hc2)
      end.
      { intros x s. eexists. split; [reflexivity|]. split; reflexivity. }
      rewrite (bind_ret _ _ _ _ _ E2). unfold ret.
      eexists. exists st2, (rc, out, err). split; [reflexivity|].
      rewrite Hr2, Hc2. cbn [calls results]. split; [reflexivity|]. split; [reflexivity|]. eauto.
    + destruct Ho as [Ho | [v Ho]]; discriminate Ho.
    + destruct Ho as [Ho | [v Ho]]; discriminate Ho.
    + eexists. eexists. exists (rc, out, err). split; [reflexivity|].
      cbn [calls results]. split; [reflexivity|]. split; [reflexivity|].
      destruct Ho as [Ho | [v Ho]]; [|discriminate Ho]. injection Ho as ->. now left.
Qed.

Lemma sum_sizes_state pvs hdisks :
  forall acc st o st',
  sum_sizes pvs hdisks acc st = (o, st') ->
  calls st' = calls st /\ changed (results st') = changed (results st) /\
  (o = FailJson \/ exists v, o = Ret v).
Proof.
  induction hdisks as [|h hs IH]; intros acc st o st' H; simpl in H.
  - injection H as <- <-. eauto.
  - destruct (Dict.get String.eqb pvs h); [now apply IH in H|].
    injection H as <- <-. auto.
Qed.

Lemma select_altdisk_state module free hdisks info policy st o st' :
  select_altdisk module free hdisks info policy st = (o, st') ->
  calls st' = calls st /\ changed (results st') = changed (results st) /\
  (o = FailJson \/ exists v, o = Ret v).
Proof.
  unfold select_altdisk. intros H. destruct hdisks as [|h hs].
  - destruct (scan_free_disks (used_size info) (rootvg_size info) policy
                (sorted_by_size free) EmptyString 0) as [sel prev].
    destruct (String.eqb sel EmptyString); [destruct (negb (String.eqb prev EmptyString))|];
      cbv [bind ret emit set_msg set_results fail_json] in H;
      injection H as <- <-; eauto.
  - unfold bind at 1 in H.
    destruct (sum_sizes free (h :: hs) 0 st) as [o1 s1] eqn:E.
    apply sum_sizes_state in E. destruct E as (Hc & Hch & Ho).
    destruct o1 as [tot | | | e]; try (injection H as <- <-; eauto);
      try (destruct Ho as [Ho | [v Ho]]; discriminate Ho).
    destruct (tot <? rootvg_size info); [destruct (tot >=? used_size info)|];
      cbv [bind ret emit set_msg set_results fail_json] in H;
      injection H as <- <-; cbn [calls results changed]; eauto.
Qed.

Lemma clear_existing_no_force module info st o st' :
  clear_existing_altdisk module info false st = (o, st') ->
  changed (results st') = changed (results st) /\
  (o = FailJson \/ o = Ret tt) /\
  exists new, calls st' = (calls st ++ new)%list /\
              forall c, In c new -> fst c = cmd_lspv.
Proof.
  unfold clear_existing_altdisk. intros H.
  destruct (negb (status info =? 0)).
  { cbv [bind ret set_msg set_results fail_json] in H. injection H as <- <-.
    split; [reflexivity|]. split; [auto|]. exists []. rewrite app_nil_r.
    split; [reflexivity | intros c []]. }
  unfold bind at 1, ret at 1 in H.
  destruct (get_pvs_spec module st) as (pvs & st1 & r & E & Hc & Hch & _).
  rewrite (bind_ret _ _ _ _ _ E) in H.
  assert (Hnew : exists new, calls st1 = (calls st ++ new)%list /\
                             forall c, In c new -> fst c = cmd_lspv).
  { exists [(cmd_lspv, r)]. split; [exact Hc|]. now intros c [<- | []]. }
  destruct pvs as [pvs|]; [|injection H as <- <-; auto].
  destruct (negb (String.eqb _ EmptyString)).
  - cbn [negb] in H. cbv [bind ret set_msg set_results fail_json] in H.
    injection H as <- <-. cbn [results calls changed]. auto.
  - injection H as <- <-. auto.
Qed.

(** X16: without force, the selection changes nothing on the host: the
    only commands it runs are the two listings, and [changed] stays as it
    was, whatever the outcome. *)
Theorem selection_without_force_reads_only module hdisks info policy st o st' :
  find_valid_altdisk module hdisks info policy false st = (o, st') ->
  changed (results st') = changed (results st) /\
  exists new, calls st' = (calls st ++ new)%list /\
              forall c, In c new -> listing_cmd (fst c).
Proof.
  unfold find_valid_altdisk. intros H. unfold bind at 1 in H.
  destruct (clear_existing_altdisk module info false st) as [o1 s1] eqn:E1.
  apply clear_existing_no_force in E1.
  destruct E1 as (Hch1 & Ho1 & new1 & Hc1 & Hall1).
  assert (Hl1 : forall c, In c new1 -> listing_cmd (fst c)).
  { intros c Hc. left. now apply Hall1. }
  destruct Ho1 as [-> | ->].
  { injection H as <- <-. split; [exact Hch1|]. now exists new1. }
  unfold bind at 1 in H.
  destruct (get_free_pvs_spec module s1) as (o2 & s2 & r & E2 & Hc2 & Hch2 & Ho2).
  rewrite E2 in H.
  assert (Hnew2 : exists new, calls s2 = (calls st ++ new)%list /\
                              forall c, In c new -> listing_cmd (fst c)).
  { exists (new1 ++ [(cmd_lspv_free, r)])%list. split.
    - rewrite Hc2, Hc1. now rewrite app_assoc.
    - intros c Hc. apply in_app_or in Hc. destruct Hc as [Hc | [<- | []]]; auto.
      now right. }
  assert (Hch : changed (results s2) = changed (results st)) by congruence.
  destruct o2 as [free | | | e]; try (injection H as <- <-; auto).
  destruct free as [[|e free]|].
  - cbv [bind ret set_msg set_results fail_json] in H. injection H as <- <-.
    cbn [results calls changed]. auto.
  - apply select_altdisk_state in H. destruct H as (Hc3 & Hch3 & _).
    rewrite Hc3, Hch3. auto.
  - injection H as <- <-. auto.
Qed.

Lemma selection_without_force_reads_only_witness :
  exists o st',
    find_valid_altdisk three_disks [] (rootvg_of 140 90) nearest false initial_state
    = (o, st') /\
    changed (results st') = false /\
    map fst (calls st') = [cmd_lspv; cmd_lspv_free].
Proof.
  eexists. eexists. split; [vm_compute; reflexivity|].
  destruct (selection_without_force_reads_only three_disks [] (rootvg_of 140 90)
              nearest initial_state _ _ ltac:(vm_compute; reflexivity)) as (Hch & _).
  split; [exact Hch | vm_compute; reflexivity].
Defined.

(** ** An alternate rootvg that already exists *)

Lemma found_altdisk_name module st pvs st1 e :
  get_pvs module st = (Ret (Some pvs), st1) ->
  find is_altinst pvs = Some e ->
  String.eqb (fst e) EmptyString = false /\ is_altinst e = true.
Proof.
  intros Hg Hf. apply find_some in Hf. destruct Hf as [Hin Ha]. split; [|exact Ha].
  apply get_pvs_ok_inv in Hg. destruct Hg as (out & err & _ & -> & _).
  destruct (get_pvs_lines_names (Py.split Py.newline out) [] (NoDup_nil _))
    as [_ Hn]; [intros x []|].
  assert (Hk : hdisk_name (fst e)) by (apply Hn; unfold Dict.keys; now apply in_map).
  apply hdisk_name_nonempty in Hk.
  destruct (String.eqb_spec (fst e) EmptyString); [contradiction | reflexivity].
Qed.

(** X17: without force, an alternate rootvg that already exists makes the
    selection fail right after the listing, with a message naming the
    first disk of altinst_rootvg in listing order. *)
Theorem existing_altdisk_refused module hdisks info policy st pvs st1 e :
  status info = 0 ->
  get_pvs module st = (Ret (Some pvs), st1) ->
  find is_altinst pvs = Some e ->
  exists st',
    find_valid_altdisk module hdisks info policy false st = (FailJson, st') /\
    msg (results st') = msg_altdisk_exists (fst e) /\
    calls st' = calls st1 /\
    changed (results st') = changed (results st1).
Proof.
  intros Hst Hg Hf.
  destruct (found_altdisk_name _ _ _ _ _ Hg Hf) as [Hne _].
  unfold find_valid_altdisk, clear_existing_altdisk. rewrite Hst.
  cbn [Z.eqb negb]. unfold bind at 1. unfold bind at 1, ret at 1.
  rewrite (bind_ret _ _ _ _ _ Hg). rewrite Hf, Hne. cbn [negb].
  eexists. split; [reflexivity|]. repeat split.
Qed.

Lemma existing_altdisk_refused_witness :
  exists st',
    find_valid_altdisk (scripted [ok lspv_altinst]) [] (rootvg_of 140 90) nearest false
      initial_state = (FailJson, st') /\
    msg (results st') = "An alternate disk already exists on disk hdisk1".
Proof.
  destruct (existing_altdisk_refused (scripted [ok lspv_altinst]) [] (rootvg_of 140 90)
              nearest initial_state _ _
              ("hdisk1", {| pvid := "000018fa3b12f5cc"; vg := "altinst_rootvg";
                            pv_status := EmptyString |})
              eq_refl ltac:(vm_compute; reflexivity) ltac:(vm_compute; reflexivity))
    as (st' & H & Hm & _).
  exists st'. split; [exact H | exact Hm].
Defined.

Lemma for_each_changed {A : Type} (body : A -> M unit) (l : list A) :
  (forall x s o s', body x s = (o, s') ->
     changed (results s') = changed (results s) /\ (o = Ret tt \/ o = FailJson)) ->
  forall s o s', for_each l body s = (o, s') ->
    changed (results s') = changed (results s) /\ (o = Ret tt \/ o = FailJson).
Proof.
  intros Hb. induction l as [|x l IH]; intros s o s' H; simpl in H.
  - injection H as <- <-. auto.
  - unfold bind in H. destruct (body x s) as [o1 s1] eqn:E.
    apply Hb in E. destruct E as [Hch [-> | ->]].
    + apply IH in H. destruct H as [Hch' Ho]. split; [congruence | exact Ho].
    + injection H as <- <-. auto.
Qed.

Lemma clear_owner_changed module h s o s' :
  clear_owner module h s = (o, s') ->
  changed (results s') = changed (results s) /\ (o = Ret tt \/ o = FailJson).
Proof.
  intros H.
  destruct (clear_owner_spec module h s)
    as [(r & s1 & E & _ & Hr & _) | (r & s1 & E & Hch & _)];
    rewrite E in H; injection H as <- <-.
  - rewrite Hr. auto.
  - auto.
Qed.

(** X18: under force, once the removal of an existing alternate rootvg
    has succeeded, the selection reports [changed] whatever follows: a
    failing owner-clear, a failing listing or an unsuitable inventory all
    end with [changed] true. *)
Theorem forced_cleanup_marks_changed module hdisks info policy st pvs st1 e out err
  o st' :
  status info = 0 ->
  get_pvs module st = (Ret (Some pvs), st1) ->
  find is_altinst pvs = Some e ->
  host module (map fst (calls st1) ++ [cmd_remove_altinst]) = (0, out, err) ->
  find_valid_altdisk module hdisks info policy true st = (o, st') ->
  changed (results st') = true.
Proof.
  intros Hst Hg Hf Hh H.
  destruct (found_altdisk_name _ _ _ _ _ Hg Hf) as [Hne _].
  unfold find_valid_altdisk, clear_existing_altdisk in H. rewrite Hst in H.
  cbn [Z.eqb negb] in H.
  unfold bind at 1 in H. unfold bind at 1, ret at 1 in H.
  rewrite (bind_ret _ _ _ _ _ Hg) in H. rewrite Hf, Hne in H. cbn [negb] in H.
  unfold bind at 1, ret at 1 in H. unfold bind at 1, emit at 1 in H.
  unfold bind at 1, run_command at 1 in H. strings_ok_in H. cbn [calls results journal] in H.
  rewrite Hh in H. cbn [fst snd Z.eqb negb] in H.
  unfold bind at 1, ret at 1 in H.
  unfold bind at 1, set_changed at 1, set_results at 1 in H.
  cbn [calls results journal] in H.
  match type of H with
  | context [for_each pvs ?b ?s] =>
      destruct (for_each pvs b s) as [o1 s1] eqn:E1;
      assert (Hs : changed (results s) = true) by reflexivity
  end.
  apply for_each_changed in E1.
  2:{ intros x s o0 s0 Hx. destruct (is_altinst x).
      - now apply clear_owner_changed in Hx.
      - injection Hx as <- <-. auto. }
  destruct E1 as [Hch1 Ho1]. rewrite Hs in Hch1.
  destruct Ho1 as [-> | ->]; [|injection H as <- <-; exact Hch1].
  unfold bind at 1 in H.
  destruct (get_free_pvs_spec module s1) as (o2 & s2 & r & E2 & _ & Hch2 & _).
  rewrite E2 in H. rewrite Hch1 in Hch2.
  destruct o2 as [free | | | ex]; try (injection H as <- <-; exact Hch2).
  destruct free as [[|e0 free]|].
  - cbv [bind ret set_msg set_results fail_json] in H. injection H as <- <-.
    exact Hch2.
  - apply select_altdisk_state in H. destruct H as (_ & Hch3 & _). congruence.
  - injection H as <- <-. exact Hch2.
Qed.

Lemma forced_cleanup_marks_changed_witness :
  exists st',
    find_valid_altdisk (scripted [ok lspv_altinst; ok "removed"; (5, "o", "e")])
      [] (rootvg_of 140 90) nearest true initial_state = (FailJson, st') /\
    msg (results st') = "Command '/usr/sbin/chpv -C hdisk1' failed with return code 5." /\
    changed (results st') = true.
Proof.
  eexists. split; [vm_compute; reflexivity|]. split; [vm_compute; reflexivity|].
  apply (forced_cleanup_marks_changed
           (scripted [ok lspv_altinst; ok "removed"; (5, "o", "e")])
           [] (rootvg_of 140 90) nearest initial_state _ _
           ("hdisk1", {| pvid := "000018fa3b12f5cc"; vg := "altinst_rootvg";
                         pv_status := EmptyString |})
           "removed" EmptyString FailJson _
           eq_refl ltac:(vm_compute; reflexivity) ltac:(vm_compute; reflexivity)
           ltac:(vm_compute; reflexivity) ltac:(vm_compute; reflexivity)).
Defined.

(** ** The copy on an unmirrored rootvg, and the gate of a mirrored one *)

(** X19: on a rootvg with a single copy, the selection is followed by one
    command only, the copy; its exit code decides the outcome: 0 returns
    with [changed] set, anything else is reported as the copy's failure,
    and in both cases stdout and stderr of the results are the copy's. *)
Theorem copy_unmirrored module hdisks policy force st info st1 hd st2 o st' :
  check_rootvg module st = (Ret (Some info), st1) ->
  find_valid_altdisk module (match hdisks with None => [] | Some l => l end)
    info policy force st1 = (Ret hd, st2) ->
  Dict.len (copy_dict info) <= 1 ->
  alt_disk_copy module hdisks policy force st = (o, st') ->
  exists r,
    calls st' = (calls st2 ++ [(cmd_alt_disk_copy hd, r)])%list /\
    stdout (results st') = snd (fst r) /\
    stderr (results st') = snd r /\
    (fst (fst r) = 0 -> o = Ret tt /\ changed (results st') = true) /\
    (fst (fst r) <> 0 ->
     o = FailJson /\
     msg (results st') = msg_copy_failed hd (fst (fst r)) /\
     changed (results st') = changed (results st2)).
Proof.
  intros Hcheck Hfind Hlen H. unfold alt_disk_copy in H.
  rewrite (bind_ret _ _ _ _ _ Hcheck) in H.
  rewrite (bind_ret _ _ _ _ _ Hfind) in H.
  unfold bind at 1, emit at 1 in H.
  destruct (Z.gtb_spec (Dict.len (copy_dict info)) 1) as [Hgt | _]; [lia|].
  unfold bind at 1, ret at 1 in H. unfold copy_and_restore in H.
  unfold bind at 1, run_command at 1 in H. strings_ok_in H. cbn [calls results journal] in H.
  destruct (host module (map fst (calls st2) ++ [cmd_alt_disk_copy hd]))
    as [[rc out] err].
  destruct (Z.gtb_spec (Dict.len (copy_dict info)) 1) as [Hgt | _]; [lia|].
  exists (rc, out, err). cbn [fst snd].
  destruct (Z.eqb_spec rc 0) as [-> | Hne]; cbn [negb] in H;
    cbv [bind ret set_changed set_stdout set_stderr set_msg set_results fail_json] in H;
    cbn [results calls journal changed msg stdout stderr] in H;
    injection H as <- <-; cbn [results calls journal changed msg stdout stderr];
    repeat split; intros; try contradiction; try congruence.
Qed.

Lemma copy_unmirrored_witness :
  exists st',
    alt_disk_copy (scripted [ok lsvg_M_single; ok lsvg_summary; ok lspv_plain;
                             ok lspv_free_big; (0, "done", EmptyString)])
      (Some ["hdisk9"]) nearest false initial_state = (Ret tt, st') /\
    changed (results st') = true /\ stdout (results st') = "done".
Proof.
  eexists. split; [vm_compute; reflexivity|].
  destruct (copy_unmirrored
              (scripted [ok lsvg_M_single; ok lsvg_summary; ok lspv_plain;
                         ok lspv_free_big; (0, "done", EmptyString)])
              (Some ["hdisk9"]) nearest false initial_state _ _ _ _ _ _
              ltac:(vm_compute; reflexivity) ltac:(vm_compute; reflexivity)
              ltac:(vm_compute; discriminate) ltac:(vm_compute; reflexivity))
    as (r & Hc & Hout & _ & Hok & _).
  vm_compute in Hc. injection Hc as <-.
  split; [apply Hok; reflexivity | exact Hout].
Defined.

(** X20: on a rootvg with more than one copy the copy command is not
    reached unless force is set and [unmirrorvg] exits with code 0 and
    the success marker on stderr: without force nothing is run after the
    selection, and after an [unmirrorvg] that fails it is the last command. *)
Theorem copy_mirrored_gate module hdisks policy force st info st1 hd st2 o st' :
  check_rootvg module st = (Ret (Some info), st1) ->
  find_valid_altdisk module (match hdisks with None => [] | Some l => l end)
    info policy force st1 = (Ret hd, st2) ->
  Dict.len (copy_dict info) > 1 ->
  alt_disk_copy module hdisks policy force st = (o, st') ->
  (force = false ->
   o = FailJson /\ calls st' = calls st2 /\
   msg (results st') = msg_mirrored_no_force /\
   changed (results st') = changed (results st2)) /\
  (force = true ->
   ~ unmirror_ok (host module (map fst (calls st2) ++ [cmd_unmirror])) ->
   o = FailJson /\
   calls st' = (calls st2 ++ [(cmd_unmirror,
                               host module (map fst (calls st2) ++ [cmd_unmirror]))])%list /\
   changed (results st') = changed (results st2)).
Proof.
  intros Hcheck Hfind Hlen H. unfold alt_disk_copy in H.
  rewrite (bind_ret _ _ _ _ _ Hcheck) in H.
  rewrite (bind_ret _ _ _ _ _ Hfind) in H.
  unfold bind at 1, emit at 1 in H.
  destruct (Z.gtb_spec (Dict.len (copy_dict info)) 1) as [_ | Hle]; [|lia].
  unfold bind at 1 in H. unfold stop_mirror at 1 in H.
  destruct force; cbn [negb] in H.
  - split; [discriminate|]. intros _ Hbad. unfold unmirror_ok in Hbad.
    unfold bind at 1, ret at 1 in H. unfold bind at 1, emit at 1 in H.
    unfold bind at 1, run_command at 1 in H. strings_ok_in H. cbn [calls results journal] in H.
    destruct (host module (map fst (calls st2) ++ [cmd_unmirror])) as [[rc out] err].
    cbn [fst snd] in Hbad.
    destruct (Z.eqb_spec rc 0) as [-> | Hne]; cbn [negb] in H.
    + destruct (Z.eqb_spec (Py.find err "rootvg successfully unmirrored") (-1))
        as [Hf | Hf]; [|exfalso; apply Hbad; auto].
      cbv [bind ret set_stdout set_stderr set_msg set_results fail_json] in H.
      injection H as <- <-. repeat split.
    + unfold command_failed, join_cmd in H. simpl strings_of in H.
      cbv [bind ret set_stdout set_stderr set_msg set_results fail_json] in H.
      injection H as <- <-. repeat split.
  - split; [|discriminate]. intros _.
    cbv [bind ret set_msg set_results fail_json] in H.
    injection H as <- <-. repeat split.
Qed.

Lemma copy_mirrored_gate_witness :
  exists st',
    alt_disk_copy (mirrored_host 0 (ok EmptyString)) None nearest false initial_state
    = (FailJson, st') /\
    msg (results st') = "The rootvg is mirrored and force option is not set" /\
    map fst (calls st')
    = [cmd_lsvg_M; cmd_lsvg_p; cmd_lsvg; cmd_lspv; cmd_lspv_free].
Proof.
  eexists. split; [vm_compute; reflexivity|].
  destruct (copy_mirrored_gate (mirrored_host 0 (ok EmptyString)) None nearest false
              initial_state _ _ _ _ _ _
              ltac:(vm_compute; reflexivity) ltac:(vm_compute; reflexivity)
              ltac:(vm_compute; reflexivity) ltac:(vm_compute; reflexivity))
    as [Hno _].
  destruct (Hno eq_refl) as (_ & _ & Hm & _).
  split; [exact Hm | vm_compute; reflexivity].
Defined.

(** ** Only [main] exits with success *)

Lemma no_exit_ret {A : Type} (a : A) : no_exit (ret a).
Proof. intros st st' H. discriminate H. Qed.

Lemma no_exit_fail {A : Type} : no_exit (@fail_json A).
Proof. intros st st' H. discriminate H. Qed.

Lemma no_exit_raise {A : Type} (e : exn) : no_exit (@raise A e).
Proof. intros st st' H. discriminate H. Qed.

Lemma no_exit_set f : no_exit (set_results f).
Proof. intros st st' H. discriminate H. Qed.

Lemma no_exit_emit l t a : no_exit (emit l t a).
Proof. intros st st' H. discriminate H. Qed.

Lemma no_exit_run module cmd : no_exit (run_command module cmd).
Proof.
  intros st st' H. unfold run_command in H.
  destruct (strings_of cmd); discriminate H.
Qed.

Lemma no_exit_bind {A B : Type} (m : M A) (k : A -> M B) :
  no_exit m -> (forall a, no_exit (k a)) -> no_exit (bind m k).
Proof.
  intros Hm Hk st st' H. unfold bind in H.
  destruct (m st) as [[a | | | e] s1] eqn:E; try discriminate H.
  - now apply Hk in H.
  - now apply Hm in E.
Qed.

Lemma no_exit_for_each {A : Type} (l : list A) (body : A -> M unit) :
  (forall x, no_exit (body x)) -> no_exit (for_each l body).
Proof.
  intros Hb. induction l as [|x l IH]; simpl.
  - apply no_exit_ret.
  - apply no_exit_bind; [apply Hb | intros _; exact IH].
Qed.

Ltac no_exit_step :=
  first
    [ apply no_exit_ret | apply no_exit_fail | apply no_exit_raise
    | apply no_exit_emit | apply no_exit_run | apply no_exit_set
    | apply no_exit_bind; [|intros ?]
    | apply no_exit_for_each; intros ?
    | match goal with
      | |- no_exit (if ?c then _ else _) => destruct c
      | |- no_exit (match ?x with _ => _ end) => destruct x
      end ].

Lemma no_exit_command_failed cmd r : no_exit (command_failed cmd r).
Proof.
  unfold command_failed, join_cmd, set_stdout, set_stderr, set_msg.
  destruct r as [[rc out] err]. repeat no_exit_step.
Qed.

Lemma no_exit_get_pvs module : no_exit (get_pvs module).
Proof.
  unfold get_pvs. repeat first [apply no_exit_command_failed | no_exit_step].
Qed.

Lemma no_exit_get_free_pvs_lines lines : forall acc, no_exit (get_free_pvs_lines lines acc).
Proof.
  induction lines as [|line rest IH]; intros acc; simpl;
    repeat first [apply IH | no_exit_step].
Qed.

Lemma no_exit_get_free_pvs module : no_exit (get_free_pvs module).
Proof.
  unfold get_free_pvs.
  repeat first [apply no_exit_command_failed | apply no_exit_get_free_pvs_lines
               | no_exit_step].
Qed.

Lemma no_exit_clear_owner module h : no_exit (clear_owner module h).
Proof.
  unfold clear_owner. repeat first [apply no_exit_command_failed | no_exit_step].
Qed.

Lemma no_exit_sum_sizes pvs hdisks : forall acc, no_exit (sum_sizes pvs hdisks acc).
Proof.
  induction hdisks as [|h hs IH]; intros acc; simpl; unfold set_msg;
    repeat first [apply IH | no_exit_step].
Qed.

Lemma no_exit_find_valid_altdisk module hdisks info policy force :
  no_exit (find_valid_altdisk module hdisks info policy force).
Proof.
  unfold find_valid_altdisk, clear_existing_altdisk, select_altdisk,
    set_msg, set_changed.
  repeat first [apply no_exit_command_failed | apply no_exit_get_pvs
               | apply no_exit_get_free_pvs | apply no_exit_clear_owner
               | apply no_exit_sum_sizes | no_exit_step].
Qed.

Lemma no_exit_check_rootvg module : no_exit (check_rootvg module).
Proof.
  unfold check_rootvg, set_msg, set_stdout, set_stderr.
  repeat first [apply no_exit_command_failed | no_exit_step].
Qed.

Lemma no_exit_alt_disk_copy module hdisks policy force :
  no_exit (alt_disk_copy module hdisks policy force).
Proof.
  unfold alt_disk_copy, stop_mirror, module_info, copy_and_restore,
    restore_mirror, build_cmd_mirror, getitem, set_msg, set_stdout, set_stderr,
    set_changed.
  repeat first [apply no_exit_command_failed | apply no_exit_check_rootvg
               | apply no_exit_find_valid_altdisk | no_exit_step].
Qed.

Lemma no_exit_check_targets pvs hdisks : no_exit (check_targets pvs hdisks).
Proof.
  induction hdisks as [|h hs IH]; simpl; unfold set_msg;
    repeat first [apply IH | no_exit_step].
Qed.

Lemma no_exit_alt_disk_clean module hdisks : no_exit (alt_disk_clean module hdisks).
Proof.
  unfold alt_disk_clean, clean_targets, remove_and_clear, join_cmd,
    set_msg, set_stdout, set_stderr, set_changed.
  repeat first [apply no_exit_get_pvs | apply no_exit_check_targets
               | apply no_exit_clear_owner | no_exit_step].
Qed.

(** ** The cleanup, step by step *)

Lemma check_targets_first_bad pvs pre h post st :
  Forall (in_altinst pvs) pre -> ~ in_altinst pvs h ->
  exists st',
    check_targets pvs (pre ++ h :: post)%list st = (FailJson, st') /\
    calls st' = calls st /\
    msg (results st') = msg_not_altinst h /\
    changed (results st') = changed (results st) /\
    stdout (results st') = stdout (results st) /\
    stderr (results st') = stderr (results st).
Proof.
  intros Hpre Hbad. induction Hpre as [|d pre (p & Hg & Hv) _ IH]; simpl.
  - destruct (Dict.get String.eqb pvs h) as [p|] eqn:Hg.
    + destruct (String.eqb_spec (vg p) "altinst_rootvg") as [Hv | Hv]; cbn [negb].
      * exfalso. apply Hbad. now exists p.
      * eexists. split; [reflexivity|]. repeat split.
    + eexists. split; [reflexivity|]. repeat split.
  - rewrite Hg, Hv. exact IH.
Qed.

Lemma check_targets_all_good pvs hdisks st :
  Forall (in_altinst pvs) hdisks -> check_targets pvs hdisks st = (Ret tt, st).
Proof.
  intros H. induction H as [|d l (p & Hg & Hv) _ IH]; simpl; [reflexivity|].
  rewrite Hg, Hv. exact IH.
Qed.

Lemma clean_targets_named pvs l :
  l <> [] -> clean_targets pvs (Some l) = (check_targets pvs l ;; ret l).
Proof. destruct l; [congruence | reflexivity]. Qed.

Lemma clean_targets_unnamed pvs hdisks :
  unnamed hdisks ->
  clean_targets pvs hdisks
  = match map fst (filter is_altinst pvs) with
    | [] => set_msg msg_no_altinst ;; fail_json
    | _ => ret (map fst (filter is_altinst pvs))
    end.
Proof. intros [-> | ->]; reflexivity. Qed.

(** X21: a cleanup that names a disk which is not listed in altinst_rootvg
    fails on the first such name, before any removal: no command beyond
    the listing is run and [changed] is untouched. *)
Theorem clean_rejects_foreign_disk module pre h post st pvs st1 :
  get_pvs module st = (Ret (Some pvs), st1) ->
  Forall (in_altinst pvs) pre ->
  ~ in_altinst pvs h ->
  exists st',
    alt_disk_clean module (Some (pre ++ h :: post)%list) st = (FailJson, st') /\
    calls st' = calls st1 /\
    msg (results st') = msg_not_altinst h /\
    changed (results st') = changed (results st).
Proof.
  intros Hpvs Hpre Hbad. unfold alt_disk_clean.
  rewrite (bind_ret _ _ _ _ _ Hpvs).
  rewrite clean_targets_named by (destruct pre; discriminate).
  destruct (check_targets_first_bad pvs pre h post st1 Hpre Hbad)
    as (st' & E & Hc & Hm & Hch & _).
  exists st'. unfold bind. rewrite E.
  apply get_pvs_ok_inv in Hpvs. destruct Hpvs as (_ & _ & _ & _ & _ & Hr).
  repeat split; try assumption. now rewrite Hch, Hr.
Qed.

Lemma clean_rejects_foreign_disk_witness :
  exists st',
    alt_disk_clean (scripted [ok lspv_altinst]) (Some ["hdisk1"; "hdisk0"; "hdisk2"])
      initial_state = (FailJson, st') /\
    map fst (calls st') = [cmd_lspv] /\
    msg (results st') = msg_not_altinst "hdisk0" /\
    changed (results st') = false.
Proof.
  destruct (clean_rejects_foreign_disk (scripted [ok lspv_altinst])
              ["hdisk1"] "hdisk0" ["hdisk2"] initial_state _ _ eq_refl)
    as (st' & H & Hc & Hm & Hch).
  - constructor; [|constructor]. eexists. split; vm_compute; reflexivity.
  - intros (p & Hg & Hv). vm_compute in Hg. injection Hg as <-. discriminate Hv.
  - exists st'. split; [exact H|]. split; [rewrite Hc; reflexivity|].
    split; [exact Hm | exact Hch].
Defined.

Lemma filter_none {A : Type} (f : A -> bool) (l : list A) :
  (forall x, In x l -> f x = false) -> filter f l = [].
Proof.
  induction l as [|x l IH]; intros H; simpl; [reflexivity|].
  rewrite (H x (or_introl eq_refl)). apply IH. intros y Hy. apply H. now right.
Qed.

(** X22: a cleanup without named disks, on a host where no listed disk
    belongs to altinst_rootvg, fails with its own message after the
    listing alone; nothing is removed and [changed] is untouched. *)
Theorem clean_nothing_to_clean module hdisks st pvs st1 :
  unnamed hdisks ->
  get_pvs module st = (Ret (Some pvs), st1) ->
  (forall e, In e pvs -> vg (snd e) <> "altinst_rootvg") ->
  exists st',
    alt_disk_clean module hdisks st = (FailJson, st') /\
    calls st' = calls st1 /\
    msg (results st') = msg_no_altinst /\
    changed (results st') = changed (results st).
Proof.
  intros Hun Hpvs Hnone. unfold alt_disk_clean.
  rewrite (bind_ret _ _ _ _ _ Hpvs). rewrite (clean_targets_unnamed _ _ Hun).
  rewrite filter_none.
  2:{ intros e He. unfold is_altinst. apply String.eqb_neq. now apply Hnone. }
  apply get_pvs_ok_inv in Hpvs. destruct Hpvs as (_ & _ & _ & _ & _ & Hr).
  eexists. split; [reflexivity|]. cbn [calls results changed msg].
  repeat split. now rewrite Hr.
Qed.

Lemma clean_nothing_to_clean_witness :
  exists st',
    alt_disk_clean (scripted [ok lspv_plain]) (Some []) initial_state
    = (FailJson, st') /\
    map fst (calls st') = [cmd_lspv] /\
    msg (results st') = msg_no_altinst.
Proof.
  destruct (clean_nothing_to_clean (scripted [ok lspv_plain]) (Some [])
              initial_state _ _ (or_intror eq_refl) eq_refl)
    as (st' & H & Hc & Hm & _).
  - intros e He. vm_compute in He.
    repeat (destruct He as [<- | He]; [discriminate|]). destruct He.
  - exists st'. split; [exact H|]. split; [rewrite Hc; reflexivity | exact Hm].
Defined.

(** One [chpv -C]: the host's answer decides, and a failure leaves the
    command's output and a message naming the disk. *)
Lemma clear_owner_run module h st :
  exists st',
    calls st' = (calls st ++
                 [(cmd_chpv h, host module (map fst (calls st) ++ [cmd_chpv h]))])%list /\
    ((succeeded (host module (map fst (calls st) ++ [cmd_chpv h])) /\
      clear_owner module h st = (Ret tt, st') /\
      results st' = results st) \/
     (~ succeeded (host module (map fst (calls st) ++ [cmd_chpv h])) /\
      clear_owner module h st = (FailJson, st') /\
      changed (results st') = changed (results st) /\
      stdout (results st')
      = snd (fst (host module (map fst (calls st) ++ [cmd_chpv h]))) /\
      stderr (results st') = snd (host module (map fst (calls st) ++ [cmd_chpv h])) /\
      msg (results st')
      = msg_command_failed (chpv_words h)
          (fst (fst (host module (map fst (calls st) ++ [cmd_chpv h])))))).
Proof.
  destruct (clear_owner module h st) as [o st'] eqn:E0.
  unfold clear_owner in E0.
  unfold bind at 1, emit at 1 in E0. unfold bind at 1, run_command at 1 in E0. strings_ok_in E0.
  cbn [calls results journal] in E0. unfold succeeded.
  destruct (host module (map fst (calls st) ++ [cmd_chpv h])) as [[rc out] err] eqn:E.
  cbn [fst snd] in *. destruct (Z.eqb_spec rc 0) as [-> | Hne]; cbn [negb] in E0.
  - exists st'. unfold ret in E0. injection E0 as <- <-.
    split; [reflexivity|]. left. repeat split.
  - unfold command_failed, join_cmd in E0. simpl strings_of in E0.
    cbv [bind ret set_stdout set_stderr set_msg set_results fail_json] in E0.
    exists st'. injection E0 as <- <-. split; [reflexivity|]. right.
    repeat split. exact Hne.
Qed.

Lemma clear_loop_trace module hdisks :
  forall st o st',
  for_each hdisks (clear_owner module) st = (o, st') ->
  (o = Ret tt /\ results st' = results st /\
   exists rs, calls st' = (calls st ++ combine (map cmd_chpv hdisks) rs)%list /\
              List.length rs = List.length hdisks /\ Forall succeeded rs) \/
  (o = FailJson /\ changed (results st') = changed (results st) /\
   exists pre h post rs r,
     hdisks = (pre ++ h :: post)%list /\
     calls st' = (calls st ++ combine (map cmd_chpv pre) rs
                          ++ [(cmd_chpv h, r)])%list /\
     List.length rs = List.length pre /\ Forall succeeded rs /\
     ~ succeeded r /\
     stdout (results st') = snd (fst r) /\ stderr (results st') = snd r /\
     msg (results st') = msg_command_failed (chpv_words h) (fst (fst r))).
Proof.
  induction hdisks as [|h hs IH]; intros st o st' H; simpl in H.
  - injection H as <- <-. left. split; [reflexivity|]. split; [reflexivity|].
    exists []. simpl. rewrite app_nil_r. repeat split. constructor.
  - destruct (clear_owner_run module h st) as (s1 & Hc1 & Hcase).
    set (r := host module (map fst (calls st) ++ [cmd_chpv h])) in *.
    destruct Hcase as [(Hok & E1 & Hr1) | (Hbad & E1 & Hch1 & Hout & Herr & Hmsg)].
    + rewrite (bind_ret _ _ _ _ _ E1) in H. apply IH in H.
      destruct H as [(-> & Hres & rs & Hc & Hl & Hall)
                    | (-> & Hch & pre & h' & post & rs & r' & -> & Hc & Hl & Hall
                       & Hbad & Hrest)].
      * left. split; [reflexivity|]. split; [congruence|].
        exists (r :: rs). split; [|split; [simpl; now rewrite Hl|now constructor]].
        rewrite Hc, Hc1. cbn [map combine]. now rewrite <- app_assoc.
      * right. split; [reflexivity|]. split; [congruence|].
        exists (h :: pre), h', post, (r :: rs), r'.
        split; [reflexivity|].
        split; [rewrite Hc, Hc1; cbn [map combine]; now rewrite <- !app_assoc|].
        split; [simpl; now rewrite Hl|]. split; [now constructor|].
        split; [exact Hbad | exact Hrest].
    + unfold bind in H. rewrite E1 in H. injection H as <- <-.
      right. split; [reflexivity|]. split; [exact Hch1|].
      exists [], h, hs, [], r. split; [reflexivity|].
      split; [exact Hc1|]. split; [reflexivity|]. split; [constructor|].
      split; [exact Hbad|]. split; [exact Hout|]. split; [exact Herr | exact Hmsg].
Qed.

Lemma remove_and_clear_trace module targets st o st' :
  remove_and_clear module targets st = (o, st') ->
  exists r2,
    r2 = host module (map fst (calls st) ++ [cmd_remove_altinst]) /\
    ((~ succeeded r2 /\ o = FailJson /\
      calls st' = (calls st ++ [(cmd_remove_altinst, r2)])%list /\
      changed (results st') = changed (results st) /\
      stdout (results st') = snd (fst r2) /\ stderr (results st') = snd r2 /\
      msg (results st') = msg_command_failed remove_words (fst (fst r2))) \/
     (succeeded r2 /\ o = Ret tt /\ changed (results st') = true /\
      exists rs,
        calls st' = (calls st ++ (cmd_remove_altinst, r2)
                             :: combine (map cmd_chpv targets) rs)%list /\
        List.length rs = List.length targets /\ Forall succeeded rs) \/
     (succeeded r2 /\ o = FailJson /\
      changed (results st') = changed (results st) /\
      exists pre h post rs r,
        targets = (pre ++ h :: post)%list /\
        calls st' = (calls st ++ (cmd_remove_altinst, r2)
                             :: combine (map cmd_chpv pre) rs
                             ++ [(cmd_chpv h, r)])%list /\
        List.length rs = List.length pre /\ Forall succeeded rs /\
        ~ succeeded r /\
        stdout (results st') = snd (fst r) /\ stderr (results st') = snd r /\
        msg (results st') = msg_command_failed (chpv_words h) (fst (fst r)))).
Proof.
  intros H. unfold remove_and_clear in H.
  unfold bind at 1, emit at 1 in H. unfold bind at 1, run_command at 1 in H. strings_ok_in H.
  cbn [calls results journal] in H.
  eexists. split; [reflexivity|]. unfold succeeded.
  destruct (host module (map fst (calls st) ++ [cmd_remove_altinst]))
    as [[rc out] err] eqn:E.
  unfold bind at 1, set_stdout at 1, set_results at 1 in H.
  unfold bind at 1, set_stderr at 1, set_results at 1 in H.
  cbn [calls results journal changed msg stdout stderr fst snd] in *.
  destruct (Z.eqb_spec rc 0) as [-> | Hne]; cbn [negb] in H.
  - right. unfold bind at 1, ret at 1 in H. unfold bind at 1 in H.
    match type of H with
    | context [for_each targets (clear_owner module) ?s] =>
        destruct (for_each targets (clear_owner module) s) as [o1 s1] eqn:E1
    end.
    apply clear_loop_trace in E1. cbn [calls results changed] in E1.
    destruct E1 as [(-> & Hres & rs & Hc & Hl & Hall)
                   | (-> & Hch & pre & h & post & rs & r & -> & Hc & Hl & Hall
                      & Hbad & Hout & Herr & Hmsg)].
    + left. unfold set_changed, set_results in H. injection H as <- <-.
      cbn [calls results changed]. repeat split.
      exists rs. split; [rewrite Hc; now rewrite <- app_assoc|]. now split.
    + right. injection H as <- <-. split; [reflexivity|]. split; [reflexivity|].
      split; [exact Hch|]. exists pre, h, post, rs, r.
      split; [reflexivity|].
      split; [rewrite Hc; now rewrite <- app_assoc|]. repeat split; assumption.
  - left. unfold join_cmd in H. simpl strings_of in H.
    cbv [bind ret set_msg set_results fail_json] in H.
    injection H as <- <-. cbn [calls results changed msg stdout stderr].
    repeat split. exact Hne.
Qed.

Lemma clean_targets_ret pvs hdisks st targets st1 :
  clean_targets pvs hdisks st = (Ret targets, st1) ->
  st1 = st /\ targets <> [] /\
  (unnamed hdisks -> targets = map fst (filter is_altinst pvs)) /\
  (forall l, hdisks = Some l -> l <> [] -> targets = l).
Proof.
  intros H.
  destruct (clean_targets_spec pvs hdisks st)
    as [(t & E & Hne & Hexp) | (s & E & _)]; rewrite E in H; [|discriminate H].
  injection H as <- <-. split; [reflexivity|]. split; [exact Hne|]. split.
  - intros Hun. rewrite (clean_targets_unnamed _ _ Hun) in E.
    destruct (map fst (filter is_altinst pvs)); [discriminate E|].
    now injection E as <-.
  - intros l -> Hl. destruct l as [|h t']; [congruence|]. now apply Hexp.
Qed.

(** X23: when the removal of the alternate VG exits with a non-zero code,
    the cleanup fails there: no [chpv] is run on any target, the results
    carry the removal's output and a message naming the command and the
    code, and [changed] is untouched. *)
Theorem clean_removal_failure module hdisks st pvs st1 targets rc out err :
  get_pvs module st = (Ret (Some pvs), st1) ->
  clean_targets pvs hdisks st1 = (Ret targets, st1) ->
  host module (map fst (calls st1) ++ [cmd_remove_altinst]) = (rc, out, err) ->
  rc <> 0 ->
  exists st',
    alt_disk_clean module hdisks st = (FailJson, st') /\
    calls st' = (calls st1 ++ [(cmd_remove_altinst, (rc, out, err))])%list /\
    stdout (results st') = out /\ stderr (results st') = err /\
    msg (results st') = msg_command_failed remove_words rc /\
    changed (results st') = changed (results st).
Proof.
  intros Hpvs Ht Hhost Hrc.
  destruct (alt_disk_clean module hdisks st) as [o st'] eqn:H.
  unfold alt_disk_clean in H.
  rewrite (bind_ret _ _ _ _ _ Hpvs), (bind_ret _ _ _ _ _ Ht) in H.
  apply remove_and_clear_trace in H. destruct H as (r2 & -> & Hcase).
  rewrite Hhost in Hcase. unfold succeeded in Hcase. cbn [fst snd] in Hcase.
  apply get_pvs_ok_inv in Hpvs. destruct Hpvs as (_ & _ & _ & _ & _ & Hr).
  destruct Hcase as [(_ & -> & Hc & Hch & Ho & He & Hm)
                    | [(Hok & _) | (Hok & _)]]; try contradiction.
  exists st'. repeat split; try assumption. now rewrite Hch, Hr.
Qed.

Lemma clean_removal_failure_witness :
  exists st',
    alt_disk_clean (scripted [ok lspv_altinst; (3, "o", "e")]) None initial_state
    = (FailJson, st') /\
    map fst (calls st') = [cmd_lspv; cmd_remove_altinst] /\
    msg (results st')
    = "Command '/usr/sbin/alt_rootvg_op -X altinst_rootvg' failed with return code 3.".
Proof.
  destruct (clean_removal_failure (scripted [ok lspv_altinst; (3, "o", "e")])
              None initial_state _ _ ["hdisk1"; "hdisk2"] 3 "o" "e" eq_refl)
    as (st' & H & Hc & _ & _ & Hm & _).
  - vm_compute. reflexivity.
  - vm_compute. reflexivity.
  - discriminate.
  - exists st'. split; [exact H|]. split; [rewrite Hc; reflexivity | exact Hm].
Defined.

Lemma NoDup_map_filter {A B : Type} (g : A -> B) (f : A -> bool) (l : list A) :
  NoDup (map g l) -> NoDup (map g (filter f l)).
Proof.
  induction l as [|x l IH]; simpl; intros H; [exact H|].
  inversion H as [|? ? Hx Hl]; subst. destruct (f x); simpl; [|now apply IH].
  constructor; [|now apply IH].
  intros Hin. apply Hx. apply in_map_iff in Hin. destruct Hin as (y & <- & Hy).
  apply filter_In in Hy. apply in_map. tauto.
Qed.

(** X24: a cleanup without named disks that returns normally has run,
    after the listing, the removal and then one [chpv -C] for each disk
    listed in altinst_rootvg, in the order of the listing and each disk
    once. *)
Theorem clean_discovers_targets module hdisks st pvs st1 st' :
  unnamed hdisks ->
  get_pvs module st = (Ret (Some pvs), st1) ->
  alt_disk_clean module hdisks st = (Ret tt, st') ->
  map fst (calls st')
  = (map fst (calls st1)
     ++ cmd_remove_altinst :: map cmd_chpv (map fst (filter is_altinst pvs)))%list /\
  NoDup (map fst (filter is_altinst pvs)) /\
  map fst (filter is_altinst pvs) <> [] /\
  Forall (fun cr => succeeded (snd cr)) (skipn (List.length (calls st1)) (calls st')).
Proof.
  intros Hun Hpvs H. unfold alt_disk_clean in H.
  rewrite (bind_ret _ _ _ _ _ Hpvs) in H.
  apply bind_ret_inv in H. destruct H as (targets & s & Ht & H).
  apply clean_targets_ret in Ht. destruct Ht as (-> & Hne & Hfound & _).
  specialize (Hfound Hun). subst targets.
  apply remove_and_clear_trace in H. destruct H as (r2 & _ & Hcase).
  destruct Hcase as [(_ & Ho & _) | [(Hok & _ & _ & rs & Hc & Hl & Hall)
                                    | (_ & Ho & _)]]; try discriminate Ho.
  split; [|split; [|split; [exact Hne|]]].
  - rewrite Hc, map_app. f_equal. cbn [map fst]. f_equal.
    rewrite <- (length_map cmd_chpv) in Hl.
    clear - Hl. revert rs Hl.
    induction (map cmd_chpv (map fst (filter is_altinst pvs))) as [|c l IH];
      intros [|r rs] Hl; simpl in *; try discriminate; [reflexivity|].
    f_equal. apply IH. congruence.
  - apply NoDup_map_filter.
    apply get_pvs_ok_inv in Hpvs. destruct Hpvs as (out & err & _ & -> & _).
    apply (get_pvs_lines_names _ []); [constructor | intros x []].
  - rewrite Hc. rewrite skipn_app, skipn_all, Nat.sub_diag. cbn [skipn app].
    constructor; [exact Hok|].
    apply Forall_forall. intros [c r] Hin. apply in_combine_r in Hin.
    rewrite Forall_forall in Hall. now apply Hall.
Qed.

Lemma clean_discovers_targets_witness :
  exists st',
    alt_disk_clean (scripted [ok lspv_altinst; ok "removed"; ok EmptyString;
                              ok EmptyString]) None initial_state
    = (Ret tt, st') /\
    map fst (calls st')
    = [cmd_lspv; cmd_remove_altinst; cmd_chpv "hdisk1"; cmd_chpv "hdisk2"].
Proof.
  eexists. split; [vm_compute; reflexivity|].
  destruct (clean_discovers_targets
              (scripted [ok lspv_altinst; ok "removed"; ok EmptyString; ok EmptyString])
              None initial_state _ _ _ (or_introl eq_refl) eq_refl
              ltac:(vm_compute; reflexivity)) as (Hc & _).
  vm_compute in Hc. vm_compute. exact Hc.
Defined.

(** X25: a cleanup that fails after a successful removal has stopped at
    the first target whose [chpv -C] exited with a non-zero code: the
    targets before it were cleared, none after it was touched, the results
    carry that command's output and a message naming the disk and the
    code, and [changed] is untouched. *)
Theorem clean_stops_at_first_failure module hdisks st pvs st1 targets r2 st' :
  get_pvs module st = (Ret (Some pvs), st1) ->
  clean_targets pvs hdisks st1 = (Ret targets, st1) ->
  host module (map fst (calls st1) ++ [cmd_remove_altinst]) = r2 ->
  succeeded r2 ->
  alt_disk_clean module hdisks st = (FailJson, st') ->
  exists pre h post rs r,
    targets = (pre ++ h :: post)%list /\
    calls st' = (calls st1 ++ (cmd_remove_altinst, r2)
                          :: combine (map cmd_chpv pre) rs
                          ++ [(cmd_chpv h, r)])%list /\
    List.length rs = List.length pre /\ Forall succeeded rs /\
    ~ succeeded r /\
    stdout (results st') = snd (fst r) /\ stderr (results st') = snd r /\
    msg (results st') = msg_command_failed (chpv_words h) (fst (fst r)) /\
    changed (results st') = changed (results st).
Proof.
  intros Hpvs Ht Hhost Hok H. unfold alt_disk_clean in H.
  rewrite (bind_ret _ _ _ _ _ Hpvs), (bind_ret _ _ _ _ _ Ht) in H.
  apply remove_and_clear_trace in H. destruct H as (r2' & Hr2 & Hcase).
  rewrite Hhost in Hr2. subst r2'.
  apply get_pvs_ok_inv in Hpvs. destruct Hpvs as (_ & _ & _ & _ & _ & Hr).
  destruct Hcase as [(Hbad & _) | [(_ & Ho & _)
    | (_ & _ & Hch & pre & h & post & rs & r & Htg & Hc & Hl & Hall & Hbad
       & Hout & Herr & Hmsg)]]; [contradiction | discriminate Ho |].
  exists pre, h, post, rs, r. repeat split; try assumption. now rewrite Hch, Hr.
Qed.

Lemma clean_stops_at_first_failure_witness :
  exists st',
    alt_disk_clean (scripted [ok lspv_altinst; ok "removed"; (4, "o", "e")])
      None initial_state = (FailJson, st') /\
    map fst (calls st') = [cmd_lspv; cmd_remove_altinst; cmd_chpv "hdisk1"] /\
    msg (results st')
    = "Command '/usr/sbin/chpv -C hdisk1' failed with return code 4." /\
    changed (results st') = false.
Proof.
  eexists. split; [vm_compute; reflexivity|].
  destruct (clean_stops_at_first_failure
              (scripted [ok lspv_altinst; ok "removed"; (4, "o", "e")])
              None initial_state _ _ ["hdisk1"; "hdisk2"] _ _ eq_refl
              ltac:(vm_compute; reflexivity) eq_refl
              ltac:(vm_compute; reflexivity) ltac:(vm_compute; reflexivity))
    as (pre & h & post & rs & r & Htg & Hc & Hl & Hall & Hbad & _ & _ & Hm & Hch).
  destruct pre as [|p pre].
  - injection Htg as <- <-. destruct rs; [|discriminate Hl].
    vm_compute in Hc. injection Hc as <-.
    split; [vm_compute; reflexivity|]. split; [vm_compute; reflexivity|].
    vm_compute. reflexivity.
  - exfalso. destruct rs as [|r0 rs]; [discriminate Hl|].
    vm_compute in Hc. injection Hc as <- Hrest.
    inversion Hall as [|? ? Hr0 _]; subst. vm_compute in Hr0. discriminate Hr0.
Defined.

(** ** The report of [main] *)

Lemma build_cmd_mirror_state copies nb st cmd st' :
  build_cmd_mirror copies nb st = (Ret cmd, st') -> st' = st.
Proof.
  unfold build_cmd_mirror, getitem. intros H.
  destruct (Dict.get Z.eqb copies 2); [|discriminate H].
  unfold bind at 1, ret at 1 in H.
  destruct (nb >? 2).
  - destruct (Dict.get Z.eqb copies 3); [|discriminate H].
    now injection H as _ <-.
  - now injection H as _ <-.
Qed.

Lemma restore_mirror_ret module copies nb st st' :
  restore_mirror module copies nb st = (Ret tt, st') -> results st' = results st.
Proof.
  intros H. unfold restore_mirror in H.
  unfold bind at 1, emit at 1 in H.
  apply bind_ret_inv in H. destruct H as (cmd & s1 & Hb & H).
  apply build_cmd_mirror_state in Hb. subst s1.
  apply bind_ret_inv in H. destruct H as (r & s2 & Hr & H).
  apply run_command_inv in Hr. destruct Hr as (_ & Hres & _).
  cbn [results] in Hres. destruct r as [[rc out] err].
  destruct (negb (rc =? 0)); [fails_in H|].
  destruct (negb (Py.find err "Failed to mirror the volume group" =? -1));
    [fails_in H|].
  injection H as <-. exact Hres.
Qed.

Lemma copy_and_restore_ret module hd copies st st' :
  copy_and_restore module hd copies st = (Ret tt, st') ->
  changed (results st') = true.
Proof.
  intros H. unfold copy_and_restore in H.
  apply bind_ret_inv in H. destruct H as (r & s1 & Hr & H).
  destruct r as [[rc out] err].
  destruct (Z.eqb_spec rc 0) as [-> | Hne]; cbn [negb] in H.
  - unfold bind at 1, set_changed at 1, set_results at 1 in H.
    apply bind_ret_inv in H. destruct H as ([] & s2 & Hm & H).
    assert (Hch : changed (results s2) = true).
    { destruct (Dict.len copies >? 1).
      - apply restore_mirror_ret in Hm. now rewrite Hm.
      - injection Hm as <-. reflexivity. }
    cbv [bind ret set_stdout set_stderr set_results] in H.
    injection H as <-. exact Hch.
  - fails_in H.
Qed.

Lemma alt_disk_copy_ret module hdisks policy force st st' :
  alt_disk_copy module hdisks policy force st = (Ret tt, st') ->
  changed (results st') = true.
Proof.
  intros H. unfold alt_disk_copy in H.
  apply bind_ret_inv in H. destruct H as ([info|] & s1 & _ & H); [|discriminate H].
  apply bind_ret_inv in H. destruct H as (hd & s2 & _ & H).
  apply bind_ret_inv in H. destruct H as (? & s3 & _ & H).
  apply bind_ret_inv in H. destruct H as (? & s4 & _ & H).
  now apply copy_and_restore_ret in H.
Qed.

Lemma alt_disk_clean_ret module hdisks st st' :
  alt_disk_clean module hdisks st = (Ret tt, st') ->
  changed (results st') = true.
Proof.
  intros H. unfold alt_disk_clean in H.
  apply bind_ret_inv in H. destruct H as ([pvs|] & s1 & _ & H); [|discriminate H].
  apply bind_ret_inv in H. destruct H as (targets & s2 & _ & H).
  apply remove_and_clear_trace in H. destruct H as (r2 & _ & Hcase).
  destruct Hcase as [(_ & Ho & _) | [(_ & _ & Hch & _) | (_ & Ho & _)]];
    try discriminate Ho.
  exact Hch.
Qed.

(** X26: [main] never returns normally; it ends with [exit_json] only
    after its action has returned normally, and the report then says
    [changed] with the success message.  A failure of either action never
    reaches the success report. *)
Theorem main_reports_success module p st o st' :
  main module p st = (o, st') ->
  o <> Ret tt /\
  (o = ExitJson ->
   changed (results st') = true /\ msg (results st') = msg_success /\
   exists s,
     (match action p with
      | act_alt_disk_copy =>
          alt_disk_copy module (targets p) (param_disk_size_policy p) (param_force p)
      | act_alt_disk_clean => alt_disk_clean module (targets p)
      end)
       {| results := initial_results; calls := calls st; journal := journal st |}
     = (Ret tt, s) /\
     calls st' = calls s /\
     stdout (results st') = stdout (results s) /\
     stderr (results st') = stderr (results s)).
Proof.
  intros H. unfold main in H.
  unfold bind at 1, set_results at 1 in H. unfold bind at 1 in H.
  match type of H with
  | context [match ?a with act_alt_disk_copy => ?c | act_alt_disk_clean => ?d end ?s] =>
      destruct (match a with act_alt_disk_copy => c | act_alt_disk_clean => d end s)
        as [oa sa] eqn:Ea
  end.
  destruct oa as [[] | | | e].
  - cbv [bind set_msg set_results exit_json] in H. injection H as <- <-.
    split; [discriminate|]. intros _. cbn [results calls changed msg stdout stderr].
    split.
    { destruct (action p);
        [now apply alt_disk_copy_ret in Ea | now apply alt_disk_clean_ret in Ea]. }
    split; [reflexivity|]. exists sa. repeat split.
  - injection H as <- <-. split; discriminate.
  - exfalso. destruct (action p);
      [now apply no_exit_alt_disk_copy in Ea | now apply no_exit_alt_disk_clean in Ea].
  - injection H as <- <-. split; discriminate.
Qed.

Lemma main_reports_success_witness :
  exists st',
    main (scripted [ok lspv_altinst; ok "removed"; ok EmptyString; ok EmptyString])
      {| action := act_alt_disk_clean; targets := None;
         param_disk_size_policy := nearest; param_force := false |}
      initial_state = (ExitJson, st') /\
    changed (results st') = true /\ msg (results st') = msg_success.
Proof.
  eexists. split; [vm_compute; reflexivity|].
  destruct (main_reports_success
              (scripted [ok lspv_altinst; ok "removed"; ok EmptyString; ok EmptyString])
              {| action := act_alt_disk_clean; targets := None;
                 param_disk_size_policy := nearest; param_force := false |}
              initial_state _ _ ltac:(vm_compute; reflexivity)) as (_ & Hs).
  destruct (Hs eq_refl) as (Hch & Hm & _). split; [exact Hch | exact Hm].
Defined.

(** ** Well-formed inspection results *)

Lemma parse_map_line_ok line d c :
  parse_map_line line = inr (Some (d, c)) ->
  d <> EmptyString /\ all_chars (Re.mem Re.NonSpace) d = true /\ 0 <= c.
Proof.
  unfold parse_map_line. intros H.
  destruct (Re.re_match Re.mirror_line line) as [m|] eqn:E.
  - apply mirror_line_groups in E. destruct E as (d0 & c0 & -> & Hd & Hns & Hc).
    cbn [Re.group Nat.sub nth] in H.
    destruct (Py.int c0) as [v|] eqn:Ev; [|discriminate H].
    injection H as <- <-.
    split; [exact Hd|]. split; [exact Hns|]. now apply (int_digits_value c0).
  - destruct (Re.re_match Re.single_line line) as [m|] eqn:E1; [|discriminate H].
    apply single_line_groups in E1. destruct E1 as (d0 & -> & Hd & Hns).
    cbn [Re.group Nat.sub nth] in H. injection H as <- <-.
    split; [exact Hd|]. split; [exact Hns | lia].
Qed.

Lemma entries_of_ok lines d c :
  In (d, c) (entries_of lines) ->
  d <> EmptyString /\ all_chars (Re.mem Re.NonSpace) d = true /\ 0 <= c.
Proof.
  induction lines as [|line rest IH]; simpl; [contradiction|].
  destruct (parse_map_line (Py.rstrip line)) as [e | [[d0 c0]|]] eqn:E;
    [exact IH | | exact IH].
  intros [[= <- <-] | Hin]; [now apply parse_map_line_ok in E | now apply IH].
Qed.

Lemma summary_line_bounds acc line acc' :
  summary_line acc line = inr acc' ->
  -1 <= fst acc -> -1 <= snd acc -> -1 <= fst acc' /\ -1 <= snd acc'.
Proof.
  unfold summary_line. intros H Hf Hs.
  destruct (Re.re_match Re.total_pps_line (Py.rstrip line)) as [m|] eqn:E.
  - apply total_pps_line_groups in E. destruct E as (n & -> & Hn).
    cbn [Re.group Nat.sub nth] in H.
    destruct (Py.int n) as [v|] eqn:Ev; [|discriminate H].
    injection H as <-. apply (int_digits_value n) in Ev; [|exact Hn].
    cbn [fst snd]. lia.
  - destruct (Re.re_match Re.pp_size_line (Py.rstrip line)) as [m|] eqn:E1.
    + apply pp_size_line_groups in E1. destruct E1 as (n & -> & Hn).
      cbn [Re.group Nat.sub nth] in H.
      destruct (Py.int n) as [v|] eqn:Ev; [|discriminate H].
      injection H as <-. apply (int_digits_value n) in Ev; [|exact Hn].
      cbn [fst snd]. lia.
    + injection H as <-. auto.
Qed.

Lemma summary_loop_bounds out total pp :
  summary_loop out = inr (total, pp) -> -1 <= total /\ -1 <= pp.
Proof.
  unfold summary_loop.
  assert (H : forall lines acc r, summary_lines lines acc = inr r ->
            -1 <= fst acc -> -1 <= snd acc -> -1 <= fst r /\ -1 <= snd r).
  { induction lines as [|l ls IH]; intros acc r Hr Hf Hs; simpl in Hr.
    - injection Hr as <-. auto.
    - destruct (summary_line acc l) as [e | acc'] eqn:E; [discriminate Hr|].
      destruct (summary_line_bounds _ _ _ E Hf Hs). now apply (IH acc'). }
  intros Hr. apply H in Hr; simpl in *; [exact Hr | lia | lia].
Qed.

Lemma pv_size_loop_bounds lines copy1 :
  forall pv_size v,
  -1 <= pv_size -> pv_size_loop lines copy1 pv_size = inr v -> -1 <= v.
Proof.
  induction lines as [|line rest IH]; simpl; intros pv_size v Hp H.
  - now injection H as <-.
  - destruct (Re.re_match Re.lsvg_p_line (Py.rstrip line)) as [m|] eqn:E;
      [|now apply (IH pv_size)].
    apply lsvg_p_line_groups in E. destruct E as (d & n & -> & _ & Hn).
    cbn [Re.group Nat.sub nth] in H.
    destruct (Py.int n) as [k|] eqn:Ek; [|discriminate H].
    apply (int_digits_value n) in Ek; [|exact Hn].
    destruct copy1 as [disk|]; [|discriminate H].
    destruct (String.eqb d disk).
    + injection H as <-. lia.
    + apply (IH k v); [lia | exact H].
Qed.

(** X27: whatever the host prints, the description that [check_rootvg]
    returns is well formed: every copy number is a non-negative integer,
    every disk name is non-empty and free of white space, the used size is
    not negative, and the capacity is not negative for a mirrored rootvg
    and at least -1 (the unset value) otherwise. *)
Theorem inspection_wellformed module st info st' :
  check_rootvg module st = (Ret (Some info), st') ->
  (forall c d, In (c, d) (copy_dict info) ->
     0 <= c /\ d <> EmptyString /\ all_chars (Re.mem Re.NonSpace) d = true) /\
  0 <= used_size info /\
  -1 <= rootvg_size info /\
  (Dict.len (copy_dict info) > 1 -> 0 <= rootvg_size info).
Proof.
  intros H. apply check_rootvg_ok in H.
  destruct H as (outM & errM & acc & outS & errS & total & pp & _ & Hloop & Hcd & _
                 & Hsum & Hpp & Hused & Hcase).
  apply map_loop_entries in Hloop.
  destruct (entries_loop_ok _ _ _ Hloop) as (Hnb & _).
  destruct (entries_loop_more _ _ _ Hloop) as (Hin & _).
  destruct (summary_loop_bounds _ _ _ Hsum) as [Hf Hs].
  assert (Hnb0 : 0 <= nb_lp acc).
  { rewrite Hnb. unfold copy1_count. cbn [nb_lp init_acc]. lia. }
  split; [|split; [|split]].
  - intros c d Hi. rewrite Hcd in Hi. apply Hin in Hi.
    destruct Hi as [[] | Hi]. apply entries_of_ok in Hi. tauto.
  - rewrite Hused. nia.
  - destruct Hcase as [(_ & _ & outP & errP & pv & _ & Hpv & Hne & ->)
                      | (_ & _ & ->)]; [|exact Hf].
    apply pv_size_loop_bounds in Hpv; [nia | lia].
  - intros Hlen. rewrite Hcd in Hlen.
    destruct Hcase as [(_ & _ & outP & errP & pv & _ & Hpv & Hne & ->)
                      | (Hle & _)]; [|lia].
    apply pv_size_loop_bounds in Hpv; [nia | lia].
Qed.

Lemma inspection_wellformed_witness :
  exists info st',
    check_rootvg (mirrored_host 0 (ok EmptyString)) initial_state
    = (Ret (Some info), st') /\
    0 <= used_size info /\ 0 <= rootvg_size info.
Proof.
  eexists. eexists. split; [vm_compute; reflexivity|].
  destruct (inspection_wellformed (mirrored_host 0 (ok EmptyString)) initial_state
              _ _ ltac:(vm_compute; reflexivity)) as (_ & Hu & _ & Hr).
  split; [exact Hu|]. apply Hr. vm_compute. reflexivity.
Defined.
